(** * Calls plugin: session registry, call-state transactions and the
      client call-session engine

    A shallow embedding of

    - [server/session.go]: [newUserSession], [addUserSession],
      [removeUserSession];
    - the [CallsClient] class that follows the participants list component
      in [webapp/src/components/call_widget/participants_list.tsx]: device
      selection and fallback, mute/unmute, screen sharing and disconnect.

    Go maps used as sets are [gset], Go and JavaScript maps are [gmap];
    JavaScript objects that are shared and mutated in place (media tracks,
    media streams) live in an explicit heap and are referred to by address. *)

From stdpp Require Import gmap strings list fin_maps.

Open Scope string_scope.
Open Scope list_scope.

(* ===================================================================== *)
(** * Server side: [server/session.go]                                    *)
(* ===================================================================== *)

Module Server.

(** [const wsChSize = 10] *)
Definition wsChSize : nat := 10.

(** A buffered Go channel of byte slices: its capacity and its queue. *)
Record chan := Chan { chan_cap : nat; chan_buf : list (list Byte.byte) }.

(** [make(chan []byte, n)] *)
Definition make_chan (n : nat) : chan := Chan n [].

(** [type session struct]; the lock [mut] guards the fields and carries no
    data. Handles to the websocket, the outgoing track and the peer
    connection are opaque addresses, [None] for a nil pointer. *)
Record session := Session {
  userID : string;
  channelID : string;
  isMuted : bool;
  isSpeaking : bool;
  wsInCh : chan;
  wsOutCh : chan;
  wsConn : option nat;
  outTrack : option nat;
  outConn : option nat
}.

Definition newUserSession (userID channelID : string) : session :=
  {| userID := userID;
     channelID := channelID;
     isMuted := false;
     isSpeaking := false;
     wsInCh := make_chan wsChSize;
     wsOutCh := make_chan wsChSize;
     wsConn := None;
     outTrack := None;
     outConn := None |}.

(** [callState], with the three fields the literal in [addUserSession]
    sets. [Users] is a [map[string]struct{}], a set of user ids. *)
Record callState := CallState {
  ID : string;
  StartAt : Z;
  Users : gset string
}.

(** Go errors built by [fmt.Errorf] carry their message. *)
Definition error := string.
Definition errChannelStateMissing : error := "channel state is missing from store".
Definition errCallStateMissing : error := "call state is missing from channel state".

(** One line written by [p.LogDebug(msg, "UserID", u, "ChannelID", c)]. *)
Record logLine := LogLine { log_msg : string; log_user : string; log_channel : string }.

Section WithChannelFields.

(** The declaration of [channelState] is outside [session.go]. The two
    functions only read and write its [Call] pointer; every other field of
    the struct is carried around as one value of type [Extra], whose Go zero
    value is [extra0]. [maxRetries] is the bound of the store on the
    retries of one transaction. *)
Context {Extra : Type} (extra0 : Extra) (maxRetries : nat).

Record channelState := ChannelState {
  Call : option callState;
  other : Extra
}.

(** [var st channelState] *)
Definition zeroChannelState : channelState :=
  {| Call := None; other := extra0 |}.

(** The plugin: the in-memory registry [p.sessions], the key-value store
    holding one [channelState] per channel id, and the debug log. *)
Record Plugin := MkPlugin {
  sessions : gmap string session;
  kv : gmap string channelState;
  debugLog : list logLine
}.

Definition LogDebug (l : logLine) (p : Plugin) : Plugin :=
  {| sessions := sessions p; kv := kv p; debugLog := debugLog p ++ [l] |}.

Definition set_sessions (f : gmap string session → gmap string session)
    (p : Plugin) : Plugin :=
  {| sessions := f (sessions p); kv := kv p; debugLog := debugLog p |}.

Definition set_kv (f : gmap string channelState → gmap string channelState)
    (p : Plugin) : Plugin :=
  {| sessions := sessions p; kv := f (kv p); debugLog := debugLog p |}.

(** A transform passed to the store. The Go closures also assign the
    captured variable [st]; that variable is threaded through explicitly:
    the closure receives the record read from the store ([None] for a nil
    pointer) and the current [st], and yields the pointer and error it
    returns together with the new [st]. *)
Definition transform : Type :=
  option channelState → channelState →
  (option channelState * option error) * channelState.

(** Modelled from the spec: the error the store returns when it gives up
    on a transaction (section 4.1, StoreConflict); its text is not given. *)
Definition errStoreConflict : error := "store conflict".

(** Modelled from the spec: [kvSetAtomicChannelState] is defined outside
    [session.go]. Section 4.1: it reads the current record of the channel,
    applies the transform, and persists the result only if the record has
    not moved since it was read; on a conflict it reads and transforms
    again, and once the bounded number of retries is used up it returns the
    store-conflict error. A transform that fails persists nothing and its
    error is returned; a transform returning a nil record without an error
    stores nothing.

    Conflicts come from concurrent writers. They enter as [contention]: the
    records other transactions commit to this channel between a read of
    this transaction and its compare-and-swap, one per attempt that loses;
    with an empty list the transaction is alone and its first attempt
    commits. *)
Fixpoint kvSetAtomic_attempts (attempts : nat) (channelID : string)
    (cb : transform) (contention : list channelState)
    (st : channelState) (p : Plugin)
    : (Plugin * option error) * channelState :=
  match attempts with
  | 0 => ((p, Some errStoreConflict), st)
  | S n =>
      match cb (kv p !! channelID) st with
      | ((_, Some err), st') => ((p, Some err), st')
      | ((None, None), st') => ((p, None), st')
      | ((Some state, None), st') =>
          match contention with
          | [] => ((set_kv (insert channelID state) p, None), st')
          | theirs :: rest =>
              kvSetAtomic_attempts n channelID cb rest st'
                (set_kv (insert channelID theirs) p)
          end
      end
  end.

(** Modelled from the spec: the first attempt and at most [maxRetries]
    retries. *)
Definition kvSetAtomicChannelState (channelID : string) (cb : transform)
    (contention : list channelState) (st : channelState) (p : Plugin)
    : (Plugin * option error) * channelState :=
  kvSetAtomic_attempts (S maxRetries) channelID cb contention st p.

(** The closure of [addUserSession]. [newId] and [now] are the values
    [model.NewId()] and [time.Now().UnixMilli()] produce when called. *)
Definition addUserSession_cb (userID : string) (newId : string) (now : Z)
    : transform :=
  fun state st =>
    match state with
    | None => ((None, Some errChannelStateMissing), st)
    | Some state =>
        (* if state.Call == nil { state.Call = &callState{...} } *)
        let call :=
          match Call state with
          | None => {| ID := newId; StartAt := now; Users := ∅ |}
          | Some c => c
          end in
        (* state.Call.Users[userID] = struct{}{} *)
        let call :=
          {| ID := ID call; StartAt := StartAt call;
             Users := {[userID]} ∪ Users call |} in
        let state := {| Call := Some call; other := other state |} in
        (* st = *state; return state, nil *)
        ((Some state, None), state)
    end.

Definition addUserSession (userID channelID : string) (userSession : session)
    (newId : string) (now : Z) (contention : list channelState) (p : Plugin)
    : Plugin * (channelState * option error) :=
  let p := LogDebug (LogLine "adding session" userID channelID) p in
  let p := set_sessions (insert userID userSession) p in
  let '((p, err), st) :=
    kvSetAtomicChannelState channelID (addUserSession_cb userID newId now)
      contention zeroChannelState p in
  (p, (st, err)).

(** The closure of [removeUserSession]. *)
Definition removeUserSession_cb (userID : string) : transform :=
  fun state st =>
    match state with
    | None => ((None, Some errChannelStateMissing), st)
    | Some state =>
        match Call state with
        | None => ((None, Some errCallStateMissing), st)
        | Some call =>
            (* delete(state.Call.Users, userID) *)
            let call :=
              {| ID := ID call; StartAt := StartAt call;
                 Users := Users call ∖ {[userID]} |} in
            (* if len(state.Call.Users) == 0 { state.Call = nil } *)
            let state :=
              if decide (size (Users call) = 0)
              then {| Call := None; other := other state |}
              else {| Call := Some call; other := other state |} in
            ((Some state, None), state)
        end
    end.

Definition removeUserSession (userID channelID : string)
    (contention : list channelState) (p : Plugin)
    : Plugin * (channelState * option error) :=
  let p := LogDebug (LogLine "removing session" userID channelID) p in
  let p := set_sessions (delete userID) p in
  let '((p, err), st) :=
    kvSetAtomicChannelState channelID (removeUserSession_cb userID)
      contention zeroChannelState p in
  (p, (st, err)).

(** A join or a leave, with everything the call receives from outside. *)
Inductive op :=
  | Add (userID channelID : string) (userSession : session)
        (newId : string) (now : Z) (contention : list channelState)
  | Remove (userID channelID : string) (contention : list channelState).

Definition step (o : op) (p : Plugin) : Plugin * (channelState * option error) :=
  match o with
  | Add u c s i t cn => addUserSession u c s i t cn p
  | Remove u c cn => removeUserSession u c cn p
  end.

(** Runs the operations in order, whatever each one returns. *)
Fixpoint run (ops : list op) (p : Plugin) : Plugin :=
  match ops with
  | [] => p
  | o :: ops => run ops (fst (step o p))
  end.

(** The member set of a channel record: empty when there is no call. *)
Definition members (st : channelState) : gset string :=
  match Call st with
  | None => ∅
  | Some c => Users c
  end.

(** The call sub-record is present iff the member set is non-empty. *)
Definition call_iff_members (st : channelState) : Prop :=
  is_Some (Call st) ↔ members st ≠ ∅.

Definition store_invariant (p : Plugin) : Prop :=
  ∀ ch st, kv p !! ch = Some st → call_iff_members st.

Definition contention_of (o : op) : list channelState :=
  match o with
  | Add _ _ _ _ _ cn => cn
  | Remove _ _ cn => cn
  end.

(** The concurrent writers of an operation are joins and leaves too: what
    they commit has the invariant. *)
Definition fair_contention (o : op) : Prop :=
  Forall call_iff_members (contention_of o).

End WithChannelFields.

Arguments channelState : clear implicits.
Arguments Plugin : clear implicits.
Arguments transform : clear implicits.
Arguments op : clear implicits.

(** ** Sample states

    The remaining field of a channel record is taken to be one boolean
    here. A plugin whose store holds an initialised record without a call
    for the channel general, and one whose store is empty. *)
Definition general_plugin : Plugin bool :=
  MkPlugin ∅ {["general" := ChannelState None true]} [].

Definition empty_plugin : Plugin bool := MkPlugin ∅ ∅ [].

(** Two users join and leave; while B joins, another transaction commits
    a record to the channel first, so that B's first attempt loses. *)
Definition sample_ops : list (op bool) :=
  [Add "A" "general" (newUserSession "A" "general") "call1" 1000 [];
   Add "B" "general" (newUserSession "B" "general") "call2" 2000
     [ChannelState (Some (CallState "call1" 1000 {["A"; "C"]})) true];
   Remove "A" "general" [];
   Remove "B" "general" []].

(** A record that a concurrent writer keeps committing: the channel
    without a call. *)
Definition idle_record : channelState bool := ChannelState None true.

(** A channel with a call that user A is in. *)
Definition busy_plugin : Plugin bool :=
  MkPlugin ∅
    {["general" := ChannelState (Some (CallState "call1" 1000 {["A"]})) true]} [].

End Server.

(* ===================================================================== *)
(** * Client side: the [CallsClient] class                                *)
(* ===================================================================== *)

Module Client.

(** ** Browser objects *)

(** Media tracks and media streams are JavaScript objects shared between
    the client's fields and mutated in place: they live in a heap and are
    named by their address, which also serves as their [id]. *)
Definition TrackRef := nat.
Definition StreamRef := nat.

Inductive deviceKind := audioinput | audiooutput | videoinput.

#[global] Instance deviceKind_eq_dec : EqDecision deviceKind.
Proof. solve_decision. Defined.

Record MediaDeviceInfo := MkDevice {
  deviceId : string;
  kind : deviceKind;
  label : string;
  groupId : string
}.

#[global] Instance MediaDeviceInfo_eq_dec : EqDecision MediaDeviceInfo.
Proof. solve_decision. Defined.

(** [AudioDevices]: [{inputs, outputs}] *)
Record AudioDevices := MkAudioDevices {
  inputs : list MediaDeviceInfo;
  outputs : list MediaDeviceInfo
}.

Inductive trackKind := audio | video.

#[global] Instance trackKind_eq_dec : EqDecision trackKind.
Proof. solve_decision. Defined.

Inductive readyState := live | ended.

(** The one handler the client installs on a track: the closure assigned to
    [screenTrack.onended] in [setScreenStream], which captures [screenTrack]
    and [screenAudioTrack]. *)
Record onendedClosure := MkOnended {
  cl_screenTrack : TrackRef;
  cl_screenAudioTrack : option TrackRef
}.

Record MediaStreamTrack := MkTrack {
  track_kind : trackKind;
  enabled : bool;
  ready : readyState;
  onended : option onendedClosure
}.

(** A [MediaStream] object: the tracks it holds, in order. *)
Record MediaStream := MkStream { stream_tracks : list TrackRef }.

(** What a key of [window.localStorage] holds for a device preference:
    a string that [JSON.parse] turns into an object with a [deviceId] and
    possibly a [label] (what [JSON.stringify(device)] writes), or a string
    that [JSON.parse] rejects (the bare device id older versions wrote). *)
Record devicePref := MkPref {
  pref_deviceId : string;
  pref_label : option string
}.

Inductive stored :=
  | Json (p : devicePref)
  | Raw (s : string).

(** The storage keys are string constants imported from [src/constants],
    outside the file; they are kept as names, distinct from one another. *)
Inductive storageKey :=
  | STORAGE_CALLS_CLIENT_STATS_KEY
  | STORAGE_CALLS_DEFAULT_AUDIO_INPUT_KEY
  | STORAGE_CALLS_DEFAULT_AUDIO_OUTPUT_KEY.

#[global] Instance storageKey_eq_dec : EqDecision storageKey.
Proof. solve_decision. Defined.

#[global] Instance storageKey_countable : Countable storageKey.
Proof.
  refine (inj_countable'
            (fun k => match k with
                      | STORAGE_CALLS_CLIENT_STATS_KEY => 0
                      | STORAGE_CALLS_DEFAULT_AUDIO_INPUT_KEY => 1
                      | STORAGE_CALLS_DEFAULT_AUDIO_OUTPUT_KEY => 2
                      end)
            (fun n => match n with
                      | 0 => STORAGE_CALLS_CLIENT_STATS_KEY
                      | 1 => STORAGE_CALLS_DEFAULT_AUDIO_INPUT_KEY
                      | _ => STORAGE_CALLS_DEFAULT_AUDIO_OUTPUT_KEY
                      end) _).
  by intros [].
Defined.

(** [JSON.stringify(device)] as stored and later parsed back. *)
Definition stringify_device (d : MediaDeviceInfo) : stored :=
  Json {| pref_deviceId := deviceId d; pref_label := Some (label d) |}.

(** Errors thrown or passed around by the client. *)
Inductive jsError :=
  | AudioInputPermissionsError
  | AudioInputMissingError
  | rtcPeerErr
  | rtcPeerTimeoutErr
  | rtcPeerCloseErr
  | TypeError
  | MediaError          (* a rejection of getUserMedia *)
  | EnumerateError      (* a rejection of enumerateDevices *)
  | WebSocketError (msg : string).

(** ** What the client does to the outside *)

Inductive logLevel := Debug | Err | Info | Warn.

#[global] Instance logLevel_eq_dec : EqDecision logLevel.
Proof. solve_decision. Defined.

Inductive payload :=
  | NoPayload
  | Devices (ds : AudioDevices)
  | Device (d : MediaDeviceInfo)
  | Error (e : option jsError)
  | Stream (s : StreamRef).

Inductive effect :=
  | Log (lvl : logLevel) (msg : string)
  | Emit (name : string) (arg : payload)
  | PeerReplaceTrack (old : TrackRef) (new : option TrackRef)
  | PeerAddTrack (t : TrackRef) (s : StreamRef)
  | PeerRemoveTrack (t : TrackRef)
  | PeerAddStream (s : StreamRef) (av1 : bool)
  | PeerGetStats
  | PeerDestroy
  | WsSend (type : string) (data : option StreamRef)
  | WsClose
  | MonitorStop
  | MonitorClearCache
  | TrackStop (t : TrackRef)
  | DispatchEnded (t : TrackRef)
  | EnumerateDevices
  | GetUserMedia (exact : option string).

#[global] Instance AudioDevices_eq_dec : EqDecision AudioDevices.
Proof. solve_decision. Defined.

#[global] Instance jsError_eq_dec : EqDecision jsError.
Proof. solve_decision. Defined.

#[global] Instance payload_eq_dec : EqDecision payload.
Proof. solve_decision. Defined.

#[global] Instance effect_eq_dec : EqDecision effect.
Proof. solve_decision. Defined.

(** ** The client and its world *)

(** [CallsClientConfig] is declared outside the file; these are the
    fields the class reads. *)
Record CallsClientConfig := MkConfig {
  enableAV1 : bool;
  simulcast : bool;
  dcSignaling : bool
}.

(** The fields of a [CallsClient]. [peer], [ws] and [rtcMonitor] are
    objects of other modules: only their presence is recorded, and calls
    to their methods appear as effects. *)
Record CallsClient := MkClient {
  channelID : string;
  config : CallsClientConfig;
  peer : option unit;
  ws : option unit;
  localScreenTrack : option TrackRef;
  remoteScreenTrack : option TrackRef;
  remoteVoiceTracks : list TrackRef;
  currentAudioInputDevice : option MediaDeviceInfo;
  currentAudioOutputDevice : option MediaDeviceInfo;
  voiceTrackAdded : bool;
  streams : list StreamRef;
  stream : option StreamRef;
  audioDevices : AudioDevices;
  audioTrack : option TrackRef;
  closed : bool;
  connected : bool;
  rtcMonitor : option unit;
  av1Codec : option string
}.

(** The browser around it: the heap of tracks and streams, the next free
    address, [window.localStorage], and the answers the platform will give
    to the coming calls of [enumerateDevices] and [getUserMedia] ([None]
    for a rejected promise; an exhausted list rejects). *)
Record Browser := MkBrowser {
  tracks : gmap nat MediaStreamTrack;
  mstreams : gmap nat MediaStream;
  next_ref : nat;
  localStorage : gmap storageKey stored;
  env_devices : list (option (list MediaDeviceInfo));
  env_media : list bool
}.

Record World := MkWorld { this : CallsClient; browser : Browser }.

(** ** Field updates *)

Definition set_peer v (c : CallsClient) : CallsClient :=
  MkClient (channelID c) (config c) v (ws c) (localScreenTrack c)
    (remoteScreenTrack c) (remoteVoiceTracks c) (currentAudioInputDevice c)
    (currentAudioOutputDevice c) (voiceTrackAdded c) (streams c) (stream c)
    (audioDevices c) (audioTrack c) (closed c) (connected c) (rtcMonitor c)
    (av1Codec c).
Definition set_ws v (c : CallsClient) : CallsClient :=
  MkClient (channelID c) (config c) (peer c) v (localScreenTrack c)
    (remoteScreenTrack c) (remoteVoiceTracks c) (currentAudioInputDevice c)
    (currentAudioOutputDevice c) (voiceTrackAdded c) (streams c) (stream c)
    (audioDevices c) (audioTrack c) (closed c) (connected c) (rtcMonitor c)
    (av1Codec c).
Definition set_localScreenTrack v (c : CallsClient) : CallsClient :=
  MkClient (channelID c) (config c) (peer c) (ws c) v
    (remoteScreenTrack c) (remoteVoiceTracks c) (currentAudioInputDevice c)
    (currentAudioOutputDevice c) (voiceTrackAdded c) (streams c) (stream c)
    (audioDevices c) (audioTrack c) (closed c) (connected c) (rtcMonitor c)
    (av1Codec c).
Definition set_currentAudioInputDevice v (c : CallsClient) : CallsClient :=
  MkClient (channelID c) (config c) (peer c) (ws c) (localScreenTrack c)
    (remoteScreenTrack c) (remoteVoiceTracks c) v
    (currentAudioOutputDevice c) (voiceTrackAdded c) (streams c) (stream c)
    (audioDevices c) (audioTrack c) (closed c) (connected c) (rtcMonitor c)
    (av1Codec c).
Definition set_currentAudioOutputDevice v (c : CallsClient) : CallsClient :=
  MkClient (channelID c) (config c) (peer c) (ws c) (localScreenTrack c)
    (remoteScreenTrack c) (remoteVoiceTracks c) (currentAudioInputDevice c)
    v (voiceTrackAdded c) (streams c) (stream c)
    (audioDevices c) (audioTrack c) (closed c) (connected c) (rtcMonitor c)
    (av1Codec c).
Definition set_voiceTrackAdded v (c : CallsClient) : CallsClient :=
  MkClient (channelID c) (config c) (peer c) (ws c) (localScreenTrack c)
    (remoteScreenTrack c) (remoteVoiceTracks c) (currentAudioInputDevice c)
    (currentAudioOutputDevice c) v (streams c) (stream c)
    (audioDevices c) (audioTrack c) (closed c) (connected c) (rtcMonitor c)
    (av1Codec c).
Definition set_streams v (c : CallsClient) : CallsClient :=
  MkClient (channelID c) (config c) (peer c) (ws c) (localScreenTrack c)
    (remoteScreenTrack c) (remoteVoiceTracks c) (currentAudioInputDevice c)
    (currentAudioOutputDevice c) (voiceTrackAdded c) v (stream c)
    (audioDevices c) (audioTrack c) (closed c) (connected c) (rtcMonitor c)
    (av1Codec c).
Definition set_stream v (c : CallsClient) : CallsClient :=
  MkClient (channelID c) (config c) (peer c) (ws c) (localScreenTrack c)
    (remoteScreenTrack c) (remoteVoiceTracks c) (currentAudioInputDevice c)
    (currentAudioOutputDevice c) (voiceTrackAdded c) (streams c) v
    (audioDevices c) (audioTrack c) (closed c) (connected c) (rtcMonitor c)
    (av1Codec c).
Definition set_audioDevices v (c : CallsClient) : CallsClient :=
  MkClient (channelID c) (config c) (peer c) (ws c) (localScreenTrack c)
    (remoteScreenTrack c) (remoteVoiceTracks c) (currentAudioInputDevice c)
    (currentAudioOutputDevice c) (voiceTrackAdded c) (streams c) (stream c)
    v (audioTrack c) (closed c) (connected c) (rtcMonitor c)
    (av1Codec c).
Definition set_audioTrack v (c : CallsClient) : CallsClient :=
  MkClient (channelID c) (config c) (peer c) (ws c) (localScreenTrack c)
    (remoteScreenTrack c) (remoteVoiceTracks c) (currentAudioInputDevice c)
    (currentAudioOutputDevice c) (voiceTrackAdded c) (streams c) (stream c)
    (audioDevices c) v (closed c) (connected c) (rtcMonitor c)
    (av1Codec c).
Definition set_closed v (c : CallsClient) : CallsClient :=
  MkClient (channelID c) (config c) (peer c) (ws c) (localScreenTrack c)
    (remoteScreenTrack c) (remoteVoiceTracks c) (currentAudioInputDevice c)
    (currentAudioOutputDevice c) (voiceTrackAdded c) (streams c) (stream c)
    (audioDevices c) (audioTrack c) v (connected c) (rtcMonitor c)
    (av1Codec c).

Definition set_tracks f (b : Browser) : Browser :=
  MkBrowser (f (tracks b)) (mstreams b) (next_ref b) (localStorage b)
    (env_devices b) (env_media b).
Definition set_mstreams f (b : Browser) : Browser :=
  MkBrowser (tracks b) (f (mstreams b)) (next_ref b) (localStorage b)
    (env_devices b) (env_media b).
Definition set_next_ref v (b : Browser) : Browser :=
  MkBrowser (tracks b) (mstreams b) v (localStorage b)
    (env_devices b) (env_media b).
Definition set_localStorage f (b : Browser) : Browser :=
  MkBrowser (tracks b) (mstreams b) (next_ref b) (f (localStorage b))
    (env_devices b) (env_media b).
Definition set_env_devices v (b : Browser) : Browser :=
  MkBrowser (tracks b) (mstreams b) (next_ref b) (localStorage b)
    v (env_media b).
Definition set_env_media v (b : Browser) : Browser :=
  MkBrowser (tracks b) (mstreams b) (next_ref b) (localStorage b)
    (env_devices b) v.

(** ** The monad of client code

    A method runs in a world and yields a result, the world it leaves, and
    the effects it had, in order. A result is a returned value, a thrown
    error (a rejected promise for an [async] method), or the exhaustion of
    the recursion budget of the device functions. Every [await] resumes at
    once: a method runs to completion before any other callback. *)

Inductive result (A : Type) :=
  | Ok (a : A)
  | Throw (e : jsError)
  | OutOfFuel.
Arguments Ok {A} a.
Arguments Throw {A} e.
Arguments OutOfFuel {A}.

Definition M (A : Type) : Type := World → result A * World * list effect.

Definition ret {A} (a : A) : M A := fun w => (Ok a, w, []).

Definition bind {A B} (m : M A) (k : A → M B) : M B :=
  fun w =>
    match m w with
    | (Ok a, w1, t1) =>
        let '(r, w2, t2) := k a w1 in (r, w2, t1 ++ t2)
    | (Throw e, w1, t1) => (Throw e, w1, t1)
    | (OutOfFuel, w1, t1) => (OutOfFuel, w1, t1)
    end.

Notation "'let*' x ':=' c1 'in' c2" := (bind c1 (fun x => c2))
  (at level 10, x pattern, c1 at level 100, c2 at level 200).
Notation "c1 '>>' c2" := (bind c1 (fun _ => c2))
  (at level 100, c2 at level 200, right associativity).

Definition throw {A} (e : jsError) : M A := fun w => (Throw e, w, []).
Definition out_of_fuel {A} : M A := fun w => (OutOfFuel, w, []).

(** [try { body } catch (err) { handler err }] *)
Definition try_catch {A} (body : M A) (handler : jsError → M A) : M A :=
  fun w =>
    match body w with
    | (Throw e, w1, t1) =>
        let '(r, w2, t2) := handler e w1 in (r, w2, t1 ++ t2)
    | other => other
    end.

Definition get_this : M CallsClient := fun w => (Ok (this w), w, []).
Definition get_browser : M Browser := fun w => (Ok (browser w), w, []).
Definition upd_this (f : CallsClient → CallsClient) : M unit :=
  fun w => (Ok tt, MkWorld (f (this w)) (browser w), []).
Definition upd_browser (f : Browser → Browser) : M unit :=
  fun w => (Ok tt, MkWorld (this w) (f (browser w)), []).
Definition tell (e : effect) : M unit := fun w => (Ok tt, w, [e]).

Definition when (b : bool) (m : M unit) : M unit :=
  if b then m else ret tt.

Definition is_some {A} (o : option A) : bool :=
  match o with Some _ => true | None => false end.

(** ** Logging, events, peer, socket, monitor *)

Definition logDebug (msg : string) : M unit := tell (Log Debug msg).
Definition logErr (msg : string) : M unit := tell (Log Err msg).
Definition logInfo (msg : string) : M unit := tell (Log Info msg).
Definition logWarn (msg : string) : M unit := tell (Log Warn msg).

Definition emit (name : string) (arg : payload) : M unit :=
  tell (Emit name arg).

(** ** Tracks and streams *)

(** [track.stop()] *)
Definition track_stop (t : TrackRef) : M unit :=
  upd_browser (set_tracks (alter (fun tr =>
    MkTrack (track_kind tr) (enabled tr) ended (onended tr)) t)) >>
  tell (TrackStop t).

(** [track.enabled = b] *)
Definition track_set_enabled (t : TrackRef) (b : bool) : M unit :=
  upd_browser (set_tracks (alter (fun tr =>
    MkTrack (track_kind tr) b (ready tr) (onended tr)) t)).

(** [track.onended = closure] *)
Definition track_set_onended (t : TrackRef) (cl : onendedClosure) : M unit :=
  upd_browser (set_tracks (alter (fun tr =>
    MkTrack (track_kind tr) (enabled tr) (ready tr) (Some cl)) t)).

Definition track_enabled (b : Browser) (t : TrackRef) : bool :=
  match tracks b !! t with
  | Some tr => enabled tr
  | None => false
  end.

(** [stream.getTracks()] *)
Definition getTracks (b : Browser) (s : StreamRef) : list TrackRef :=
  match mstreams b !! s with
  | Some ms => stream_tracks ms
  | None => []
  end.

Definition has_kind (b : Browser) (k : trackKind) (t : TrackRef) : bool :=
  match tracks b !! t with
  | Some tr => bool_decide (track_kind tr = k)
  | None => false
  end.

(** [stream.getAudioTracks()], [stream.getVideoTracks()] *)
Definition getAudioTracks (b : Browser) (s : StreamRef) : list TrackRef :=
  List.filter (has_kind b audio) (getTracks b s).
Definition getVideoTracks (b : Browser) (s : StreamRef) : list TrackRef :=
  List.filter (has_kind b video) (getTracks b s).

(** [new MediaStream(ts)]: a fresh stream object. *)
Definition new_MediaStream (ts : list TrackRef) : M StreamRef :=
  let* b := get_browser in
  let s := next_ref b in
  upd_browser (fun b =>
    set_next_ref (S s) (set_mstreams (insert s (MkStream ts)) b)) >>
  ret s.

(** [stream.removeTrack(t)], [stream.addTrack(t)] *)
Definition stream_removeTrack (s : StreamRef) (t : TrackRef) : M unit :=
  upd_browser (set_mstreams (alter (fun ms =>
    MkStream (List.filter (fun t' => negb (Nat.eqb t' t)) (stream_tracks ms))) s)).
Definition stream_addTrack (s : StreamRef) (t : TrackRef) : M unit :=
  upd_browser (set_mstreams (alter (fun ms =>
    MkStream (if existsb (Nat.eqb t) (stream_tracks ms)
              then stream_tracks ms else stream_tracks ms ++ [t])) s)).


(** ** The platform *)

(** [navigator.mediaDevices.enumerateDevices()] *)
Definition enumerateDevices : M (list MediaDeviceInfo) :=
  tell EnumerateDevices >>
  let* b := get_browser in
  match env_devices b with
  | Some ds :: rest => upd_browser (set_env_devices rest) >> ret ds
  | None :: rest => upd_browser (set_env_devices rest) >> throw EnumerateError
  | [] => throw EnumerateError
  end.

(** [navigator.mediaDevices.getUserMedia({video: false, audio: ...})]: when
    granted, a new stream holding one new live, enabled audio track. *)
Definition getUserMedia (exact : option string) : M StreamRef :=
  tell (GetUserMedia exact) >>
  let* b := get_browser in
  match env_media b with
  | true :: rest =>
      let t := next_ref b in
      upd_browser (fun b =>
        set_env_media rest (set_next_ref (S t)
          (set_tracks (insert t (MkTrack audio true live None)) b))) >>
      new_MediaStream [t]
  | false :: rest => upd_browser (set_env_media rest) >> throw MediaError
  | [] => throw MediaError
  end.

Definition error_message (e : jsError) : string :=
  match e with
  | AudioInputPermissionsError => "missing audio input permissions"
  | AudioInputMissingError => "no audio input available"
  | rtcPeerErr => "rtc peer error"
  | rtcPeerTimeoutErr => "timed out waiting for rtc connection"
  | rtcPeerCloseErr => "rtc peer close"
  | TypeError => "TypeError"
  | MediaError => "getUserMedia failed"
  | EnumerateError => "enumerateDevices failed"
  | WebSocketError msg => msg
  end.

(** ** Device selection *)

(** The [deviceType] argument of the private device functions, which are
    only called with ['input'] and ['output']. *)
Inductive deviceType := input | output.

Definition devices_of (ty : deviceType) (c : CallsClient) : list MediaDeviceInfo :=
  match ty with
  | input => inputs (audioDevices c)
  | output => outputs (audioDevices c)
  end.

Definition current_of (ty : deviceType) (c : CallsClient) : option MediaDeviceInfo :=
  match ty with
  | input => currentAudioInputDevice c
  | output => currentAudioOutputDevice c
  end.

Definition type_name (ty : deviceType) : string :=
  match ty with
  | input => "input"
  | output => "output"
  end.

(** A template string with [${deviceType}] between two pieces of text. *)
Definition with_type (before : string) (ty : deviceType) (after : string) : string :=
  String.append before (String.append (type_name ty) after).

Definition storage_key (ty : deviceType) : storageKey :=
  match ty with
  | input => STORAGE_CALLS_DEFAULT_AUDIO_INPUT_KEY
  | output => STORAGE_CALLS_DEFAULT_AUDIO_OUTPUT_KEY
  end.

(** The preference read back by [getSelectedAudioDevice]: the parsed
    object, the bare id of older versions, or the initial [{deviceId: ''}]
    when the key is unset or empty. *)
Definition read_pref (data : option stored) : devicePref :=
  match data with
  | Some (Json p) => p
  | Some (Raw s) => MkPref s None
  | None => MkPref "" None
  end.

(** [dev.deviceId === selectedDevice.deviceId || dev.label === selectedDevice.label] *)
Definition matches_pref (sel : devicePref) (dev : MediaDeviceInfo) : bool :=
  bool_decide (deviceId dev = pref_deviceId sel)
  || bool_decide (Some (label dev) = pref_label sel).

Definition matches_id (sel : devicePref) (dev : MediaDeviceInfo) : bool :=
  bool_decide (deviceId dev = pref_deviceId sel).

Definition getSelectedAudioDevice (ty : deviceType) : M (option MediaDeviceInfo) :=
  let* c := get_this in
  let* b := get_browser in
  let selectedDevice := read_pref (localStorage b !! storage_key ty) in
  if bool_decide (pref_deviceId selectedDevice = "") then ret None
  else
    let devices := List.filter (matches_pref selectedDevice) (devices_of ty c) in
    match devices with
    | _ :: _ :: _ =>
        logInfo (with_type "getSelectedAudioDevice: multiple audio " ty
                   " devices found with the same label, checking by id") >>
        ret (List.find (matches_id selectedDevice) devices)
    | [d] =>
        logDebug (with_type "getSelectedAudioDevice: found selected audio " ty
                    " device to use") >>
        ret (Some d)
    | [] =>
        logDebug (with_type "getSelectedAudioDevice: audio " ty " device not found") >>
        ret None
    end.

Definition setAudioOutputDevice (device : MediaDeviceInfo) (store : bool) : M unit :=
  let* c := get_this in
  if negb (is_some (peer c)) then ret tt
  else
    when store (upd_browser (set_localStorage
      (insert STORAGE_CALLS_DEFAULT_AUDIO_OUTPUT_KEY (stringify_device device)))) >>
    upd_this (set_currentAudioOutputDevice (Some device)) >>
    let* c := get_this in
    emit "devicechange" (Devices (audioDevices c)).

(** [initAudio], [setAudioInputDevice], [handleAudioDeviceFallback] and
    [updateDevices] call one another in a cycle. Each is first written over
    the function it calls; the cycle is closed below by recursion on a
    budget. *)

Definition initAudio_with (updateDevices : M unit) (deviceId_arg : option string)
    : M unit :=
  (* audioOptions.deviceId *)
  let exact0 :=
    match deviceId_arg with
    | Some d => if bool_decide (d = "") then None else Some d
    | None => None
    end in
  let* selectedAudioInputDevice := getSelectedAudioDevice input in
  let exact :=
    match selectedAudioInputDevice with
    | Some d => Some (deviceId d)
    | None => exact0
    end in
  when (is_some selectedAudioInputDevice)
    (upd_this (set_currentAudioInputDevice selectedAudioInputDevice)) >>
  let* selectedAudioOutputDevice := getSelectedAudioDevice output in
  when (is_some selectedAudioOutputDevice)
    (upd_this (set_currentAudioOutputDevice selectedAudioOutputDevice)) >>
  try_catch
    (let* s := getUserMedia exact in
     upd_this (set_stream (Some s)) >>
     updateDevices >>
     let* c := get_this in
     let* b := get_browser in
     match stream c with
     | None => throw TypeError
     | Some s' =>
         match head (getAudioTracks b s') with
         | None =>
             (* audioTrack is undefined; setting [enabled] on it throws *)
             upd_this (set_audioTrack None) >>
             upd_this (fun c => set_streams (streams c ++ [s']) c) >>
             throw TypeError
         | Some t =>
             upd_this (set_audioTrack (Some t)) >>
             upd_this (fun c => set_streams (streams c ++ [s']) c) >>
             track_set_enabled t false >>
             emit "initaudio" NoPayload
         end
     end)
    (fun err =>
       logErr (error_message err) >>
       let* c := get_this in
       match inputs (audioDevices c) with
       | _ :: _ => throw AudioInputPermissionsError
       | [] => throw AudioInputMissingError
       end).

Definition setAudioInputDevice_with (initAudio : option string → M unit)
    (device : MediaDeviceInfo) (store : bool) : M unit :=
  let* c := get_this in
  if negb (is_some (peer c)) then ret tt
  else
    when store (upd_browser (set_localStorage
      (insert STORAGE_CALLS_DEFAULT_AUDIO_INPUT_KEY (stringify_device device)))) >>
    upd_this (set_currentAudioInputDevice (Some device)) >>
    let* c := get_this in
    emit "devicechange" (Devices (audioDevices c)) >>
    match audioTrack c, stream c with
    | Some old, Some st =>
        let* b := get_browser in
        let isEnabled := track_enabled b old in
        track_stop old >>
        let* newStream := getUserMedia (Some (deviceId device)) in
        upd_this (fun c => set_streams (streams c ++ [newStream]) c) >>
        let* b := get_browser in
        let newTrack := head (getAudioTracks b newStream) in
        stream_removeTrack st old >>
        match newTrack with
        | None => throw TypeError
        | Some newTrack =>
            stream_addTrack st newTrack >>
            track_set_enabled newTrack isEnabled >>
            (if isEnabled then
               let* c := get_this in
               if voiceTrackAdded c then
                 logDebug "replacing track to peer" >>
                 tell (PeerReplaceTrack old (Some newTrack))
               else
                 logDebug "adding track to peer" >>
                 tell (PeerAddTrack newTrack st)
             else upd_this (set_voiceTrackAdded false)) >>
            upd_this (set_audioTrack (Some newTrack))
        end
    | _, _ => initAudio (Some (deviceId device))
    end.

Definition same_id_as (currentDevice : option MediaDeviceInfo)
    (device : MediaDeviceInfo) : bool :=
  match currentDevice with
  | Some cd => bool_decide (deviceId cd = deviceId device)
  | None => false
  end.

Definition set_device_with (setAudioInputDevice : MediaDeviceInfo → bool → M unit)
    (ty : deviceType) (d : MediaDeviceInfo) : M unit :=
  match ty with
  | input => setAudioInputDevice d false
  | output => setAudioOutputDevice d false
  end.

(** Both branches of [handleAudioDeviceFallback] end alike: a debug
    line, the setter of the kind called with [store = false], and a
    ['devicefallback'] event carrying the device. *)
Definition switch_device_with
    (setAudioInputDevice : MediaDeviceInfo → bool → M unit)
    (ty : deviceType) (msg : string) (d : MediaDeviceInfo) : M unit :=
  logDebug msg >>
  set_device_with setAudioInputDevice ty d >>
  emit "devicefallback" (Device d).

(** Its second part: the stored device, if it is back. *)
Definition switch_back_with
    (setAudioInputDevice : MediaDeviceInfo → bool → M unit)
    (ty : deviceType) (currentDevice : option MediaDeviceInfo) : M unit :=
  let* selectedDevice := getSelectedAudioDevice ty in
  match selectedDevice with
  | Some sd =>
      if negb (bool_decide (Some (label sd) = label <$> currentDevice)) then
        switch_device_with setAudioInputDevice ty
          (with_type "selected audio " ty " device is back, switching") sd
      else ret tt
  | None => ret tt
  end.

Definition handleAudioDeviceFallback_with
    (setAudioInputDevice : MediaDeviceInfo → bool → M unit)
    (ty : deviceType) : M unit :=
  let* c := get_this in
  let currentDevice := current_of ty c in
  let devices := devices_of ty c in
  let missingCurrentDevice := negb (existsb (same_id_as currentDevice) devices) in
  match missingCurrentDevice, devices with
  | true, d0 :: _ =>
      switch_device_with setAudioInputDevice ty
        (with_type "selected audio " ty
           " device not available, falling back to system default") d0
  | _, _ => switch_back_with setAudioInputDevice ty currentDevice
  end.

Definition updateDevices_with (handleAudioDeviceFallback : deviceType → M unit)
    : M unit :=
  logDebug "a/v device change detected" >>
  try_catch
    (let* devices := enumerateDevices in
     let inputs := List.filter (fun d => bool_decide (kind d = audioinput)) devices in
     let outputs := List.filter (fun d => bool_decide (kind d = audiooutput)) devices in
     upd_this (set_audioDevices (MkAudioDevices inputs outputs)) >>
     let* c := get_this in
     when (is_some (currentAudioInputDevice c)) (handleAudioDeviceFallback input) >>
     let* c := get_this in
     when (is_some (currentAudioOutputDevice c)) (handleAudioDeviceFallback output) >>
     let* c := get_this in
     emit "devicechange" (Devices (audioDevices c)))
    (fun err => logErr (error_message err)).

Fixpoint updateDevices (fuel : nat) : M unit :=
  match fuel with
  | 0 => out_of_fuel
  | S n =>
      updateDevices_with
        (handleAudioDeviceFallback_with
           (setAudioInputDevice_with (initAudio_with (updateDevices n))))
  end.

Definition initAudio (fuel : nat) : option string → M unit :=
  initAudio_with (updateDevices fuel).
Definition setAudioInputDevice (fuel : nat) : MediaDeviceInfo → bool → M unit :=
  setAudioInputDevice_with (initAudio fuel).
Definition handleAudioDeviceFallback (fuel : nat) : deviceType → M unit :=
  handleAudioDeviceFallback_with (setAudioInputDevice fuel).

(** ** Teardown *)

Fixpoint forEach {A} (l : list A) (f : A → M unit) : M unit :=
  match l with
  | [] => ret tt
  | x :: l => f x >> forEach l f
  end.

(** The closure installed on [screenTrack.onended] by [setScreenStream]. *)
Definition run_onended (cl : onendedClosure) : M unit :=
  match cl_screenAudioTrack cl with
  | Some a => track_stop a
  | None => ret tt
  end >>
  upd_this (set_localScreenTrack None) >>
  let* c := get_this in
  if negb (is_some (ws c)) || negb (is_some (peer c)) then ret tt
  else
    tell (PeerRemoveTrack (cl_screenTrack cl)) >>
    tell (WsSend "screen_off" None).

(** An ['ended'] event reaches track [t]: by
    [track.dispatchEvent(new Event('ended'))], or fired by the browser when
    the captured source ends. Its [onended] handler, if any, runs. *)
Definition dispatch_ended (t : TrackRef) : M unit :=
  tell (DispatchEnded t) >>
  let* b := get_browser in
  match tracks b !! t with
  | Some tr =>
      match onended tr with
      | Some cl => run_onended cl
      | None => ret tt
      end
  | None => ret tt
  end.

Definition cleanup : M unit :=
  let* c := get_this in
  forEach (streams c) (fun s =>
    let* b := get_browser in
    forEach (getTracks b s) (fun track =>
      track_stop track >>
      dispatch_ended track)).

(** [disconnect(err?)]. [this.getStats()] runs up to its call of
    [peer.getStats()]; the continuation that saves the statistics runs
    after [disconnect] has returned. *)
Definition disconnect (err : option jsError) : M unit :=
  logDebug "disconnect" >>
  let* c := get_this in
  if closed c then logErr "client already disconnected"
  else
    when (is_some (rtcMonitor c)) (tell MonitorStop) >>
    upd_this (set_closed true) >>
    when (is_some (peer c))
      (tell PeerGetStats >>
       tell PeerDestroy >>
       upd_this (set_peer None)) >>
    cleanup >>
    let* c := get_this in
    when (is_some (ws c))
      (tell (WsSend "leave" None) >>
       tell WsClose >>
       upd_this (set_ws None)) >>
    emit "close" (Error err).

(** ** Mute and unmute *)

Definition mute : M unit :=
  let* c := get_this in
  match peer c, audioTrack c, stream c with
  | Some _, Some t, Some _ =>
      logDebug "replacing track to peer" >>
      tell (PeerReplaceTrack t None) >>
      track_set_enabled t false >>
      emit "mute" NoPayload >>
      when (is_some (ws c)) (tell (WsSend "mute" None))
  | _, _, _ => ret tt
  end.

Definition unmute (fuel : nat) : M unit :=
  let* c := get_this in
  if negb (is_some (peer c)) then ret tt
  else
    let* proceed :=
      match audioTrack c with
      | None =>
          try_catch (initAudio fuel None >> ret true)
            (fun err => emit "error" (Error (Some err)) >> ret false)
      | Some _ => ret true
      end in
    if negb proceed then ret tt
    else
      when (is_some (rtcMonitor c)) (tell MonitorClearCache) >>
      let* c := get_this in
      match audioTrack c with
      | Some t =>
          (if voiceTrackAdded c then
             logDebug "replacing track to peer" >>
             tell (PeerReplaceTrack t (Some t))
           else
             match stream c with
             | Some st =>
                 logDebug "adding track to peer" >>
                 tell (PeerAddTrack t st) >>
                 upd_this (set_voiceTrackAdded true)
             | None => ret tt
             end) >>
          track_set_enabled t true
      | None => ret tt
      end >>
      emit "unmute" NoPayload >>
      let* c := get_this in
      when (is_some (ws c)) (tell (WsSend "unmute" None)).

(** A run of calls of [mute] and [unmute], in order. *)
Inductive voiceOp := Mute | Unmute.

Definition voice_step (fuel : nat) (o : voiceOp) : M unit :=
  match o with
  | Mute => mute
  | Unmute => unmute fuel
  end.

Definition is_Unmute (o : voiceOp) : bool :=
  match o with
  | Unmute => true
  | Mute => false
  end.

(** ** Screen sharing *)

(** [setScreenStream(screenStream)]; [None] is a null argument. A stream
    without a video track makes [new MediaStream([undefined])] throw. *)
Definition setScreenStream (screenStream : option StreamRef) : M unit :=
  let* c := get_this in
  match ws c, peer c, localScreenTrack c, screenStream with
  | Some _, Some _, None, Some ss =>
      let* b := get_browser in
      let screenTrack := head (getVideoTracks b ss) in
      upd_this (set_localScreenTrack screenTrack) >>
      let screenAudioTrack := head (getAudioTracks b ss) in
      match screenTrack with
      | None => throw TypeError
      | Some vt =>
          let* ns :=
            new_MediaStream
              match screenAudioTrack with
              | Some a => [vt; a]
              | None => [vt]
              end in
          upd_this (fun c => set_streams (streams c ++ [ns]) c) >>
          track_set_onended vt (MkOnended vt screenAudioTrack) >>
          logDebug "adding stream to peer" >>
          tell (PeerAddStream ns false) >>
          let* c := get_this in
          when (enableAV1 (config c) && is_some (av1Codec c))
            (logDebug "AV1 supported, sending track" >>
             tell (PeerAddStream ns true)) >>
          tell (WsSend "screen_on" (Some ns)) >>
          emit "localScreenStream" (Stream ns)
      end
  | _, _, _, _ => ret tt
  end.

Definition unshareScreen : M unit :=
  let* c := get_this in
  match ws c, localScreenTrack c with
  | Some _, Some t =>
      track_stop t >>
      dispatch_ended t >>
      upd_this (set_localScreenTrack None)
  | _, _ => ret tt
  end.

(** ** Reading an outcome *)

Definition result_of {A} (o : result A * World * list effect) : result A :=
  fst (fst o).
Definition world_of {A} (o : result A * World * list effect) : World :=
  snd (fst o).
Definition effects_of {A} (o : result A * World * list effect) : list effect :=
  snd o.

(** How many effects of a trace satisfy a test. *)
Definition count (f : effect → bool) (t : list effect) : nat :=
  length (List.filter f t).

Definition is_emit (name : string) (e : effect) : bool :=
  match e with
  | Emit n _ => bool_decide (n = name)
  | _ => false
  end.

Definition is_log_at (lvl : logLevel) (e : effect) : bool :=
  match e with
  | Log l _ => bool_decide (l = lvl)
  | _ => false
  end.

Definition is_log (e : effect) : bool :=
  match e with
  | Log _ _ => true
  | _ => false
  end.

Definition is_addTrack (e : effect) : bool :=
  match e with
  | PeerAddTrack _ _ => true
  | _ => false
  end.

Definition is_replaceTrack (e : effect) : bool :=
  match e with
  | PeerReplaceTrack _ _ => true
  | _ => false
  end.

Definition is_ws_send (type : string) (e : effect) : bool :=
  match e with
  | WsSend ty _ => bool_decide (ty = type)
  | _ => false
  end.

Definition is_removeTrack (e : effect) : bool :=
  match e with
  | PeerRemoveTrack _ => true
  | _ => false
  end.

Definition is_effect (e0 e : effect) : bool := bool_decide (e = e0).

(** Effects on tracks alone: what [cleanup] does by itself. *)
Definition track_level (e : effect) : bool :=
  match e with
  | TrackStop _ | DispatchEnded _ => true
  | _ => false
  end.

(** What running [cleanup] on a client without a peer may change: the
    client differs at most in [localScreenTrack], it still has no peer, and
    the streams hold the tracks they held. *)
Definition quiet_step (w w' : World) : Prop :=
  this w' = set_localScreenTrack (localScreenTrack (this w')) (this w)
  ∧ mstreams (browser w') = mstreams (browser w).

(** ** The device policy in the words of the specification

    Section 4.4: the primary key is the device identifier, which also
    settles the choice between devices that share a label; a match on the
    label alone counts only when no device has the persisted identifier. *)
Definition preferred_by_policy (sel : devicePref)
    (devices : list MediaDeviceInfo) : option MediaDeviceInfo :=
  match List.find (matches_id sel) devices with
  | Some d => Some d
  | None =>
      match List.filter
              (fun dev => bool_decide (Some (label dev) = pref_label sel))
              devices with
      | [d] => Some d
      | _ => None
      end
  end.

(** The persisted preferred device of a kind, if it is enumerated. *)
Definition selected_device (ty : deviceType) (w : World) : option MediaDeviceInfo :=
  let sel := read_pref (localStorage (browser w) !! storage_key ty) in
  if bool_decide (pref_deviceId sel = "") then None
  else preferred_by_policy sel (devices_of ty (this w)).

(** The device [handleAudioDeviceFallback] moves the selection to, if any,
    as the code computes it: the first enumerated device when the current
    one is gone; otherwise the preferred device when it is enumerated and
    its label is not the current one's. *)
Definition fallback_target (ty : deviceType) (w : World) : option MediaDeviceInfo :=
  let currentDevice := current_of ty (this w) in
  let devices := devices_of ty (this w) in
  match existsb (same_id_as currentDevice) devices, devices with
  | false, d0 :: _ => Some d0
  | _, _ =>
      match selected_device ty w with
      | Some sd =>
          if bool_decide (Some (label sd) = label <$> currentDevice)
          then None else Some sd
      | None => None
      end
  end.

(** Changing the input device re-acquires the microphone: on the path
    followed here an audio track and its stream exist and the platform
    grants the next [getUserMedia]. Changing the output device needs
    nothing. *)
Definition reacquires (ty : deviceType) (w : World) : Prop :=
  match ty with
  | output => True
  | input =>
      is_Some (audioTrack (this w)) ∧ is_Some (stream (this w))
      ∧ head (env_media (browser w)) = Some true
  end.

(** ** Sample worlds *)

Definition mic1 : MediaDeviceInfo :=
  MkDevice "mic-1" audioinput "Built-in Microphone" "g1".
Definition mic2 : MediaDeviceInfo :=
  MkDevice "mic-2" audioinput "USB Headset" "g2".
Definition spk1 : MediaDeviceInfo :=
  MkDevice "spk-1" audiooutput "Built-in Speakers" "g1".
Definition spk2 : MediaDeviceInfo :=
  MkDevice "spk-2" audiooutput "USB Headset" "g2".
(** A second headset of the same model: another id, the same label. *)
Definition spk3 : MediaDeviceInfo :=
  MkDevice "spk-3" audiooutput "USB Headset" "g3".

(** A connected, unmuted client: track 0 is the microphone track of stream
    1, already added to the peer. Stream 3, holding the video track 2, is
    a display capture that is not shared yet. *)
Definition connected_client : CallsClient :=
  {| channelID := "general";
     config := MkConfig false false false;
     peer := Some tt;
     ws := Some tt;
     localScreenTrack := None;
     remoteScreenTrack := None;
     remoteVoiceTracks := [];
     currentAudioInputDevice := Some mic1;
     currentAudioOutputDevice := Some spk1;
     voiceTrackAdded := true;
     streams := [1];
     stream := Some 1;
     audioDevices := MkAudioDevices [mic1] [spk1];
     audioTrack := Some 0;
     closed := false;
     connected := true;
     rtcMonitor := Some tt;
     av1Codec := None |}.

Definition connected_browser : Browser :=
  {| tracks := {[0 := MkTrack audio true live None;
                 2 := MkTrack video true live None]};
     mstreams := {[1 := MkStream [0]; 3 := MkStream [2]]};
     next_ref := 4;
     localStorage := ∅;
     env_devices := [];
     env_media := [] |}.

Definition connected_world : World := MkWorld connected_client connected_browser.

(** The same client once it shares the display capture. *)
Definition sharing_world : World :=
  world_of (setScreenStream (Some 3) connected_world).

(** The same client after [disconnect()]. *)
Definition closed_world : World :=
  world_of (disconnect None connected_world).

(** A client that has chosen devices but has no peer yet (the join has not
    been acknowledged); the platform will enumerate other devices. *)
Definition joining_world : World :=
  MkWorld (set_peer None connected_client)
    (set_env_devices [Some [mic2; spk2]] connected_browser).

(** A connected client whose current and persisted output device is the
    headset [spk2], at the moment the enumeration no longer has it. *)
Definition unplugged_world : World :=
  MkWorld
    (set_currentAudioOutputDevice (Some spk2) connected_client)
    (set_localStorage
       (insert STORAGE_CALLS_DEFAULT_AUDIO_OUTPUT_KEY (stringify_device spk2))
       connected_browser).

(** The same client before that: the headset is enumerated, and the
    platform will enumerate first without it, then with it again. *)
Definition headset_world : World :=
  MkWorld
    (set_audioDevices (MkAudioDevices [mic1] [spk1; spk2]) (this unplugged_world))
    (set_env_devices [Some [mic1; spk1]; Some [mic1; spk1; spk2]]
       (browser unplugged_world)).

(** A connected client using the headset [spk3] while the persisted
    preference is the other headset of the same label, [spk2]; the
    platform will enumerate both. *)
Definition twin_headset_world : World :=
  MkWorld
    (set_currentAudioOutputDevice (Some spk3)
       (set_audioDevices (MkAudioDevices [mic1] [spk3]) connected_client))
    (set_env_devices [Some [mic1; spk3; spk2]]
       (set_localStorage
          (insert STORAGE_CALLS_DEFAULT_AUDIO_OUTPUT_KEY (stringify_device spk2))
          connected_browser)).

(** A connected, unmuted client whose microphone [mic1] is gone while
    [mic2] is enumerated, on a platform that grants the next capture. *)
Definition mic_unplugged_world : World :=
  MkWorld
    (set_audioDevices (MkAudioDevices [mic2] [spk1]) connected_client)
    (set_env_media [true] connected_browser).

(** ** The rest of the class *)

Definition set_remoteScreenTrack v (c : CallsClient) : CallsClient :=
  MkClient (channelID c) (config c) (peer c) (ws c) (localScreenTrack c)
    v (remoteVoiceTracks c) (currentAudioInputDevice c)
    (currentAudioOutputDevice c) (voiceTrackAdded c) (streams c) (stream c)
    (audioDevices c) (audioTrack c) (closed c) (connected c) (rtcMonitor c)
    (av1Codec c).
Definition set_remoteVoiceTracks v (c : CallsClient) : CallsClient :=
  MkClient (channelID c) (config c) (peer c) (ws c) (localScreenTrack c)
    (remoteScreenTrack c) v (currentAudioInputDevice c)
    (currentAudioOutputDevice c) (voiceTrackAdded c) (streams c) (stream c)
    (audioDevices c) (audioTrack c) (closed c) (connected c) (rtcMonitor c)
    (av1Codec c).

(** The fields as the constructor and the field initialisers leave them.
    The constructor also logs a debug line and registers [onBeforeUnload]
    on the window. *)
Definition new_CallsClient (cfg : CallsClientConfig) : CallsClient :=
  {| channelID := "";
     config := cfg;
     peer := None;
     ws := None;
     localScreenTrack := None;
     remoteScreenTrack := None;
     remoteVoiceTracks := [];
     currentAudioInputDevice := None;
     currentAudioOutputDevice := None;
     voiceTrackAdded := false;
     streams := [];
     stream := None;
     audioDevices := MkAudioDevices [] [];
     audioTrack := None;
     closed := false;
     connected := false;
     rtcMonitor := None;
     av1Codec := None |}.

(** [this.onBeforeUnload] and [this.onDeviceChange] *)
Definition onBeforeUnload : M unit :=
  logDebug "unload" >>
  disconnect None.

Definition onDeviceChange (fuel : nat) : M unit := updateDevices fuel.

(** [track.readyState === 'live'] *)
Definition is_live (b : Browser) (t : TrackRef) : bool :=
  match tracks b !! t with
  | Some tr => match ready tr with live => true | ended => false end
  | None => false
  end.

Definition getLocalScreenStream : M (option StreamRef) :=
  let* c := get_this in
  match localScreenTrack c with
  | None => ret None
  | Some t => let* s := new_MediaStream [t] in ret (Some s)
  end.

Definition getRemoteScreenStream : M (option StreamRef) :=
  let* c := get_this in
  let* b := get_browser in
  match remoteScreenTrack c with
  | None => ret None
  | Some t =>
      if negb (is_live b t) then ret None
      else let* s := new_MediaStream [t] in ret (Some s)
  end.

Definition getRemoteVoiceTracks : M (list TrackRef) :=
  let* c := get_this in
  let* b := get_browser in
  ret (List.filter (is_live b) (remoteVoiceTracks c)).

(** [shareScreen(sourceID, withAudio)]. [captured] is what
    [getScreenStream(sourceID, withAudio)] resolves to when it is called:
    a stream, or null. *)
Definition shareScreen (captured : option StreamRef) : M (option StreamRef) :=
  let* c := get_this in
  match ws c, peer c with
  | Some _, Some _ =>
      match captured with
      | None => ret None
      | Some screenStream =>
          setScreenStream (Some screenStream) >>
          ret (Some screenStream)
      end
  | _, _ => ret None
  end.

Definition raiseHand : M unit :=
  emit "raise_hand" NoPayload >>
  let* c := get_this in
  when (is_some (ws c)) (tell (WsSend "raise_hand" None)).

Definition unraiseHand : M unit :=
  emit "lower_hand" NoPayload >>
  let* c := get_this in
  when (is_some (ws c)) (tell (WsSend "unraise_hand" None)).

(** ** The handlers registered by [init] *)

(** [err.type] of a [WebSocketError]; [OtherType] stands for a value the
    [switch] of the handler sends to [default]. *)
Inductive WebSocketErrorType := Native | ReconnectTimeout | Join | OtherType.

(** [ws.on('error', ...)] *)
Definition on_ws_error (type : WebSocketErrorType) (msg : string) : M unit :=
  logErr "ws error" >>
  match type with
  | Native => ret tt
  | ReconnectTimeout =>
      upd_this (set_ws None) >>
      disconnect (Some (WebSocketError msg))
  | Join => disconnect (Some (WebSocketError msg))
  | OtherType => ret tt
  end.

(** [peer.on('error', ...)]; the peer reports a message. *)
Definition on_peer_error (err : string) : M unit :=
  logErr "peer error" >>
  let* c := get_this in
  if negb (closed c) then
    disconnect
      (Some (if bool_decide (err = error_message rtcPeerTimeoutErr)
             then rtcPeerTimeoutErr else rtcPeerErr))
  else ret tt.

(** [peer.on('close', ...)] *)
Definition on_peer_close : M unit :=
  logDebug "rtc closed" >>
  let* c := get_this in
  if negb (closed c) then disconnect (Some rtcPeerCloseErr) else ret tt.

(** [peer.on('stream', ...)] *)
Definition on_peer_stream (remoteStream : StreamRef) : M unit :=
  logDebug "new remote stream received" >>
  let* b := get_browser in
  forEach (getTracks b remoteStream) (fun _ => logDebug "remote track") >>
  upd_this (fun c => set_streams (streams c ++ [remoteStream]) c) >>
  let* b := get_browser in
  match getAudioTracks b remoteStream, getVideoTracks b remoteStream with
  | _ :: _, _ =>
      emit "remoteVoiceStream" (Stream remoteStream) >>
      upd_this (fun c =>
        set_remoteVoiceTracks
          (remoteVoiceTracks c ++ getAudioTracks b remoteStream) c)
  | [], v :: _ =>
      emit "remoteScreenStream" (Stream remoteStream) >>
      upd_this (set_remoteScreenTrack (Some v))
  | [], [] => ret tt
  end.

(** A fatal event reaching the client from outside. *)
Inductive fatalEvent :=
  | PeerError (err : string)
  | PeerClose
  | WsError (type : WebSocketErrorType) (msg : string)
  | Unload
  | Disconnect (err : option jsError).

Definition fatal_step (e : fatalEvent) : M unit :=
  match e with
  | PeerError err => on_peer_error err
  | PeerClose => on_peer_close
  | WsError ty msg => on_ws_error ty msg
  | Unload => onBeforeUnload
  | Disconnect err => disconnect err
  end.

(** The error a fatal event ends the call with, when the client is not
    closed yet; [None] for an event that is not fatal. *)
Definition cause_of (e : fatalEvent) : option (option jsError) :=
  match e with
  | PeerError err =>
      Some (Some (if bool_decide (err = error_message rtcPeerTimeoutErr)
                  then rtcPeerTimeoutErr else rtcPeerErr))
  | PeerClose => Some (Some rtcPeerCloseErr)
  | WsError ReconnectTimeout msg => Some (Some (WebSocketError msg))
  | WsError Join msg => Some (Some (WebSocketError msg))
  | WsError _ _ => None
  | Unload => Some None
  | Disconnect err => Some err
  end.

Fixpoint first_cause (es : list fatalEvent) : option (option jsError) :=
  match es with
  | [] => None
  | e :: es =>
      match cause_of e with
      | Some c => Some c
      | None => first_cause es
      end
  end.

(** Kinds of effects. *)
Definition is_any_emit (e : effect) : bool :=
  match e with
  | Emit _ _ => true
  | _ => false
  end.

Definition is_peer_call (e : effect) : bool :=
  match e with
  | PeerReplaceTrack _ _ | PeerAddTrack _ _ | PeerRemoveTrack _
  | PeerAddStream _ _ | PeerGetStats | PeerDestroy => true
  | _ => false
  end.

Definition is_socket_call (e : effect) : bool :=
  match e with
  | WsSend _ _ | WsClose => true
  | _ => false
  end.

(** The allocator's next address is free in both heaps, so that a new
    object does not take the place of an old one. *)
Definition heap_fresh (b : Browser) : Prop :=
  ∀ n : nat, (next_ref b ≤ n)%nat →
    tracks b !! n = None ∧ mstreams b !! n = None.

(** What stopping tracks may change: the client keeps its streams and its
    remote tracks, the streams keep their tracks, no track appears, and a
    track that had ended has ended still. *)
Definition ends_only (w w' : World) : Prop :=
  streams (this w') = streams (this w)
  ∧ remoteVoiceTracks (this w') = remoteVoiceTracks (this w)
  ∧ remoteScreenTrack (this w') = remoteScreenTrack (this w)
  ∧ mstreams (browser w') = mstreams (browser w)
  ∧ ∀ t tr', tracks (browser w') !! t = Some tr' →
      ∃ tr, tracks (browser w) !! t = Some tr
          ∧ (ready tr = ended → ready tr' = ended).

(** Every track of every stream the client holds has ended. *)
Definition all_tracks_ended (w : World) : Prop :=
  ∀ s t tr, In s (streams (this w)) → In t (getTracks (browser w) s) →
            tracks (browser w) !! t = Some tr → ready tr = ended.

(** The remote tracks the client holds belong to streams it holds. *)
Definition remote_tracks_registered (w : World) : Prop :=
  ∀ t, In t (remoteVoiceTracks (this w))
       ∨ remoteScreenTrack (this w) = Some t →
       ∃ s, In s (streams (this w)) ∧ In t (getTracks (browser w) s).

(** More sample worlds: the connected client with a remote voice stream 6
    (track 5) and a remote screen stream 8 (track 7) in the heap, before
    the peer announces them; a client with a peer and no microphone, on a
    platform that refuses the capture, and on one that grants it. *)
Definition remote_browser : Browser :=
  set_next_ref 9
    (set_mstreams (fun m => <[6 := MkStream [5]]> (<[8 := MkStream [7]]> m))
       (set_tracks (fun m => <[5 := MkTrack audio true live None]>
                               (<[7 := MkTrack video true live None]> m))
          connected_browser)).

Definition remote_world : World := MkWorld connected_client remote_browser.

Definition no_mic_client : CallsClient :=
  set_currentAudioInputDevice None
    (set_voiceTrackAdded false
       (set_streams []
          (set_stream None (set_audioTrack None connected_client)))).

Definition no_mic_refused_world : World :=
  MkWorld no_mic_client (set_env_media [false] connected_browser).

Definition no_mic_granted_world : World :=
  MkWorld (set_currentAudioOutputDevice None no_mic_client)
    (set_env_devices [Some [mic1; spk1]]
       (set_env_media [true] connected_browser)).

(** The connected client, muted. *)
Definition muted_world : World := world_of (mute connected_world).

(** ** Auxiliary readings of the device code *)

Definition not_log (e : effect) : bool := negb (is_log e).

(** The device [initAudio] asks the platform for: the enumerated stored
    preference if there is one, otherwise its argument when that is a
    non-empty string. *)
Definition requested_device (deviceId_arg : option string) (w : World)
    : option string :=
  match selected_device input w with
  | Some d => Some (deviceId d)
  | None =>
      match deviceId_arg with
      | Some d => if bool_decide (d = "") then None else Some d
      | None => None
      end
  end.

(** The error [initAudio] throws from its [catch]. *)
Definition audio_error (w : World) : jsError :=
  match inputs (audioDevices (this w)) with
  | [] => AudioInputMissingError
  | _ :: _ => AudioInputPermissionsError
  end.

(** The second part of [initAudio]: the capture, under its [try]. *)
Definition acquire_with (updateDevices : M unit) (exact : option string) : M unit :=
  try_catch
    (let* s := getUserMedia exact in
     upd_this (set_stream (Some s)) >>
     updateDevices >>
     let* c := get_this in
     let* b := get_browser in
     match stream c with
     | None => throw TypeError
     | Some s' =>
         match head (getAudioTracks b s') with
         | None =>
             upd_this (set_audioTrack None) >>
             upd_this (fun c => set_streams (streams c ++ [s']) c) >>
             throw TypeError
         | Some t =>
             upd_this (set_audioTrack (Some t)) >>
             upd_this (fun c => set_streams (streams c ++ [s']) c) >>
             track_set_enabled t false >>
             emit "initaudio" NoPayload
         end
     end)
    (fun err =>
       logErr (error_message err) >>
       let* c := get_this in
       match inputs (audioDevices c) with
       | _ :: _ => throw AudioInputPermissionsError
       | [] => throw AudioInputMissingError
       end).

(** The world after the first part of [initAudio]: the current devices
    follow the stored preferences that are enumerated. *)
Definition prefs_world (w : World) : World :=
  MkWorld
    (match selected_device output w with
     | Some d => set_currentAudioOutputDevice (Some d)
     | None => fun c => c
     end
       (match selected_device input w with
        | Some d => set_currentAudioInputDevice (Some d)
        | None => fun c => c
        end (this w)))
    (browser w).

(** The ['devicechange'] event of a re-enumeration on a client with no
    current devices: emitted when the platform enumerates. *)
Definition devicechange_of (b : Browser) : list effect :=
  match env_devices b with
  | Some ds :: _ =>
      [Emit "devicechange"
         (Devices
            (MkAudioDevices
               (List.filter (fun d => bool_decide (kind d = audioinput)) ds)
               (List.filter (fun d => bool_decide (kind d = audiooutput)) ds)))]
  | _ => []
  end.

(** The start of [setAudioInputDevice] on a client with a peer: the
    preference is stored if asked, and the current device changes. *)
Definition chosen_world (d : MediaDeviceInfo) (store : bool) (w : World) : World :=
  MkWorld (set_currentAudioInputDevice (Some d) (this w))
    (if store then
       set_localStorage
         (insert STORAGE_CALLS_DEFAULT_AUDIO_INPUT_KEY (stringify_device d))
         (browser w)
     else browser w).

(** The heap after [t.stop()]. *)
Definition stopped (t : TrackRef) (b : Browser) : Browser :=
  set_tracks (alter (fun tr =>
    MkTrack (track_kind tr) (enabled tr) ended (onended tr)) t) b.

(** More sample worlds: the connected client after the peer has announced
    the remote voice stream 6 and the remote screen stream 8; a client
    whose stored microphone preference is the bare identifier that older
    versions wrote; the connected client at the moment its microphone
    [mic1] is replaced by [mic2], on a platform that refuses the next
    capture. *)
Definition in_call_world : World :=
  world_of (on_peer_stream 8 (world_of (on_peer_stream 6 remote_world))).

Definition legacy_world : World :=
  MkWorld
    (set_audioDevices (MkAudioDevices [mic1; mic2] [spk1]) connected_client)
    (set_localStorage
       (insert STORAGE_CALLS_DEFAULT_AUDIO_INPUT_KEY (Raw "mic-2"))
       connected_browser).

Definition mic_swap_refused_world : World :=
  MkWorld connected_client
    (set_env_devices [Some [mic2; spk1]] connected_browser).

(** ** The claim about re-enumeration, in its words *)

(** A third microphone. *)
Definition mic3 : MediaDeviceInfo :=
  MkDevice "mic-3" audioinput "Webcam Microphone" "g4".

(** The world [updateDevices] examines once the platform has enumerated
    [ds]: the lists of the client are the inputs and the outputs among
    them. *)
Definition enumerated_world (ds : list MediaDeviceInfo)
    (later : list (option (list MediaDeviceInfo))) (w : World) : World :=
  MkWorld
    (set_audioDevices
       (MkAudioDevices
          (List.filter (fun d => bool_decide (kind d = audioinput)) ds)
          (List.filter (fun d => bool_decide (kind d = audiooutput)) ds))
       (this w))
    (set_env_devices later (browser w)).

(** The move the claim asks of a re-enumeration, in its words. A kind
    without a current device is not examined. Otherwise: the first
    enumerated device when the id of the current one is not enumerated and
    some device of the kind is; failing that, the persisted preferred
    device when it is enumerated and differs from the current one. *)
Definition policy_target (ty : deviceType) (w : World) : option MediaDeviceInfo :=
  match current_of ty (this w) with
  | None => None
  | Some cd =>
      match existsb (same_id_as (Some cd)) (devices_of ty (this w)),
            devices_of ty (this w) with
      | false, d0 :: _ => Some d0
      | _, _ =>
          match selected_device ty w with
          | Some sd => if bool_decide (sd = cd) then None else Some sd
          | None => None
          end
      end
  end.

(** The case in which the code compares labels where its comment speaks
    of the device: the current device stays, the persisted preferred
    device is enumerated and is another device, and both carry the same
    label. *)
Definition same_label_twin (ty : deviceType) (w : World) : Prop :=
  ∃ cd sd,
    current_of ty (this w) = Some cd
    ∧ match existsb (same_id_as (Some cd)) (devices_of ty (this w)),
            devices_of ty (this w) with
      | false, _ :: _ => False
      | _, _ => True
      end
    ∧ selected_device ty w = Some sd
    ∧ sd ≠ cd
    ∧ label sd = label cd.

(** What a change of the device of kind [ty] keeps: the enumerated lists,
    the peer, the persisted preferences and the current device of the
    other kind. *)
Definition keeps_other (ty : deviceType) (w w' : World) : Prop :=
  audioDevices (this w') = audioDevices (this w)
  ∧ peer (this w') = peer (this w)
  ∧ localStorage (browser w') = localStorage (browser w)
  ∧ ∀ ty', ty' ≠ ty → current_of ty' (this w') = current_of ty' (this w).

(** Sample worlds of a re-enumeration. The connected client whose
    microphone [mic1] is replaced by [mic2], on a platform that grants the
    next capture. The same client, its output on the headset [spk2], when
    both [mic1] and [spk2] are gone and the platform refuses the capture.
    A client with a peer and no microphone track whose persisted preferred
    microphone is [mic3], when [mic1] is gone and [mic2] and [mic3] are
    enumerated. *)
Definition mic_swap_granted_world : World :=
  MkWorld connected_client
    (set_env_media [true]
       (set_env_devices [Some [mic2; spk1]] connected_browser)).

Definition both_unplugged_refused_world : World :=
  MkWorld
    (set_currentAudioOutputDevice (Some spk2) connected_client)
    (set_env_devices [Some [mic2; spk1]] connected_browser).

Definition no_track_preferred_world : World :=
  MkWorld
    (set_audioTrack None (set_stream None (set_streams [] connected_client)))
    (set_env_media [true]
       (set_env_devices [Some [mic2; mic3; spk1]; Some [mic2; mic3; spk1]]
          (set_localStorage
             (insert STORAGE_CALLS_DEFAULT_AUDIO_INPUT_KEY (stringify_device mic3))
             connected_browser))).

End Client.

(* ===================================================================== *)
(** * Properties of the server side                                       *)
(* ===================================================================== *)

Module ServerFacts.
Import Server.

Section WithChannelFields.

Context {Extra : Type} (extra0 : Extra) (maxRetries : nat).

Implicit Types (p : Plugin Extra) (st : channelState Extra) (c : callState).
Implicit Types (cn : list (channelState Extra)).

(** ** The two closures *)

Lemma addUserSession_cb_missing u i t st0 :
  addUserSession_cb (Extra:=Extra) u i t None st0
  = ((None, Some errChannelStateMissing), st0).
Proof. reflexivity. Qed.

Lemma addUserSession_cb_some u i t st st0 :
  ∃ c, u ∈ Users c
     ∧ addUserSession_cb u i t (Some st) st0
       = ((Some (ChannelState (Some c) (other st)), None),
          ChannelState (Some c) (other st)).
Proof.
  unfold addUserSession_cb. eexists. split; [|reflexivity].
  simpl. set_solver.
Qed.

Lemma removeUserSession_cb_some u st c st0 :
  Call st = Some c →
  ∃ st', removeUserSession_cb u (Some st) st0 = ((Some st', None), st')
       ∧ other st' = other st
       ∧ call_iff_members st'
       ∧ members st' = Users c ∖ {[u]}.
Proof.
  intros Hc. unfold removeUserSession_cb. rewrite Hc. simpl.
  destruct (decide (size (Users c ∖ {[u]}) = 0)) as [Hz|Hnz].
  - eexists. split; [reflexivity|]. split; [reflexivity|].
    apply size_empty_inv in Hz. apply leibniz_equiv in Hz.
    unfold call_iff_members, members. simpl. split; [|by rewrite Hz].
    split; [intros [? ?]; discriminate | congruence].
  - eexists. split; [reflexivity|]. split; [reflexivity|].
    unfold call_iff_members, members. simpl. split; [|done].
    split; [|eauto]. intros _ He. apply Hnz. rewrite He. apply size_empty.
Qed.

Lemma call_iff_members_with_member c (x : Extra) (u : string) :
  u ∈ Users c → call_iff_members (ChannelState (Some c) x).
Proof.
  intros Hu. unfold call_iff_members, members. simpl.
  split; [intros _; set_solver | eauto].
Qed.

(** Whatever either closure hands to the store has the invariant. *)
Lemma addUserSession_cb_sound u i t cur st0 s st' :
  addUserSession_cb u i t cur st0 = ((Some s, None), st') →
  call_iff_members s.
Proof.
  destruct cur as [st|]; [|discriminate].
  destruct (addUserSession_cb_some u i t st st0) as (c & Hu & ->).
  intros [= <- _]. by apply (call_iff_members_with_member c (other st) u).
Qed.

Lemma removeUserSession_cb_sound u cur st0 s st' :
  removeUserSession_cb u cur st0 = ((Some s, None), st') →
  call_iff_members s.
Proof.
  destruct cur as [st|]; [|discriminate].
  destruct (Call st) as [c|] eqn:Hc.
  - destruct (removeUserSession_cb_some u st c st0 Hc) as (s' & -> & _ & H & _).
    by intros [= <- _].
  - unfold removeUserSession_cb. rewrite Hc. discriminate.
Qed.

(** ** The store *)

Lemma store_invariant_insert p ch st :
  store_invariant p → call_iff_members st →
  store_invariant (set_kv (insert ch st) p).
Proof.
  intros Hinv Hst ch' st'. simpl. rewrite lookup_insert.
  case_decide; [intros [= <-]; done | apply Hinv].
Qed.

Lemma kvSetAtomic_attempts_invariant n ch (cb : transform Extra) cn st p :
  (∀ cur st0 s st', cb cur st0 = ((Some s, None), st') → call_iff_members s) →
  Forall call_iff_members cn →
  store_invariant p →
  store_invariant (fst (fst (kvSetAtomic_attempts n ch cb cn st p))).
Proof.
  intros Hcb. revert cn st p.
  induction n as [|n IH]; intros cn st p Hcn Hinv; [done|]. simpl.
  destruct (cb (kv p !! ch) st) as [[[s|] [e|]] st'] eqn:Hrun; try done.
  destruct cn as [|theirs rest].
  - simpl. apply store_invariant_insert; [done|]. by eapply Hcb.
  - apply Forall_cons in Hcn as [Ht Hrest].
    apply IH; [done|]. by apply store_invariant_insert.
Qed.

Lemma kvSetAtomic_attempts_sessions n ch (cb : transform Extra) cn st p :
  sessions (fst (fst (kvSetAtomic_attempts n ch cb cn st p))) = sessions p.
Proof.
  revert cn st p. induction n as [|n IH]; intros cn st p; [done|]. simpl.
  destruct (cb (kv p !! ch) st) as [[[s|] [e|]] st']; try done.
  destruct cn as [|theirs rest]; [done|]. by rewrite IH.
Qed.

(** A transaction whose closure fails at once: nothing is stored. *)
Lemma kvSetAtomicChannelState_fails ch (cb : transform Extra) cn st p e st' :
  cb (kv p !! ch) st = ((None, Some e), st') →
  kvSetAtomicChannelState maxRetries ch cb cn st p = ((p, Some e), st').
Proof.
  intros H. unfold kvSetAtomicChannelState. simpl. by rewrite H.
Qed.

(** A transaction that is alone commits what its closure returns. *)
Lemma kvSetAtomicChannelState_alone ch (cb : transform Extra) st p s st' :
  cb (kv p !! ch) st = ((Some s, None), st') →
  kvSetAtomicChannelState maxRetries ch cb [] st p
  = ((set_kv (insert ch s) p, None), st').
Proof.
  intros H. unfold kvSetAtomicChannelState. simpl. by rewrite H.
Qed.

(** A join on a channel that has a record: it commits or loses every
    attempt, and from its first attempt on [st] holds a call with the
    user. *)
Lemma add_attempts_existing n u i t ch cn st p :
  is_Some (kv p !! ch) →
  let r := kvSetAtomic_attempts n ch (addUserSession_cb u i t) cn st p in
  (snd (fst r) = None
   ∧ (∃ c, kv (fst (fst r)) !! ch = Some (snd r)
         ∧ Call (snd r) = Some c ∧ u ∈ Users c)
   ∨ snd (fst r) = Some errStoreConflict ∧ (n ≤ length cn)%nat)
  ∧ ((0 < n)%nat ∨ (∃ c, Call st = Some c ∧ u ∈ Users c) →
     ∃ c, Call (snd r) = Some c ∧ u ∈ Users c).
Proof.
  revert cn st p. induction n as [|n IH]; intros cn st p [r0 Hr0] r.
  - unfold r. simpl. split; [right; split; [done|lia]|].
    intros [H|H]; [lia|done].
  - unfold r. simpl. rewrite Hr0.
    destruct (addUserSession_cb_some u i t r0 st) as (c & Hu & ->).
    destruct cn as [|theirs rest].
    + simpl. split; [|by eauto]. left. split; [done|].
      exists c. by rewrite lookup_insert_eq.
    + destruct (IH rest (ChannelState (Some c) (other r0))
                  (set_kv (insert ch theirs) p)) as [H1 H2].
      { simpl. rewrite lookup_insert_eq. eauto. }
      split.
      * destruct H1 as [H1|[H1 Hlen]]; [by left|].
        right. split; [done|]. simpl. lia.
      * intros _. apply H2. right. eauto.
Qed.

(** ** One operation, in closed form *)

Lemma addUserSession_missing u ch s i t cn p :
  kv p !! ch = None →
  addUserSession extra0 maxRetries u ch s i t cn p
  = (set_sessions (insert u s) (LogDebug (LogLine "adding session" u ch) p),
     (zeroChannelState extra0, Some errChannelStateMissing)).
Proof.
  intros Hl. unfold addUserSession.
  rewrite (kvSetAtomicChannelState_fails _ _ _ _ _ errChannelStateMissing
             (zeroChannelState extra0)); [done|].
  simpl. by rewrite Hl.
Qed.

Lemma removeUserSession_missing u ch cn p :
  kv p !! ch = None →
  removeUserSession extra0 maxRetries u ch cn p
  = (set_sessions (delete u) (LogDebug (LogLine "removing session" u ch) p),
     (zeroChannelState extra0, Some errChannelStateMissing)).
Proof.
  intros Hl. unfold removeUserSession.
  rewrite (kvSetAtomicChannelState_fails _ _ _ _ _ errChannelStateMissing
             (zeroChannelState extra0)); [done|].
  simpl. by rewrite Hl.
Qed.

Lemma removeUserSession_no_call u ch cn p st :
  kv p !! ch = Some st → Call st = None →
  removeUserSession extra0 maxRetries u ch cn p
  = (set_sessions (delete u) (LogDebug (LogLine "removing session" u ch) p),
     (zeroChannelState extra0, Some errCallStateMissing)).
Proof.
  intros Hl Hc. unfold removeUserSession.
  rewrite (kvSetAtomicChannelState_fails _ _ _ _ _ errCallStateMissing
             (zeroChannelState extra0)); [done|].
  simpl. rewrite Hl. unfold removeUserSession_cb. by rewrite Hc.
Qed.

Lemma addUserSession_record u ch s i t p st :
  kv p !! ch = Some st →
  let c0 := default (CallState i t ∅) (Call st) in
  let st' := ChannelState
               (Some (CallState (ID c0) (StartAt c0) ({[u]} ∪ Users c0)))
               (other st) in
  addUserSession extra0 maxRetries u ch s i t [] p
  = (set_kv (insert ch st')
       (set_sessions (insert u s)
          (LogDebug (LogLine "adding session" u ch) p)),
     (st', None)).
Proof.
  intros Hl c0 st'. unfold addUserSession.
  rewrite (kvSetAtomicChannelState_alone _ _ _ _ st' st'); [done|].
  simpl. rewrite Hl. unfold st', c0. simpl. by destruct (Call st).
Qed.

Lemma removeUserSession_record u ch p c (x : Extra) :
  kv p !! ch = Some (ChannelState (Some c) x) →
  let st' := if decide (Users c ∖ {[u]} = ∅)
             then ChannelState None x
             else ChannelState
                    (Some (CallState (ID c) (StartAt c) (Users c ∖ {[u]}))) x in
  removeUserSession extra0 maxRetries u ch [] p
  = (set_kv (insert ch st')
       (set_sessions (delete u)
          (LogDebug (LogLine "removing session" u ch) p)),
     (st', None)).
Proof.
  intros Hl st'. unfold removeUserSession.
  rewrite (kvSetAtomicChannelState_alone _ _ _ _ st' st'); [done|].
  cbn -[size]. rewrite Hl. cbn -[size]. unfold st'.
  destruct (decide (size (Users c ∖ {[u]}) = 0)) as [Hz|Hnz];
    destruct (decide (Users c ∖ {[u]} = ∅)) as [He|Hne]; try done.
  - apply size_empty_inv in Hz. apply leibniz_equiv in Hz. done.
  - rewrite He, size_empty in Hnz. done.
Qed.

(** ** Any sequence keeps the invariant *)

Lemma step_invariant (o : op Extra) p :
  fair_contention o → store_invariant p →
  store_invariant (fst (step extra0 maxRetries o p)).
Proof.
  intros Hfair Hinv. destruct o as [u ch s i t cn | u ch cn]; simpl in *.
  - unfold addUserSession, kvSetAtomicChannelState.
    pose proof (kvSetAtomic_attempts_invariant (S maxRetries) ch
                  (addUserSession_cb u i t) cn (zeroChannelState extra0)
                  (set_sessions (insert u s)
                     (LogDebug (LogLine "adding session" u ch) p))) as H.
    destruct (kvSetAtomic_attempts _ _ _ _ _ _) as [[p' e] st']. simpl in *.
    apply H; [|done|done].
    intros cur st0 s0 st1. apply addUserSession_cb_sound.
  - unfold removeUserSession, kvSetAtomicChannelState.
    pose proof (kvSetAtomic_attempts_invariant (S maxRetries) ch
                  (removeUserSession_cb u) cn (zeroChannelState extra0)
                  (set_sessions (delete u)
                     (LogDebug (LogLine "removing session" u ch) p))) as H.
    destruct (kvSetAtomic_attempts _ _ _ _ _ _) as [[p' e] st']. simpl in *.
    apply H; [|done|done].
    intros cur st0 s0 st1. apply removeUserSession_cb_sound.
Qed.

Lemma run_invariant (ops : list (op Extra)) p :
  Forall fair_contention ops → store_invariant p →
  store_invariant (run extra0 maxRetries ops p).
Proof.
  revert p. induction ops as [|o ops IH]; intros p Hfair Hinv; simpl; [done|].
  apply Forall_cons in Hfair as [Ho Hops].
  apply IH; [done|]. by apply step_invariant.
Qed.

(** ** The claims about [session.go] *)

(** C1. Starting from a store in which every channel record has a call
    sub-record iff its member set is non-empty, any sequence of
    [addUserSession] and [removeUserSession] calls leaves such a store,
    also when concurrent joins and leaves commit in between. A successful
    [addUserSession] leaves a call that contains the user, and
    [removeUserSession] on a channel with a call stores a record whose call
    is nil exactly when the user was its only member. *)
Theorem call_present_iff_members_nonempty
    (p : Plugin Extra) (ops : list (op Extra))
    (Hinv : store_invariant p)
    (Hfair : Forall fair_contention ops) :
  store_invariant (run extra0 maxRetries ops p)
  ∧ (∀ u ch s i t cn,
       snd (snd (addUserSession extra0 maxRetries u ch s i t cn p)) = None →
       ∃ st c,
         kv (fst (addUserSession extra0 maxRetries u ch s i t cn p)) !! ch = Some st
         ∧ Call st = Some c ∧ u ∈ Users c)
  ∧ (∀ u ch st c,
       kv p !! ch = Some st → Call st = Some c →
       ∃ st',
         kv (fst (removeUserSession extra0 maxRetries u ch [] p)) !! ch = Some st'
         ∧ (Call st' = None ↔ Users c = {[u]})).
Proof.
  split; [by apply run_invariant|]. split.
  - intros u ch s i t cn Herr.
    destruct (kv p !! ch) as [st|] eqn:Hl.
    + unfold addUserSession, kvSetAtomicChannelState in *.
      destruct (add_attempts_existing (S maxRetries) u i t ch cn
                  (zeroChannelState extra0)
                  (set_sessions (insert u s)
                     (LogDebug (LogLine "adding session" u ch) p)))
        as [H _]; [simpl; rewrite Hl; eauto|].
      destruct (kvSetAtomic_attempts _ _ _ _ _ _) as [[p' e] st']. simpl in *.
      destruct H as [(_ & c & Hk & Hc & Hu)|[He _]]; [|congruence].
      by exists st', c.
    + rewrite (addUserSession_missing _ _ _ _ _ _ _ Hl) in Herr. discriminate.
  - intros u ch st c Hl Hc.
    destruct st as [call x]. simpl in Hc. subst call.
    rewrite (removeUserSession_record _ _ _ _ _ Hl). simpl.
    rewrite lookup_insert_eq. eexists. split; [reflexivity|].
    assert (Hne : Users c ≠ ∅).
    { specialize (Hinv ch _ Hl). unfold call_iff_members, members in Hinv.
      simpl in Hinv. apply Hinv. eauto. }
    destruct (decide (Users c ∖ {[u]} = ∅)) as [Hd|Hd]; simpl.
    + split; [intros _|done].
      apply set_eq. intros x'. rewrite elem_of_singleton. split.
      * intros Hx. destruct (decide (x' = u)) as [|Hxu]; [done|].
        exfalso. apply (not_elem_of_empty (C:=gset string) x').
        rewrite <- Hd. apply elem_of_difference. split; [done|].
        by rewrite elem_of_singleton.
      * intros ->. apply set_choose_L in Hne as [y Hy].
        destruct (decide (y = u)) as [<-|Hyu]; [done|].
        exfalso. apply (not_elem_of_empty (C:=gset string) y).
        rewrite <- Hd. apply elem_of_difference. split; [done|].
        by rewrite elem_of_singleton.
    + split; [discriminate|]. intros Hu. exfalso. apply Hd. rewrite Hu.
      apply difference_diag_L.
Qed.

(** C2. [removeUserSession] on a channel whose record exists but has no
    call fails with the call-state-missing error; [addUserSession] and
    [removeUserSession] on a channel without a record fail with the
    channel-state-missing error. In both cases the closure returns a nil
    record and the store is left as it was. *)
Theorem missing_state_is_an_error
    (p : Plugin Extra) (u ch : string) (s : session) (i : string) (t : Z)
    (cn : list (channelState Extra)) :
  (∀ st, kv p !! ch = Some st → Call st = None →
     removeUserSession_cb u (Some st) (zeroChannelState extra0)
     = ((None, Some errCallStateMissing), zeroChannelState extra0)
     ∧ snd (removeUserSession extra0 maxRetries u ch cn p)
       = (zeroChannelState extra0, Some errCallStateMissing)
     ∧ kv (fst (removeUserSession extra0 maxRetries u ch cn p)) = kv p)
  ∧ (kv p !! ch = None →
     addUserSession_cb u i t None (zeroChannelState extra0)
     = ((None, Some errChannelStateMissing), zeroChannelState extra0)
     ∧ snd (addUserSession extra0 maxRetries u ch s i t cn p)
       = (zeroChannelState extra0, Some errChannelStateMissing)
     ∧ kv (fst (addUserSession extra0 maxRetries u ch s i t cn p)) = kv p
     ∧ removeUserSession_cb u None (zeroChannelState extra0)
       = ((None, Some errChannelStateMissing), zeroChannelState extra0)
     ∧ snd (removeUserSession extra0 maxRetries u ch cn p)
       = (zeroChannelState extra0, Some errChannelStateMissing)
     ∧ kv (fst (removeUserSession extra0 maxRetries u ch cn p)) = kv p)
  ∧ errCallStateMissing ≠ errChannelStateMissing.
Proof.
  split; [|split; [|discriminate]].
  - intros st Hl Hc.
    rewrite (removeUserSession_no_call _ _ _ _ _ Hl Hc).
    unfold removeUserSession_cb. rewrite Hc. done.
  - intros Hl.
    rewrite (removeUserSession_missing _ _ _ _ Hl).
    rewrite (addUserSession_missing _ _ _ _ _ _ _ Hl). done.
Qed.

(** C3. On a channel whose record is initialised and has no call, two
    distinct users A and B join and then leave in the same order, with no
    other writer: the member sets are {A}, {A,B}, {B}, and at the end the
    record has no call. The first join creates the call with the new
    identifier and the current time and with A as its only member, the
    second keeps them, and each call returns the record it stored. *)
Theorem join_join_leave_leave
    (p : Plugin Extra) (ch A B : string) (x : Extra)
    (sA sB : session) (id1 id2 : string) (t1 t2 : Z)
    (Hrec : kv p !! ch = Some (ChannelState None x))
    (HAB : A ≠ B) :
  let o1 := addUserSession extra0 maxRetries A ch sA id1 t1 [] p in
  let o2 := addUserSession extra0 maxRetries B ch sB id2 t2 [] (fst o1) in
  let o3 := removeUserSession extra0 maxRetries A ch [] (fst o2) in
  let o4 := removeUserSession extra0 maxRetries B ch [] (fst o3) in
  snd o1 = (ChannelState (Some (CallState id1 t1 {[A]})) x, None)
  ∧ snd o2 = (ChannelState (Some (CallState id1 t1 {[A; B]})) x, None)
  ∧ snd o3 = (ChannelState (Some (CallState id1 t1 {[B]})) x, None)
  ∧ snd o4 = (ChannelState None x, None)
  ∧ kv (fst o1) !! ch = Some (fst (snd o1))
  ∧ kv (fst o2) !! ch = Some (fst (snd o2))
  ∧ kv (fst o3) !! ch = Some (fst (snd o3))
  ∧ kv (fst o4) !! ch = Some (fst (snd o4)).
Proof.
  intros o1 o2 o3 o4.
  assert (H1 : snd o1 = (ChannelState (Some (CallState id1 t1 {[A]})) x, None)
               ∧ kv (fst o1) !! ch
                 = Some (ChannelState (Some (CallState id1 t1 {[A]})) x)).
  { unfold o1. rewrite (addUserSession_record _ _ _ _ _ _ _ Hrec). simpl.
    rewrite lookup_insert_eq. by rewrite (right_id_L ∅ (∪)). }
  destruct H1 as [H1 Hk1].
  assert (H2 : snd o2 = (ChannelState (Some (CallState id1 t1 {[A; B]})) x, None)
               ∧ kv (fst o2) !! ch
                 = Some (ChannelState (Some (CallState id1 t1 {[A; B]})) x)).
  { unfold o2. rewrite (addUserSession_record _ _ _ _ _ _ _ Hk1). simpl.
    rewrite lookup_insert_eq.
    by rewrite (comm_L (∪) {[B]} {[A]}). }
  destruct H2 as [H2 Hk2].
  assert (HsetA : ({[A; B]} : gset string) ∖ {[A]} = {[B]}).
  { apply set_eq. intros y.
    rewrite elem_of_difference, elem_of_union, !elem_of_singleton.
    split; [intros [[->| ->] Hn]; done|]. intros ->. split; [by right|].
    intros ->. done. }
  assert (H3 : snd o3 = (ChannelState (Some (CallState id1 t1 {[B]})) x, None)
               ∧ kv (fst o3) !! ch
                 = Some (ChannelState (Some (CallState id1 t1 {[B]})) x)).
  { unfold o3. rewrite (removeUserSession_record _ _ _ _ _ Hk2). simpl.
    rewrite lookup_insert_eq, HsetA.
    rewrite decide_False; [done|].
    intros He. apply (not_elem_of_empty (C:=gset string) B).
    rewrite <- He. by apply elem_of_singleton. }
  destruct H3 as [H3 Hk3].
  assert (H4 : snd o4 = (ChannelState None x, None)
               ∧ kv (fst o4) !! ch = Some (ChannelState None x)).
  { unfold o4. rewrite (removeUserSession_record _ _ _ _ _ Hk3). simpl.
    rewrite lookup_insert_eq, difference_diag_L.
    by rewrite decide_True. }
  destruct H4 as [H4 Hk4].
  rewrite H1, H2, H3, H4, Hk1, Hk2, Hk3, Hk4. done.
Qed.

(** C9. When [addUserSession] returns an error, the session it was given is
    nevertheless in the registry under the user id: the registry is the
    old one with that entry set. If the error is the closure's own, the
    channel-state-missing error, the returned record is the zero value and
    the store is unchanged. Otherwise the store gave up after losing every
    attempt, and the returned record is the one the last attempt computed,
    a call holding the user. *)
Theorem failed_add_keeps_session
    (p : Plugin Extra) (u ch : string) (s : session) (i : string) (t : Z)
    (cn : list (channelState Extra))
    (Herr : snd (snd (addUserSession extra0 maxRetries u ch s i t cn p)) ≠ None) :
  let o := addUserSession extra0 maxRetries u ch s i t cn p in
  sessions (fst o) !! u = Some s
  ∧ sessions (fst o) = <[u:=s]> (sessions p)
  ∧ (snd (snd o) = Some errChannelStateMissing
     ∧ kv p !! ch = None
     ∧ fst (snd o) = zeroChannelState extra0
     ∧ kv (fst o) = kv p
     ∨ snd (snd o) = Some errStoreConflict
       ∧ is_Some (kv p !! ch)
       ∧ (maxRetries < length cn)%nat
       ∧ ∃ c, Call (fst (snd o)) = Some c ∧ u ∈ Users c).
Proof.
  intros o.
  assert (Hs : sessions (fst o) = <[u:=s]> (sessions p)).
  { unfold o, addUserSession, kvSetAtomicChannelState.
    pose proof (kvSetAtomic_attempts_sessions (S maxRetries) ch
                  (addUserSession_cb u i t) cn (zeroChannelState extra0)
                  (set_sessions (insert u s)
                     (LogDebug (LogLine "adding session" u ch) p))) as H.
    destruct (kvSetAtomic_attempts _ _ _ _ _ _) as [[p' e] st']. exact H. }
  split; [by rewrite Hs, lookup_insert_eq|]. split; [done|].
  destruct (kv p !! ch) as [st|] eqn:Hl.
  - right. unfold o in *. unfold addUserSession, kvSetAtomicChannelState in *.
    destruct (add_attempts_existing (S maxRetries) u i t ch cn
                (zeroChannelState extra0)
                (set_sessions (insert u s)
                   (LogDebug (LogLine "adding session" u ch) p)))
      as [H1 H2]; [simpl; rewrite Hl; eauto|].
    destruct (kvSetAtomic_attempts _ _ _ _ _ _) as [[p' e] st']. simpl in *.
    destruct H1 as [[He _]|[He Hlen]]; [congruence|].
    split; [done|]. split; [eauto|]. split; [lia|].
    apply H2. left. lia.
  - left. unfold o. rewrite (addUserSession_missing _ _ _ _ _ _ _ Hl). done.
Qed.

End WithChannelFields.

(** ** The claims at sample states *)

Lemma general_plugin_invariant : store_invariant general_plugin.
Proof.
  intros ch st H. unfold general_plugin in H. simpl in H.
  apply lookup_singleton_Some in H as [_ <-].
  unfold call_iff_members, members. simpl.
  split; [intros [? ?]; discriminate | done].
Defined.

Lemma sample_ops_fair : Forall fair_contention sample_ops.
Proof.
  unfold sample_ops, fair_contention.
  repeat (apply List.Forall_cons || apply List.Forall_nil).
  unfold call_iff_members, members. simpl. split; [|eauto].
  intros _ He. apply (not_elem_of_empty (C:=gset string) "A").
  rewrite <- He. apply elem_of_union. left. by apply elem_of_singleton.
Defined.

Lemma call_present_iff_members_nonempty_witness :
  store_invariant (run false 2 sample_ops general_plugin)
  ∧ (∀ u ch s i t cn,
       snd (snd (addUserSession false 2 u ch s i t cn general_plugin)) = None →
       ∃ st c,
         kv (fst (addUserSession false 2 u ch s i t cn general_plugin)) !! ch = Some st
         ∧ Call st = Some c ∧ u ∈ Users c)
  ∧ (∀ u ch st c,
       kv general_plugin !! ch = Some st → Call st = Some c →
       ∃ st',
         kv (fst (removeUserSession false 2 u ch [] general_plugin)) !! ch = Some st'
         ∧ (Call st' = None ↔ Users c = {[u]})).
Proof.
  apply (call_present_iff_members_nonempty false 2 general_plugin sample_ops).
  - exact general_plugin_invariant.
  - exact sample_ops_fair.
Defined.

Lemma missing_state_is_an_error_witness :
  snd (removeUserSession false 2 "A" "general" [] general_plugin)
  = (zeroChannelState false, Some errCallStateMissing)
  ∧ snd (addUserSession false 2 "A" "general" (newUserSession "A" "general")
           "call1" 1000 [] empty_plugin)
    = (zeroChannelState false, Some errChannelStateMissing).
Proof.
  split.
  - destruct (missing_state_is_an_error false 2 general_plugin "A" "general"
                (newUserSession "A" "general") "call1" 1000 []) as [H _].
    apply (H (ChannelState None true)); reflexivity.
  - destruct (missing_state_is_an_error false 2 empty_plugin "A" "general"
                (newUserSession "A" "general") "call1" 1000 []) as [_ [H _]].
    apply H. reflexivity.
Defined.

Lemma join_join_leave_leave_witness :
  let o1 := addUserSession false 2 "A" "general" (newUserSession "A" "general")
              "call1" 1000 [] general_plugin in
  let o2 := addUserSession false 2 "B" "general" (newUserSession "B" "general")
              "call2" 2000 [] (fst o1) in
  let o3 := removeUserSession false 2 "A" "general" [] (fst o2) in
  let o4 := removeUserSession false 2 "B" "general" [] (fst o3) in
  snd o1 = (ChannelState (Some (CallState "call1" 1000 {["A"]})) true, None)
  ∧ snd o2 = (ChannelState (Some (CallState "call1" 1000 {["A"; "B"]})) true, None)
  ∧ snd o3 = (ChannelState (Some (CallState "call1" 1000 {["B"]})) true, None)
  ∧ snd o4 = (ChannelState None true, None)
  ∧ kv (fst o1) !! "general" = Some (fst (snd o1))
  ∧ kv (fst o2) !! "general" = Some (fst (snd o2))
  ∧ kv (fst o3) !! "general" = Some (fst (snd o3))
  ∧ kv (fst o4) !! "general" = Some (fst (snd o4)).
Proof.
  apply (join_join_leave_leave false 2 general_plugin "general" "A" "B" true).
  - reflexivity.
  - discriminate.
Defined.

Lemma failed_add_keeps_session_witness :
  let o := addUserSession false 2 "A" "general" (newUserSession "A" "general")
             "call1" 1000 [] empty_plugin in
  sessions (fst o) !! "A" = Some (newUserSession "A" "general")
  ∧ fst (snd o) = zeroChannelState false.
Proof.
  destruct (failed_add_keeps_session false 2 empty_plugin "A" "general"
              (newUserSession "A" "general") "call1" 1000 [])
    as (Hs & _ & [(_ & _ & Hz & _)|(He & _)]).
  - discriminate.
  - exact (conj Hs Hz).
  - discriminate He.
Defined.

(** C9, as first stated, fails when the store gives up: with one retry
    allowed and another writer committing before each of the two attempts,
    [addUserSession] returns the store-conflict error together with the
    record its last attempt computed, which is not the zero value; the
    session is in the registry. *)
Lemma conflicting_add_returns_a_record :
  let o := addUserSession false 1 "A" "general" (newUserSession "A" "general")
             "call1" 1000 [idle_record; idle_record] general_plugin in
  snd (snd o) = Some errStoreConflict
  ∧ sessions (fst o) !! "A" = Some (newUserSession "A" "general")
  ∧ fst (snd o) = ChannelState (Some (CallState "call1" 1000 {["A"]})) true
  ∧ fst (snd o) ≠ zeroChannelState false.
Proof.
  repeat split; try (vm_compute; reflexivity).
  vm_compute. discriminate.
Qed.

End ServerFacts.

(* ===================================================================== *)
(** * Properties of the client                                            *)
(* ===================================================================== *)

Module ClientFacts.
Import Client.

(** ** Running the monad *)

Lemma outcome_eta {A} (o : result A * World * list effect) :
  o = (result_of o, world_of o, effects_of o).
Proof. by destruct o as [[? ?] ?]. Qed.

Lemma bind_Ok {A B} (m : M A) (k : A → M B) w a w1 t1 :
  m w = (Ok a, w1, t1) →
  bind m k w
  = (result_of (k a w1), world_of (k a w1), t1 ++ effects_of (k a w1)).
Proof.
  intros H. unfold bind. rewrite H.
  by destruct (k a w1) as [[r w2] t2].
Qed.

Lemma bind_Throw {A B} (m : M A) (k : A → M B) w e w1 t1 :
  m w = (Throw e, w1, t1) → bind m k w = (Throw e, w1, t1).
Proof. intros H. unfold bind. by rewrite H. Qed.

Lemma bind_ret {A B} (a : A) (k : A → M B) w : bind (ret a) k w = k a w.
Proof. rewrite (bind_Ok _ _ _ a w []); [|done]. simpl. symmetry. apply outcome_eta. Qed.

Lemma bind_get_this {B} (k : CallsClient → M B) w :
  bind get_this k w = k (this w) w.
Proof.
  rewrite (bind_Ok _ _ _ (this w) w []); [|done]. simpl. symmetry. apply outcome_eta.
Qed.

Lemma bind_get_browser {B} (k : Browser → M B) w :
  bind get_browser k w = k (browser w) w.
Proof.
  rewrite (bind_Ok _ _ _ (browser w) w []); [|done]. simpl. symmetry. apply outcome_eta.
Qed.

Lemma bind_upd_this {B} f (k : unit → M B) w :
  bind (upd_this f) k w = k tt (MkWorld (f (this w)) (browser w)).
Proof.
  rewrite (bind_Ok _ _ _ tt (MkWorld (f (this w)) (browser w)) []); [|done].
  simpl. symmetry. apply outcome_eta.
Qed.

Lemma bind_upd_browser {B} f (k : unit → M B) w :
  bind (upd_browser f) k w = k tt (MkWorld (this w) (f (browser w))).
Proof.
  rewrite (bind_Ok _ _ _ tt (MkWorld (this w) (f (browser w))) []); [|done].
  simpl. symmetry. apply outcome_eta.
Qed.

Lemma bind_tell {B} e (k : unit → M B) w :
  bind (tell e) k w
  = (result_of (k tt w), world_of (k tt w), e :: effects_of (k tt w)).
Proof. by rewrite (bind_Ok _ _ _ tt w [e]). Qed.

Lemma bind_assoc {A B C} (m : M A) (k1 : A → M B) (k2 : B → M C) w :
  bind (bind m k1) k2 w = bind m (fun a => bind (k1 a) k2) w.
Proof.
  unfold bind. destruct (m w) as [[[a| |] w1] t1]; try done.
  destruct (k1 a w1) as [[[b| |] w2] t2]; try done.
  destruct (k2 b w2) as [[r w3] t3]. by rewrite app_assoc.
Qed.

Lemma world_eta w : MkWorld (this w) (browser w) = w.
Proof. by destruct w. Qed.

(** Symbolic execution of a client method: push the world through the
    primitive steps. *)
Ltac run_step :=
  first
    [ rewrite bind_assoc
    | rewrite bind_get_this
    | rewrite bind_get_browser
    | rewrite bind_upd_this
    | rewrite bind_upd_browser
    | rewrite bind_tell
    | rewrite bind_ret ].

Ltac run := repeat (run_step; cbn [result_of world_of effects_of fst snd this browser]).

(** ** Reading the persisted preference changes nothing *)

Lemma getSelectedAudioDevice_reads ty w :
  ∃ r t, getSelectedAudioDevice ty w = (Ok r, w, t)
       ∧ forallb is_log t = true.
Proof.
  unfold getSelectedAudioDevice. run.
  case_bool_decide.
  - by eexists _, _.
  - destruct (List.filter _ _) as [|d [|d' l]];
      unfold logInfo, logDebug; run; by eexists _, _.
Qed.

(** ** Without a peer the device setters return at once *)

Lemma setAudioOutputDevice_no_peer w device store :
  peer (this w) = None → setAudioOutputDevice device store w = (Ok tt, w, []).
Proof.
  intros H. unfold setAudioOutputDevice. run. by rewrite H.
Qed.

Lemma setAudioInputDevice_with_no_peer init w device store :
  peer (this w) = None →
  setAudioInputDevice_with init device store w = (Ok tt, w, []).
Proof.
  intros H. unfold setAudioInputDevice_with. run. by rewrite H.
Qed.

Lemma set_device_with_no_peer setIn ty d w :
  peer (this w) = None →
  (∀ d st, setIn d st w = (Ok tt, w, [])) →
  set_device_with setIn ty d w = (Ok tt, w, []).
Proof.
  intros H Hin. destruct ty; simpl; [apply Hin|].
  by apply setAudioOutputDevice_no_peer.
Qed.

Lemma switch_device_no_peer fuel ty msg d w :
  peer (this w) = None →
  result_of (switch_device_with (setAudioInputDevice fuel) ty msg d w) = Ok tt
  ∧ world_of (switch_device_with (setAudioInputDevice fuel) ty msg d w) = w.
Proof.
  intros H. unfold switch_device_with, logDebug, emit. run.
  rewrite (bind_Ok _ _ _ tt w []).
  - by unfold tell.
  - apply set_device_with_no_peer; [done|].
    intros d' st. by apply setAudioInputDevice_with_no_peer.
Qed.

Lemma handleAudioDeviceFallback_no_peer fuel ty w :
  peer (this w) = None →
  result_of (handleAudioDeviceFallback fuel ty w) = Ok tt
  ∧ world_of (handleAudioDeviceFallback fuel ty w) = w.
Proof.
  intros H.
  assert (Hback : ∀ cur,
    result_of (switch_back_with (setAudioInputDevice fuel) ty cur w) = Ok tt
    ∧ world_of (switch_back_with (setAudioInputDevice fuel) ty cur w) = w).
  { intros cur. unfold switch_back_with.
    destruct (getSelectedAudioDevice_reads ty w) as (r & t & Hsel & _).
    rewrite (bind_Ok _ _ _ _ _ _ Hsel). simpl.
    destruct r as [sd|]; [|done].
    destruct (negb _); [|done].
    by apply switch_device_no_peer. }
  unfold handleAudioDeviceFallback, handleAudioDeviceFallback_with. run.
  destruct (negb (existsb _ _)); [|apply Hback].
  destruct (devices_of ty (this w)) as [|d0 l]; [apply Hback|].
  by apply switch_device_no_peer.
Qed.

(** ** The claims about the device setters and the screen share guard *)

(** C10. Without a peer connection, [setAudioInputDevice] and
    [setAudioOutputDevice] return at once: the world (current devices,
    persisted preference and everything else) is unchanged and nothing is
    emitted. The automatic fallback, which goes through them, then leaves
    the world unchanged as well. *)
Theorem set_audio_device_without_peer
    (w : World) (device : MediaDeviceInfo) (store : bool) (fuel : nat)
    (Hpeer : peer (this w) = None) :
  setAudioInputDevice fuel device store w = (Ok tt, w, [])
  ∧ setAudioOutputDevice device store w = (Ok tt, w, [])
  ∧ ∀ ty, result_of (handleAudioDeviceFallback fuel ty w) = Ok tt
        ∧ world_of (handleAudioDeviceFallback fuel ty w) = w.
Proof.
  split; [by apply setAudioInputDevice_with_no_peer|].
  split; [by apply setAudioOutputDevice_no_peer|].
  intros ty. by apply handleAudioDeviceFallback_no_peer.
Qed.

Lemma set_audio_device_without_peer_witness :
  setAudioInputDevice 0 mic2 true joining_world = (Ok tt, joining_world, [])
  ∧ setAudioOutputDevice spk2 true joining_world = (Ok tt, joining_world, [])
  ∧ ∀ ty, result_of (handleAudioDeviceFallback 0 ty joining_world) = Ok tt
        ∧ world_of (handleAudioDeviceFallback 0 ty joining_world) = joining_world.
Proof.
  apply (set_audio_device_without_peer joining_world mic2 true 0).
  reflexivity.
Defined.

(** C7. While a local screen track is set, [setScreenStream] returns at
    once: the world (local screen track, streams, heap) is unchanged and
    nothing is sent to the peer or to the socket. *)
Theorem second_setScreenStream_rejected
    (w : World) (screenStream : option StreamRef)
    (Hactive : localScreenTrack (this w) ≠ None) :
  setScreenStream screenStream w = (Ok tt, w, []).
Proof.
  unfold setScreenStream. run.
  destruct (ws (this w)); [|done].
  destruct (peer (this w)); [|done].
  destruct (localScreenTrack (this w)); [|done].
  by destruct screenStream.
Qed.

Lemma second_setScreenStream_rejected_witness :
  setScreenStream (Some 3) sharing_world = (Ok tt, sharing_world, []).
Proof.
  apply (second_setScreenStream_rejected sharing_world (Some 3)).
  vm_compute. discriminate.
Defined.

(** ** Mute and unmute *)

Lemma track_enabled_alter b t (f : MediaStreamTrack → MediaStreamTrack) v :
  is_Some (tracks b !! t) →
  (∀ tr, enabled (f tr) = v) →
  track_enabled (set_tracks (alter f t) b) t = v.
Proof.
  intros [tr Htr] Hf. unfold track_enabled. simpl.
  rewrite lookup_alter_eq, Htr. simpl. apply Hf.
Qed.

Lemma mute_run w t :
  peer (this w) ≠ None → audioTrack (this w) = Some t →
  mute w
  = if is_some (stream (this w)) then
      (Ok tt,
       MkWorld (this w)
         (set_tracks (alter (fun tr =>
            MkTrack (track_kind tr) false (ready tr) (onended tr)) t) (browser w)),
       [Log Debug "replacing track to peer"; PeerReplaceTrack t None;
        Emit "mute" NoPayload]
       ++ (if is_some (ws (this w)) then [WsSend "mute" None] else []))
    else (Ok tt, w, []).
Proof.
  intros Hpeer Htrack. unfold mute. run. rewrite Htrack.
  destruct (peer (this w)); [|done].
  destruct (stream (this w)); [|done]. simpl.
  unfold logDebug, emit, track_set_enabled. run.
  destruct (ws (this w)); reflexivity.
Qed.

Lemma unmute_run w fuel t :
  peer (this w) ≠ None → audioTrack (this w) = Some t →
  unmute fuel w
  = (Ok tt,
     MkWorld
       (if voiceTrackAdded (this w) then this w
        else if is_some (stream (this w))
             then set_voiceTrackAdded true (this w) else this w)
       (set_tracks (alter (fun tr =>
          MkTrack (track_kind tr) true (ready tr) (onended tr)) t) (browser w)),
     (if is_some (rtcMonitor (this w)) then [MonitorClearCache] else [])
     ++ (if voiceTrackAdded (this w) then
           [Log Debug "replacing track to peer"; PeerReplaceTrack t (Some t)]
         else
           match stream (this w) with
           | Some st => [Log Debug "adding track to peer"; PeerAddTrack t st]
           | None => []
           end)
     ++ [Emit "unmute" NoPayload]
     ++ (if is_some (ws (this w)) then [WsSend "unmute" None] else [])).
Proof.
  intros Hpeer Htrack. unfold unmute. run. rewrite Htrack.
  destruct (peer (this w)); [|done]. simpl. run.
  destruct (rtcMonitor (this w)); simpl; run; rewrite Htrack;
    (destruct (voiceTrackAdded (this w)) eqn:Hv;
     [|destruct (stream (this w)) eqn:Hs]);
    unfold logDebug, emit, track_set_enabled; run; simpl;
    destruct (ws (this w)); reflexivity.
Qed.

Lemma count_app f a b : count f (a ++ b) = count f a + count f b.
Proof. unfold count. by rewrite List.filter_app, length_app. Qed.

Lemma mute_step w t :
  peer (this w) ≠ None → audioTrack (this w) = Some t →
  result_of (mute w) = Ok tt
  ∧ this (world_of (mute w)) = this w
  ∧ count is_addTrack (effects_of (mute w)) = 0.
Proof.
  intros Hp Ht. rewrite (mute_run w t Hp Ht).
  by destruct (stream (this w)), (ws (this w)).
Qed.

Lemma unmute_step w fuel t :
  peer (this w) ≠ None → audioTrack (this w) = Some t →
  result_of (unmute fuel w) = Ok tt
  ∧ peer (this (world_of (unmute fuel w))) = peer (this w)
  ∧ audioTrack (this (world_of (unmute fuel w))) = Some t
  ∧ stream (this (world_of (unmute fuel w))) = stream (this w)
  ∧ voiceTrackAdded (this (world_of (unmute fuel w)))
    = voiceTrackAdded (this w) || is_some (stream (this w))
  ∧ count is_addTrack (effects_of (unmute fuel w))
    = (if voiceTrackAdded (this w) then 0
       else if is_some (stream (this w)) then 1 else 0).
Proof.
  intros Hp Ht. rewrite (unmute_run w fuel t Hp Ht).
  cbn [result_of world_of effects_of fst snd this].
  destruct (voiceTrackAdded (this w)) eqn:Hv, (stream (this w)) eqn:Hs,
    (ws (this w)), (rtcMonitor (this w)); simpl; rewrite ?Hv, ?Hs; done.
Qed.

Lemma voice_run_addTrack fuel ops w t :
  peer (this w) ≠ None → audioTrack (this w) = Some t →
  result_of (forEach ops (voice_step fuel) w) = Ok tt
  ∧ count is_addTrack (effects_of (forEach ops (voice_step fuel) w))
    = (if voiceTrackAdded (this w) then 0
       else if is_some (stream (this w)) && existsb is_Unmute ops then 1 else 0).
Proof.
  revert w. induction ops as [|o ops IH]; intros w Hp Ht.
  - simpl. rewrite andb_false_r. by destruct (voiceTrackAdded (this w)).
  - cbn [forEach existsb].
    rewrite (bind_Ok _ _ _ tt (world_of (voice_step fuel o w))
               (effects_of (voice_step fuel o w))).
    2:{ destruct o; simpl.
        - destruct (mute_step w t Hp Ht) as (Hr & _).
          rewrite (outcome_eta (mute w)) at 1. by rewrite Hr.
        - destruct (unmute_step w fuel t Hp Ht) as (Hr & _).
          rewrite (outcome_eta (unmute fuel w)) at 1. by rewrite Hr. }
    cbn [result_of effects_of fst snd]. rewrite count_app.
    destruct o; cbn [voice_step is_Unmute orb].
    + destruct (mute_step w t Hp Ht) as (_ & Hthis & Hc).
      destruct (IH (world_of (mute w))) as [Hr Hn]; [by rewrite Hthis..|].
      rewrite Hr, Hn, Hc, Hthis. done.
    + destruct (unmute_step w fuel t Hp Ht) as (_ & Hp' & Ht' & Hs' & Hv' & Hc).
      destruct (IH (world_of (unmute fuel w))) as [Hr Hn]; [by rewrite Hp'|done|].
      rewrite Hr, Hn, Hc, Hv', Hs'. split; [done|].
      destruct (voiceTrackAdded (this w)), (stream (this w)); simpl; lia.
Qed.

(** C5. On a client with a peer and an audio track: if the track was
    already added to the peer ([voiceTrackAdded]), [mute] followed by
    [unmute] leaves the track enabled, and the only calls on the peer are
    the [replaceTrack] to null of [mute] and the [replaceTrack] back to the
    track of [unmute], with no [addTrack]. In general [unmute] issues an
    [addTrack] only when [voiceTrackAdded] is false (and a stream exists),
    and then sets the flag, so that the next activation replaces: over any
    run of [mute] and [unmute] calls [addTrack] is issued at most once, at
    the first [unmute] of a client whose track was not added yet. *)
Theorem mute_then_unmute_replaces_track
    (w : World) (fuel : nat) (t : TrackRef)
    (Hpeer : peer (this w) ≠ None)
    (Htrack : audioTrack (this w) = Some t)
    (Hheap : is_Some (tracks (browser w) !! t)) :
  (voiceTrackAdded (this w) = true →
     let o := (mute >> unmute fuel) w in
     result_of o = Ok tt
     ∧ track_enabled (browser (world_of o)) t = true
     ∧ List.filter (fun e => is_replaceTrack e || is_addTrack e) (effects_of o)
       = (if is_some (stream (this w)) then [PeerReplaceTrack t None] else [])
         ++ [PeerReplaceTrack t (Some t)]
     ∧ this (world_of o) = this w)
  ∧ count is_addTrack (effects_of (unmute fuel w))
    = (if voiceTrackAdded (this w) then 0
       else if is_some (stream (this w)) then 1 else 0)
  ∧ voiceTrackAdded (this (world_of (unmute fuel w)))
    = voiceTrackAdded (this w) || is_some (stream (this w))
  ∧ track_enabled (browser (world_of (unmute fuel w))) t = true
  ∧ ∀ ops,
      result_of (forEach ops (voice_step fuel) w) = Ok tt
      ∧ count is_addTrack (effects_of (forEach ops (voice_step fuel) w))
        = (if voiceTrackAdded (this w) then 0
           else if is_some (stream (this w)) && existsb is_Unmute ops
                then 1 else 0).
Proof.
  split; [|split; [|split; [|split]]].
  - intros Hadded o. unfold o. clear o.
    pose proof (mute_run w t Hpeer Htrack) as Hm.
    destruct (stream (this w)) as [st|]; simpl in Hm.
    + rewrite (bind_Ok _ _ _ _ _ _ Hm).
      rewrite (unmute_run _ _ t) by done. cbn [result_of world_of effects_of fst snd this browser].
      rewrite Hadded.
      split; [done|]. split; [|split; [|done]].
      * apply track_enabled_alter; [|done].
        simpl. rewrite lookup_alter_eq. destruct Hheap as [tr ->]. by eexists.
      * by destruct (ws (this w)), (rtcMonitor (this w)).
    + rewrite (bind_Ok _ _ _ _ _ _ Hm).
      rewrite (unmute_run _ _ t) by done. cbn [result_of world_of effects_of fst snd this browser].
      rewrite Hadded.
      split; [done|]. split; [|split; [|done]].
      * by apply track_enabled_alter.
      * by destruct (ws (this w)), (rtcMonitor (this w)).
  - rewrite (unmute_run _ _ t) by done. cbn [effects_of snd].
    destruct (voiceTrackAdded (this w)), (stream (this w)),
      (ws (this w)), (rtcMonitor (this w)); reflexivity.
  - rewrite (unmute_run _ _ t) by done. cbn [world_of fst snd this].
    by destruct (voiceTrackAdded (this w)) eqn:Hv, (stream (this w)).
  - rewrite (unmute_run _ _ t) by done. cbn [world_of fst snd browser].
    by apply track_enabled_alter.
  - intros ops. by apply (voice_run_addTrack fuel ops w t).
Qed.

Lemma mute_then_unmute_replaces_track_witness :
  let o := (mute >> unmute 0) connected_world in
  result_of o = Ok tt
  ∧ track_enabled (browser (world_of o)) 0 = true
  ∧ List.filter (fun e => is_replaceTrack e || is_addTrack e) (effects_of o)
    = [PeerReplaceTrack 0 None; PeerReplaceTrack 0 (Some 0)]
  ∧ this (world_of o) = this connected_world.
Proof.
  apply (mute_then_unmute_replaces_track connected_world 0 0).
  - discriminate.
  - reflexivity.
  - vm_compute. eauto.
  - reflexivity.
Defined.

(** ** The end of a screen share *)

Lemma track_stop_run {B} t (k : unit → M B) w :
  bind (track_stop t) k w
  = (result_of (k tt (MkWorld (this w)
       (set_tracks (alter (fun tr =>
          MkTrack (track_kind tr) (enabled tr) ended (onended tr)) t)
          (browser w)))),
     world_of (k tt (MkWorld (this w)
       (set_tracks (alter (fun tr =>
          MkTrack (track_kind tr) (enabled tr) ended (onended tr)) t)
          (browser w)))),
     TrackStop t :: effects_of (k tt (MkWorld (this w)
       (set_tracks (alter (fun tr =>
          MkTrack (track_kind tr) (enabled tr) ended (onended tr)) t)
          (browser w))))).
Proof. unfold track_stop. run. reflexivity. Qed.

Lemma run_onended_run cl w :
  run_onended cl w
  = (Ok tt,
     MkWorld (set_localScreenTrack None (this w))
       match cl_screenAudioTrack cl with
       | Some a =>
           set_tracks (alter (fun tr =>
             MkTrack (track_kind tr) (enabled tr) ended (onended tr)) a)
             (browser w)
       | None => browser w
       end,
     match cl_screenAudioTrack cl with
     | Some a => [TrackStop a]
     | None => []
     end
     ++ (if is_some (ws (this w)) && is_some (peer (this w))
         then [PeerRemoveTrack (cl_screenTrack cl); WsSend "screen_off" None]
         else [])).
Proof.
  unfold run_onended.
  destruct (cl_screenAudioTrack cl) as [a|]; cbv beta iota.
  - rewrite track_stop_run. run. simpl.
    destruct (ws (this w)), (peer (this w)); simpl; run; reflexivity.
  - run. simpl.
    destruct (ws (this w)), (peer (this w)); simpl; run; reflexivity.
Qed.

Lemma dispatch_ended_run t w :
  dispatch_ended t w
  = match tracks (browser w) !! t with
    | Some tr =>
        match onended tr with
        | Some cl =>
            (Ok tt, world_of (run_onended cl w),
             DispatchEnded t :: effects_of (run_onended cl w))
        | None => (Ok tt, w, [DispatchEnded t])
        end
    | None => (Ok tt, w, [DispatchEnded t])
    end.
Proof.
  unfold dispatch_ended. run.
  destruct (tracks (browser w) !! t) as [tr|]; [|reflexivity].
  destruct (onended tr) as [cl|]; [|reflexivity].
  by rewrite run_onended_run.
Qed.

(** [setScreenStream] on a client that can share: the video track becomes
    the local screen track and carries the handler. *)
Lemma setScreenStream_installs w ss vt :
  ws (this w) ≠ None → peer (this w) ≠ None →
  localScreenTrack (this w) = None →
  head (getVideoTracks (browser w) ss) = Some vt →
  let o := setScreenStream (Some ss) w in
  result_of o = Ok tt
  ∧ localScreenTrack (this (world_of o)) = Some vt
  ∧ ws (this (world_of o)) = ws (this w)
  ∧ peer (this (world_of o)) = peer (this w)
  ∧ ∃ tr, tracks (browser (world_of o)) !! vt = Some tr
        ∧ onended tr
          = Some (MkOnended vt (head (getAudioTracks (browser w) ss))).
Proof.
  intros Hws Hpeer Hnone Hvt o. unfold o, setScreenStream. clear o. run.
  destruct (ws (this w)) eqn:Hw; [|done].
  destruct (peer (this w)) eqn:Hp; [|done].
  rewrite Hnone. run. rewrite Hvt.
  unfold new_MediaStream, track_set_onended, logDebug, emit. run.
  assert (Hin : is_Some (tracks (browser w) !! vt)).
  { apply head_Some_elem_of in Hvt. apply list_elem_of_In in Hvt.
    unfold getVideoTracks in Hvt. apply filter_In in Hvt as [_ Hk].
    unfold has_kind in Hk. destruct (tracks (browser w) !! vt); [eauto|done]. }
  destruct Hin as [tr Htr].
  cbn [config av1Codec set_streams set_localScreenTrack].
  destruct (enableAV1 (config (this w)) && is_some (av1Codec (this w)));
    cbn [when]; run; unfold tell; simpl; rewrite Hw, Hp;
    (split; [done|]); (split; [done|]);
    (split; [done|]); (split; [done|]);
    rewrite lookup_alter_eq, Htr; simpl; eauto.
Qed.

(** C8. When the ['ended'] event reaches a screen track that carries the
    handler installed by [setScreenStream], the client stops the captured
    audio track if there is one and clears [localScreenTrack]. It removes
    the track from the peer and sends ['screen_off'] when the socket and the
    peer both still exist at that moment, and does neither otherwise. *)
Theorem screen_source_ended
    (w : World) (t : TrackRef) (tr : MediaStreamTrack) (a : option TrackRef)
    (Hheap : tracks (browser w) !! t = Some tr)
    (Hhandler : onended tr = Some (MkOnended t a)) :
  let o := dispatch_ended t w in
  result_of o = Ok tt
  ∧ this (world_of o) = set_localScreenTrack None (this w)
  ∧ localScreenTrack (this (world_of o)) = None
  ∧ effects_of o
    = DispatchEnded t
      :: match a with Some a => [TrackStop a] | None => [] end
      ++ (if is_some (ws (this w)) && is_some (peer (this w))
          then [PeerRemoveTrack t; WsSend "screen_off" None]
          else []).
Proof.
  intros o. unfold o. rewrite dispatch_ended_run, Hheap, Hhandler.
  rewrite run_onended_run. simpl. done.
Qed.

Lemma screen_source_ended_witness :
  let o := dispatch_ended 2 sharing_world in
  result_of o = Ok tt
  ∧ this (world_of o) = set_localScreenTrack None (this sharing_world)
  ∧ localScreenTrack (this (world_of o)) = None
  ∧ effects_of o
    = [DispatchEnded 2; PeerRemoveTrack 2; WsSend "screen_off" None].
Proof.
  apply (screen_source_ended sharing_world 2
           (MkTrack video true live (Some (MkOnended 2 None))) None).
  - reflexivity.
  - reflexivity.
Defined.

(** C8, as first stated, fails: a client that shares its screen and is
    disconnected sees its screen track end, clears [localScreenTrack], and
    neither removes the track from the peer nor sends ['screen_off']. *)
Lemma screen_ended_by_disconnect_sends_no_screen_off :
  localScreenTrack (this sharing_world) = Some 2
  ∧ In (DispatchEnded 2) (effects_of (disconnect None sharing_world))
  ∧ localScreenTrack (this (world_of (disconnect None sharing_world))) = None
  ∧ ¬ In (WsSend "screen_off" None) (effects_of (disconnect None sharing_world))
  ∧ ¬ In (PeerRemoveTrack 2) (effects_of (disconnect None sharing_world)).
Proof.
  split; [reflexivity|]. split; [vm_compute; tauto|]. split; [reflexivity|].
  split; vm_compute; intros H;
    repeat (destruct H as [H|H]; [discriminate H|]); exact H.
Qed.

(** ** Teardown *)

Lemma quiet_step_refl w : quiet_step w w.
Proof. split; [|done]. by destruct (this w). Qed.

Lemma quiet_step_trans w1 w2 w3 :
  quiet_step w1 w2 → quiet_step w2 w3 → quiet_step w1 w3.
Proof.
  intros [H12 M12] [H23 M23]. split; [|congruence].
  rewrite H23 at 1. rewrite H12. reflexivity.
Qed.

Lemma quiet_step_peer w w' : quiet_step w w' → peer (this w') = peer (this w).
Proof. intros [-> _]. reflexivity. Qed.

Lemma quiet_step_getTracks w w' s :
  quiet_step w w' → getTracks (browser w') s = getTracks (browser w) s.
Proof. intros [_ H]. unfold getTracks. by rewrite H. Qed.

(** One round of the inner loop of [cleanup], on a client without a peer. *)
Lemma stop_dispatch_quiet t w :
  peer (this w) = None →
  ∃ w' e, (track_stop t >> dispatch_ended t) w = (Ok tt, w', TrackStop t :: e)
        ∧ quiet_step w w' ∧ forallb track_level e = true.
Proof.
  intros Hp. rewrite track_stop_run, dispatch_ended_run.
  cbn [this browser].
  destruct (tracks _ !! t) as [tr|];
    [destruct (onended tr) as [cl|]|].
  - rewrite run_onended_run. cbn [this browser result_of world_of effects_of fst snd].
    rewrite Hp, andb_false_r, app_nil_r.
    eexists _, _. split; [reflexivity|]. split.
    + split; [reflexivity|]. cbn [browser]. by destruct (cl_screenAudioTrack cl).
    + by destruct (cl_screenAudioTrack cl).
  - eexists _, _. split; [reflexivity|]. split; [|done]. split; [|done].
    cbn [this]. by destruct (this w).
  - eexists _, _. split; [reflexivity|]. split; [|done]. split; [|done].
    cbn [this]. by destruct (this w).
Qed.

Lemma stop_all_quiet ts w :
  peer (this w) = None →
  ∃ w' e, forEach ts (fun track => track_stop track >> dispatch_ended track) w
          = (Ok tt, w', e)
        ∧ quiet_step w w' ∧ forallb track_level e = true
        ∧ ∀ t, In t ts → In (TrackStop t) e.
Proof.
  revert w. induction ts as [|t ts IH]; intros w Hp.
  - exists w, []. split; [reflexivity|]. split; [apply quiet_step_refl|].
    split; [done|]. intros t [].
  - destruct (stop_dispatch_quiet t w Hp) as (w1 & e1 & H1 & Q1 & L1).
    assert (Hp1 : peer (this w1) = None) by (by rewrite (quiet_step_peer w w1)).
    destruct (IH w1 Hp1) as (w2 & e2 & H2 & Q2 & L2 & S2).
    exists w2, (TrackStop t :: e1 ++ e2).
    cbn [forEach]. rewrite (bind_Ok _ _ _ _ _ _ H1), H2.
    split; [reflexivity|]. split; [by eapply quiet_step_trans|].
    split.
    + cbn [forallb track_level]. rewrite forallb_app, L1, L2. done.
    + intros t' [<-|Hin]; [by left|]. right. apply in_or_app. right. by apply S2.
Qed.

Lemma cleanup_loop_quiet ss w :
  peer (this w) = None →
  ∃ w' e,
    forEach ss (fun s =>
      let* b := get_browser in
      forEach (getTracks b s) (fun track =>
        track_stop track >> dispatch_ended track)) w
    = (Ok tt, w', e)
    ∧ quiet_step w w' ∧ forallb track_level e = true
    ∧ ∀ s t, In s ss → In t (getTracks (browser w) s) → In (TrackStop t) e.
Proof.
  revert w. induction ss as [|s ss IH]; intros w Hp.
  - exists w, []. split; [reflexivity|]. split; [apply quiet_step_refl|].
    split; [done|]. intros s t [].
  - destruct (stop_all_quiet (getTracks (browser w) s) w Hp)
      as (w1 & e1 & H1 & Q1 & L1 & S1).
    assert (Hp1 : peer (this w1) = None) by (by rewrite (quiet_step_peer w w1)).
    destruct (IH w1 Hp1) as (w2 & e2 & H2 & Q2 & L2 & S2).
    exists w2, (e1 ++ e2).
    cbn [forEach].
    assert (Hs : (let* b := get_browser in
                  forEach (getTracks b s) (fun track =>
                    track_stop track >> dispatch_ended track)) w
                 = (Ok tt, w1, e1)).
    { by rewrite bind_get_browser. }
    rewrite (bind_Ok _ _ _ _ _ _ Hs), H2.
    split; [reflexivity|]. split; [by eapply quiet_step_trans|].
    split; [by rewrite forallb_app, L1, L2|].
    intros s' t [<-|Hin] Ht; apply in_or_app.
    + left. by apply S1.
    + right. apply (S2 s'); [done|]. by rewrite (quiet_step_getTracks w w1).
Qed.

Lemma cleanup_quiet w :
  peer (this w) = None →
  ∃ w' e, cleanup w = (Ok tt, w', e)
        ∧ quiet_step w w' ∧ forallb track_level e = true
        ∧ ∀ s t, In s (streams (this w)) → In t (getTracks (browser w) s) →
                 In (TrackStop t) e.
Proof.
  intros Hp. unfold cleanup. rewrite bind_get_this.
  by apply cleanup_loop_quiet.
Qed.

Lemma set_ws_id c : ws c = None → set_ws None c = c.
Proof. destruct c. simpl. by intros ->. Qed.

Lemma set_peer_id c : peer c = None → set_peer None c = c.
Proof. destruct c. simpl. by intros ->. Qed.

(** [disconnect] on a client that is already closed only logs. *)
Lemma disconnect_closed w err :
  closed (this w) = true →
  disconnect err w
  = (Ok tt, w, [Log Debug "disconnect"; Log Err "client already disconnected"]).
Proof.
  intros Hc. unfold disconnect, logDebug, logErr. run. by rewrite Hc.
Qed.

(** [disconnect] on a client that is not closed: the teardown, in order. *)
Lemma disconnect_open w err :
  closed (this w) = false →
  ∃ w1 e,
    disconnect err w
    = (Ok tt, w1,
       Log Debug "disconnect"
       :: (if is_some (rtcMonitor (this w)) then [MonitorStop] else [])
       ++ (if is_some (peer (this w)) then [PeerGetStats; PeerDestroy] else [])
       ++ e
       ++ (if is_some (ws (this w)) then [WsSend "leave" None; WsClose] else [])
       ++ [Emit "close" (Error err)])
    ∧ forallb track_level e = true
    ∧ (∀ s t, In s (streams (this w)) → In t (getTracks (browser w) s) →
              In (TrackStop t) e)
    ∧ this w1
      = set_ws None
          (set_localScreenTrack (localScreenTrack (this w1))
             (set_peer None (set_closed true (this w)))).
Proof.
  intros Hc.
  set (w0 := MkWorld (set_peer None (set_closed true (this w))) (browser w)).
  assert (Hp0 : peer (this w0) = None) by reflexivity.
  destruct (cleanup_quiet w0 Hp0) as (w1 & e & Hcl & [Hthis Hms] & Hlvl & Hstop).
  assert (Hafter :
    (cleanup >>
     let* c := get_this in
     when (is_some (ws c))
       (tell (WsSend "leave" None) >> tell WsClose >> upd_this (set_ws None)) >>
     emit "close" (Error err)) w0
    = (Ok tt, MkWorld (set_ws None (this w1)) (browser w1),
       e ++ (if is_some (ws (this w)) then [WsSend "leave" None; WsClose] else [])
         ++ [Emit "close" (Error err)])).
  { rewrite (bind_Ok _ _ _ _ _ _ Hcl). run.
    assert (Hws : ws (this w1) = ws (this w)) by (rewrite Hthis; reflexivity).
    rewrite Hws.
    destruct (ws (this w)) eqn:Hw; cbn [is_some when]; unfold emit; run;
      unfold tell; simpl.
    - reflexivity.
    - by rewrite (set_ws_id _ Hws), world_eta. }
  exists (MkWorld (set_ws None (this w1)) (browser w1)), e.
  split; [|split; [done|split; [exact Hstop|]]].
  - unfold disconnect, logDebug. run. rewrite Hc.
    destruct (rtcMonitor (this w)); destruct (peer (this w)) eqn:Hp;
      cbn [is_some when]; run.
    + change (MkWorld (set_peer None (set_closed true (this w))) (browser w)) with w0.
      by rewrite Hafter.
    + replace (MkWorld (set_closed true (this w)) (browser w)) with w0.
      * by rewrite Hafter.
      * unfold w0. f_equal. by apply set_peer_id.
    + change (MkWorld (set_peer None (set_closed true (this w))) (browser w)) with w0.
      by rewrite Hafter.
    + replace (MkWorld (set_closed true (this w)) (browser w)) with w0.
      * by rewrite Hafter.
      * unfold w0. f_equal. by apply set_peer_id.
  - cbn [this]. rewrite Hthis. reflexivity.
Qed.

Lemma filter_track_level (f : effect → bool) e :
  (∀ x, track_level x = true → f x = false) →
  forallb track_level e = true → List.filter f e = [].
Proof.
  intros Hf. induction e as [|x e IH]; [done|]. simpl.
  intros [Hx He]%andb_true_iff. rewrite (Hf x Hx). by apply IH.
Qed.

Lemma filter_cons_if {A} (f : A → bool) x l :
  List.filter f (x :: l) = (if f x then [x] else []) ++ List.filter f l.
Proof. simpl. by destruct (f x). Qed.

(** C4. On a client that is not closed yet, [disconnect] called twice tears
    down once: the first call stops the monitor, destroys the peer, stops
    every track of every stream, sends ['leave'] and closes the socket
    (each step for the component that exists) and emits ['close'] once;
    the second call returns normally, leaves the world as it is, and only
    logs: the debug line and the error-level line of the guard. *)
Theorem disconnect_twice_tears_down_once
    (w : World) (err1 err2 : option jsError)
    (Hopen : closed (this w) = false) :
  let o1 := disconnect err1 w in
  let o2 := disconnect err2 (world_of o1) in
  result_of o1 = Ok tt
  ∧ result_of o2 = Ok tt
  ∧ world_of o2 = world_of o1
  ∧ effects_of o2
    = [Log Debug "disconnect"; Log Err "client already disconnected"]
  ∧ (∃ e, forallb track_level e = true
        ∧ (∀ s t, In s (streams (this w)) → In t (getTracks (browser w) s) →
                  In (TrackStop t) e)
        ∧ effects_of o1
          = Log Debug "disconnect"
            :: (if is_some (rtcMonitor (this w)) then [MonitorStop] else [])
            ++ (if is_some (peer (this w)) then [PeerGetStats; PeerDestroy] else [])
            ++ e
            ++ (if is_some (ws (this w)) then [WsSend "leave" None; WsClose] else [])
            ++ [Emit "close" (Error err1)])
  ∧ List.filter (is_emit "close") (effects_of o1 ++ effects_of o2)
    = [Emit "close" (Error err1)]
  ∧ count (is_effect MonitorStop) (effects_of o1 ++ effects_of o2)
    = (if is_some (rtcMonitor (this w)) then 1 else 0)
  ∧ count (is_effect PeerDestroy) (effects_of o1 ++ effects_of o2)
    = (if is_some (peer (this w)) then 1 else 0)
  ∧ count (is_effect (WsSend "leave" None)) (effects_of o1 ++ effects_of o2)
    = (if is_some (ws (this w)) then 1 else 0)
  ∧ count (is_effect WsClose) (effects_of o1 ++ effects_of o2)
    = (if is_some (ws (this w)) then 1 else 0)
  ∧ closed (this (world_of o1)) = true
  ∧ peer (this (world_of o1)) = None
  ∧ ws (this (world_of o1)) = None.
Proof.
  intros o1 o2.
  destruct (disconnect_open w err1 Hopen) as (w1 & e & H1 & Hlvl & Hstop & Hthis).
  assert (Hclosed : closed (this w1) = true) by (rewrite Hthis; reflexivity).
  assert (H2 : o2 = (Ok tt, w1,
                     [Log Debug "disconnect"; Log Err "client already disconnected"])).
  { unfold o2, o1. rewrite H1. cbn [world_of fst snd].
    by apply disconnect_closed. }
  unfold o1 in *. rewrite H1, H2. cbn [result_of world_of effects_of fst snd].
  assert (Hf : ∀ f, (∀ x, track_level x = true → f x = false) →
                 List.filter f e = []).
  { intros f Hfx. by apply filter_track_level. }
  split; [done|]. split; [done|]. split; [done|]. split; [done|].
  split; [by exists e|].
  assert (Hcount : ∀ f, (∀ x, track_level x = true → f x = false) →
    List.filter f
      ((Log Debug "disconnect"
        :: (if is_some (rtcMonitor (this w)) then [MonitorStop] else [])
        ++ (if is_some (peer (this w)) then [PeerGetStats; PeerDestroy] else [])
        ++ e
        ++ (if is_some (ws (this w)) then [WsSend "leave" None; WsClose] else [])
        ++ [Emit "close" (Error err1)])
       ++ [Log Debug "disconnect"; Log Err "client already disconnected"])
    = List.filter f
        (Log Debug "disconnect"
         :: (if is_some (rtcMonitor (this w)) then [MonitorStop] else [])
         ++ (if is_some (peer (this w)) then [PeerGetStats; PeerDestroy] else [])
         ++ (if is_some (ws (this w)) then [WsSend "leave" None; WsClose] else [])
         ++ [Emit "close" (Error err1);
             Log Debug "disconnect"; Log Err "client already disconnected"])).
  { intros f Hfx.
    destruct (rtcMonitor (this w)), (peer (this w)), (ws (this w));
      cbn [is_some];
      repeat (rewrite List.filter_app || rewrite filter_cons_if);
      rewrite (Hf f Hfx); simpl; rewrite <- ?app_assoc; reflexivity. }
  unfold count.
  repeat split.
  - rewrite Hcount by (by intros []).
    by destruct (rtcMonitor (this w)), (peer (this w)), (ws (this w)).
  - rewrite Hcount by (by intros []).
    by destruct (rtcMonitor (this w)), (peer (this w)), (ws (this w)).
  - rewrite Hcount by (by intros []).
    by destruct (rtcMonitor (this w)), (peer (this w)), (ws (this w)).
  - rewrite Hcount by (by intros []).
    by destruct (rtcMonitor (this w)), (peer (this w)), (ws (this w)).
  - rewrite Hcount by (by intros []).
    by destruct (rtcMonitor (this w)), (peer (this w)), (ws (this w)).
  - done.
  - by rewrite Hthis.
  - by rewrite Hthis.
Qed.

Lemma disconnect_twice_tears_down_once_witness :
  let o1 := disconnect None sharing_world in
  let o2 := disconnect None (world_of o1) in
  world_of o2 = world_of o1
  ∧ effects_of o2
    = [Log Debug "disconnect"; Log Err "client already disconnected"]
  ∧ List.filter (is_emit "close") (effects_of o1 ++ effects_of o2)
    = [Emit "close" (Error None)].
Proof.
  destruct (disconnect_twice_tears_down_once sharing_world None None)
    as (_ & _ & Hw & He & _ & Hc & _).
  - reflexivity.
  - exact (conj Hw (conj He Hc)).
Defined.

(** C4, as first stated, fails in two places. The line the second call logs
    is written by [logErr], at error level, and no warning is logged. And
    on a client that is already closed, two calls tear nothing down and
    emit no ['close'] event at all. *)
Lemma second_disconnect_logs_an_error_and_closed_client_emits_nothing :
  effects_of (disconnect None (world_of (disconnect None connected_world)))
  = [Log Debug "disconnect"; Log Err "client already disconnected"]
  ∧ count (is_log_at Warn)
      (effects_of (disconnect None (world_of (disconnect None connected_world))))
    = 0
  ∧ closed (this closed_world) = true
  ∧ count (is_emit "close")
      (effects_of (disconnect None closed_world)
       ++ effects_of (disconnect None (world_of (disconnect None closed_world))))
    = 0.
Proof. repeat split; vm_compute; reflexivity. Qed.

(** ** Device selection and fallback *)

Lemma find_filter_imp {A} (p q : A → bool) l :
  (∀ x, p x = true → q x = true) →
  List.find p (List.filter q l) = List.find p l.
Proof.
  intros Hpq. induction l as [|x l IH]; [done|]. simpl.
  destruct (p x) eqn:Hp.
  - rewrite (Hpq x Hp). simpl. by rewrite Hp.
  - destruct (q x); simpl; [by rewrite Hp|done].
Qed.

Lemma find_None_filter_or {A} (p r : A → bool) l :
  List.find p l = None →
  List.filter (fun x => p x || r x) l = List.filter r l.
Proof.
  induction l as [|x l IH]; [done|]. simpl.
  destruct (p x) eqn:Hp; [done|]. intros H. simpl. by rewrite (IH H).
Qed.

Lemma find_Some_filter {A} (p q : A → bool) l d :
  (∀ x, p x = true → q x = true) →
  List.find p l = Some d → In d (List.filter q l).
Proof.
  intros Hpq Hf. apply find_some in Hf as [Hin Hp].
  apply filter_In. split; [done|]. by apply Hpq.
Qed.

Lemma getSelectedAudioDevice_policy ty w :
  ∃ t, getSelectedAudioDevice ty w = (Ok (selected_device ty w), w, t)
     ∧ forallb is_log t = true.
Proof.
  unfold getSelectedAudioDevice, selected_device. run.
  set (sel := read_pref (localStorage (browser w) !! storage_key ty)).
  set (devs := devices_of ty (this w)).
  case_bool_decide; [by eexists|].
  unfold preferred_by_policy.
  assert (Himp : ∀ x, matches_id sel x = true → matches_pref sel x = true).
  { intros x Hx. unfold matches_pref. unfold matches_id in Hx. by rewrite Hx. }
  pose proof (find_filter_imp (matches_id sel) (matches_pref sel) devs Himp) as Hff.
  destruct (List.find (matches_id sel) devs) as [d|] eqn:Hfind.
  - pose proof (find_Some_filter _ (matches_pref sel) _ _ Himp Hfind) as Hin.
    destruct (List.filter (matches_pref sel) devs) as [|d1 [|d2 l]] eqn:HF.
    + destruct Hin.
    + destruct Hin as [->|[]]. unfold logDebug. run. by eexists.
    + unfold logInfo. run. rewrite Hff. by eexists.
  - assert (HF : List.filter (matches_pref sel) devs
                 = List.filter (fun dev => bool_decide (Some (label dev) = pref_label sel)) devs).
    { by apply (find_None_filter_or (matches_id sel)). }
    rewrite <- HF.
    destruct (List.filter (matches_pref sel) devs) as [|d1 [|d2 l]].
    + unfold logDebug. run. by eexists.
    + unfold logDebug. run. by eexists.
    + unfold logInfo. run. rewrite Hff. by eexists.
Qed.

Lemma filter_logs_devicefallback t :
  forallb is_log t = true → List.filter (is_emit "devicefallback") t = [].
Proof.
  induction t as [|x t IH]; [done|]. simpl.
  intros [Hx Ht]%andb_true_iff. destruct x; try done. simpl. by apply IH.
Qed.

Lemma setAudioOutputDevice_run d w :
  peer (this w) ≠ None →
  setAudioOutputDevice d false w
  = (Ok tt,
     MkWorld (set_currentAudioOutputDevice (Some d) (this w)) (browser w),
     [Emit "devicechange" (Devices (audioDevices (this w)))]).
Proof.
  intros Hp. unfold setAudioOutputDevice, emit. run.
  destruct (peer (this w)); [|done]. simpl. run. reflexivity.
Qed.

Lemma getUserMedia_granted exact w rest :
  env_media (browser w) = true :: rest →
  ∃ s t b2, getUserMedia exact w = (Ok s, MkWorld (this w) b2, [GetUserMedia exact])
          ∧ head (getAudioTracks b2 s) = Some t
          ∧ localStorage b2 = localStorage (browser w).
Proof.
  intros Henv. unfold getUserMedia. run. rewrite Henv.
  unfold new_MediaStream. run. cbn [next_ref set_env_media set_next_ref].
  eexists _, (next_ref (browser w)), _. split; [reflexivity|]. split; [|done].
  unfold getAudioTracks, getTracks, has_kind. simpl.
  rewrite lookup_insert_eq. simpl. by rewrite lookup_insert_eq.
Qed.

Lemma keeps_other_refl ty w : keeps_other ty w w.
Proof. by repeat split. Qed.

Lemma setAudioOutputDevice_keeps d w :
  keeps_other output w
    (MkWorld (set_currentAudioOutputDevice (Some d) (this w)) (browser w)).
Proof. repeat split. intros [] H; [reflexivity | done]. Qed.

Lemma setAudioInputDevice_granted fuel d w :
  peer (this w) ≠ None → reacquires input w →
  ∃ w' e, setAudioInputDevice fuel d false w = (Ok tt, w', e)
        ∧ currentAudioInputDevice (this w') = Some d
        ∧ List.filter (is_emit "devicefallback") e = []
        ∧ keeps_other input w w'.
Proof.
  intros Hp ([old Hold] & [st Hst] & Hmedia).
  destruct (env_media (browser w)) as [|g rest] eqn:Henv; [done|].
  simpl in Hmedia. injection Hmedia as ->.
  unfold setAudioInputDevice, setAudioInputDevice_with, emit. run.
  destruct (peer (this w)) eqn:Hpw; [|done]. simpl. run.
  cbn [audioTrack stream set_currentAudioInputDevice]. rewrite Hold, Hst.
  run. rewrite track_stop_run.
  set (w1 := MkWorld _ _).
  assert (Henv1 : env_media (browser w1) = true :: rest) by exact Henv.
  destruct (getUserMedia_granted (Some (deviceId d)) w1 rest Henv1)
    as (s & t & b2 & Hgum & Hhead & Hls).
  rewrite (bind_Ok _ _ _ _ _ _ Hgum).
  unfold stream_removeTrack, stream_addTrack, track_set_enabled. run.
  rewrite Hhead. run.
  assert (Hk : ∀ ty', ty' ≠ input →
            current_of ty' (set_currentAudioInputDevice (Some d) (this w))
            = current_of ty' (this w)).
  { intros [] H; [done | reflexivity]. }
  destruct (track_enabled (browser w) old).
  - run. cbn [voiceTrackAdded set_streams set_currentAudioInputDevice w1 this].
    destruct (voiceTrackAdded (this w)); unfold logDebug; run; unfold upd_this;
      cbn [result_of world_of effects_of fst snd this browser];
      eexists _, _; (split; [reflexivity|]); simpl;
      (split; [done|]); (split; [done|]);
      (split; [done|]); (split; [by rewrite Hpw|]); (split; [done|]);
      intros [] H; done.
  - run. unfold upd_this.
    cbn [result_of world_of effects_of fst snd this browser].
    eexists _, _. split; [reflexivity|]. simpl.
    (split; [done|]); (split; [done|]);
      (split; [done|]); (split; [by rewrite Hpw|]); (split; [done|]);
      intros [] H; done.
Qed.


Lemma set_device_granted fuel ty d w :
  peer (this w) ≠ None → reacquires ty w →
  ∃ w' e, set_device_with (setAudioInputDevice fuel) ty d w = (Ok tt, w', e)
        ∧ current_of ty (this w') = Some d
        ∧ List.filter (is_emit "devicefallback") e = []
        ∧ keeps_other ty w w'.
Proof.
  intros Hp Hre. destruct ty; simpl.
  - by apply setAudioInputDevice_granted.
  - rewrite setAudioOutputDevice_run by done. eexists _, _.
    split; [reflexivity|]. split; [done|]. split; [done|].
    apply setAudioOutputDevice_keeps.
Qed.

Lemma switch_device_granted fuel ty msg d w :
  peer (this w) ≠ None → reacquires ty w →
  ∃ w' e, switch_device_with (setAudioInputDevice fuel) ty msg d w = (Ok tt, w', e)
        ∧ current_of ty (this w') = Some d
        ∧ List.filter (is_emit "devicefallback") e = [Emit "devicefallback" (Device d)]
        ∧ keeps_other ty w w'.
Proof.
  intros Hp Hre.
  destruct (set_device_granted fuel ty d w Hp Hre) as (w' & e & H & Hc & Hf & Hk).
  unfold switch_device_with, logDebug, emit. run.
  rewrite (bind_Ok _ _ _ _ _ _ H). unfold tell.
  cbn [result_of world_of effects_of fst snd].
  eexists _, _. split; [reflexivity|]. split; [done|]. split; [|done].
  cbn [List.filter is_emit]. rewrite List.filter_app, Hf. reflexivity.
Qed.

(** One call of [handleAudioDeviceFallback] on a client with a peer: the
    selection of the kind moves to the target the code computes, with one
    notification, or nothing changes. The microphone is needed only when
    the input selection moves. *)
Lemma handleAudioDeviceFallback_run fuel ty w :
  peer (this w) ≠ None →
  (fallback_target ty w ≠ None → reacquires ty w) →
  let o := handleAudioDeviceFallback fuel ty w in
  result_of o = Ok tt
  ∧ current_of ty (this (world_of o))
    = match fallback_target ty w with
      | Some d => Some d
      | None => current_of ty (this w)
      end
  ∧ List.filter (is_emit "devicefallback") (effects_of o)
    = match fallback_target ty w with
      | Some d => [Emit "devicefallback" (Device d)]
      | None => []
      end
  ∧ keeps_other ty w (world_of o).
Proof.
  intros Hpeer Hre o. unfold o. clear o.
  destruct (getSelectedAudioDevice_policy ty w) as (t & Hsel & Hlog).
  pose proof (filter_logs_devicefallback t Hlog) as Ht.
  unfold handleAudioDeviceFallback, handleAudioDeviceFallback_with.
  rewrite bind_get_this. unfold fallback_target in *.
  assert (Hback :
    (match selected_device ty w with
     | Some sd =>
         if bool_decide (Some (label sd) = label <$> current_of ty (this w))
         then None else Some sd
     | None => None
     end ≠ None → reacquires ty w) →
    let o := switch_back_with (setAudioInputDevice fuel) ty (current_of ty (this w)) w in
    let target :=
      match selected_device ty w with
      | Some sd =>
          if bool_decide (Some (label sd) = label <$> current_of ty (this w))
          then None else Some sd
      | None => None
      end in
    result_of o = Ok tt
    ∧ current_of ty (this (world_of o))
      = match target with Some d => Some d | None => current_of ty (this w) end
    ∧ List.filter (is_emit "devicefallback") (effects_of o)
      = match target with Some d => [Emit "devicefallback" (Device d)] | None => [] end
    ∧ keeps_other ty w (world_of o)).
  { intros Hre'. unfold switch_back_with. rewrite (bind_Ok _ _ _ _ _ _ Hsel).
    cbn [result_of world_of effects_of fst snd].
    destruct (selected_device ty w) as [sd|].
    - destruct (bool_decide _); cbn [negb].
      + cbn. rewrite app_nil_r. split; [done|]. split; [done|]. split; [done|].
        apply keeps_other_refl.
      + destruct (switch_device_granted fuel ty
                    (with_type "selected audio " ty " device is back, switching")
                    sd w Hpeer (Hre' ltac:(done)))
          as (w' & e & H & Hc & Hf & Hk).
        rewrite H. cbn [result_of world_of effects_of fst snd].
        rewrite List.filter_app, Ht, Hf. done.
    - cbn. rewrite app_nil_r. split; [done|]. split; [done|]. split; [done|].
      apply keeps_other_refl. }
  destruct (existsb _ _); cbn [negb]; [by apply Hback|].
  destruct (devices_of ty (this w)) as [|d0 l]; [by apply Hback|].
  destruct (switch_device_granted fuel ty
    (with_type "selected audio " ty
       " device not available, falling back to system default")
    d0 w Hpeer (Hre ltac:(done))) as (w' & e & H & Hc & Hf & Hk).
  rewrite H. done.
Qed.

(** Where labels tell the preferred device from the current one, the
    target the code computes for an examined kind is the one the claim
    asks for. *)
Lemma fallback_target_policy ty w :
  current_of ty (this w) ≠ None →
  ¬ same_label_twin ty w →
  fallback_target ty w = policy_target ty w.
Proof.
  intros Hcur Htwin. unfold fallback_target, policy_target.
  destruct (current_of ty (this w)) as [cd|] eqn:Hc; [|done].
  assert (Hback :
    match existsb (same_id_as (Some cd)) (devices_of ty (this w)),
          devices_of ty (this w) with
    | false, _ :: _ => False
    | _, _ => True
    end →
    match selected_device ty w with
    | Some sd => if bool_decide (Some (label sd) = label <$> Some cd)
                 then None else Some sd
    | None => None
    end
    = match selected_device ty w with
      | Some sd => if bool_decide (sd = cd) then None else Some sd
      | None => None
      end).
  { intros Hbranch. destruct (selected_device ty w) as [sd|] eqn:Hs; [|done].
    simpl. destruct (decide (sd = cd)) as [->|Hne].
    - by rewrite !bool_decide_eq_true_2.
    - rewrite (bool_decide_eq_false_2 (sd = cd)) by done.
      rewrite bool_decide_eq_false_2; [done|].
      intros [= Hl]. apply Htwin. exists cd, sd. rewrite Hc. done. }
  destruct (existsb _ _) eqn:He.
  - apply Hback. done.
  - destruct (devices_of ty (this w)) as [|d0 l] eqn:Hd; [|done].
    apply Hback. done.
Qed.


Lemma selected_device_keeps ty ty' w w' :
  keeps_other ty' w w' → selected_device ty w' = selected_device ty w.
Proof.
  intros (Had & _ & Hls & _). unfold selected_device.
  rewrite Hls. destruct ty; unfold devices_of; by rewrite Had.
Qed.

Lemma policy_target_keeps ty ty' w w' :
  keeps_other ty' w w' → ty ≠ ty' →
  policy_target ty w' = policy_target ty w
  ∧ (same_label_twin ty w' → same_label_twin ty w).
Proof.
  intros Hk Hne. pose proof (selected_device_keeps ty ty' w w' Hk) as Hs.
  destruct Hk as (Had & _ & _ & Hcur). specialize (Hcur ty Hne).
  assert (Hd : devices_of ty (this w') = devices_of ty (this w))
    by (destruct ty; unfold devices_of; by rewrite Had).
  split.
  - unfold policy_target. by rewrite Hcur, Hd, Hs.
  - intros (cd & sd & H1 & H2 & H3 & H4). exists cd, sd.
    by rewrite <- Hcur, <- Hd, <- Hs.
Qed.

(** [updateDevices] examines a kind: nothing if it has no current device,
    [handleAudioDeviceFallback] otherwise. *)
Lemma examine_kind fuel ty w :
  peer (this w) ≠ None →
  (policy_target ty w ≠ None → reacquires ty w) →
  ¬ same_label_twin ty w →
  ∃ w' e,
    when (is_some (current_of ty (this w))) (handleAudioDeviceFallback fuel ty) w
    = (Ok tt, w', e)
    ∧ current_of ty (this w')
      = match policy_target ty w with
        | Some d => Some d
        | None => current_of ty (this w)
        end
    ∧ List.filter (is_emit "devicefallback") e
      = match policy_target ty w with
        | Some d => [Emit "devicefallback" (Device d)]
        | None => []
        end
    ∧ keeps_other ty w w'.
Proof.
  intros Hpeer Hre Htwin.
  destruct (current_of ty (this w)) as [cd|] eqn:Hc; cbn [is_some when].
  - assert (Hcur : current_of ty (this w) ≠ None) by (by rewrite Hc).
    pose proof (fallback_target_policy ty w Hcur Htwin) as Ht.
    rewrite <- Ht in Hre.
    destruct (handleAudioDeviceFallback_run fuel ty w Hpeer Hre)
      as (Hr & Hcurrent & Hf & Hk).
    rewrite Ht, Hc in Hcurrent. rewrite Ht in Hf.
    exists (world_of (handleAudioDeviceFallback fuel ty w)),
           (effects_of (handleAudioDeviceFallback fuel ty w)).
    split; [|done].
    destruct (handleAudioDeviceFallback fuel ty w) as [[r w'] e].
    cbn in Hr. by subst r.
  - exists w, []. unfold policy_target. rewrite Hc.
    split; [reflexivity|]. split; [done|]. split; [done|].
    apply keeps_other_refl.
Qed.

Lemma try_catch_returns {A} (body : M A) h w a w1 t1 :
  body w = (Ok a, w1, t1) → try_catch body h w = (Ok a, w1, t1).
Proof. intros H. unfold try_catch. by rewrite H. Qed.

(** C6. A re-enumeration by [updateDevices] on a client with a peer, when
    the platform enumerates the devices. The input kind is examined, then
    the output kind, each if it has a current device. The selection of an
    examined kind moves to the first enumerated device of the kind when
    the id of its current device is not enumerated and some device of the
    kind is; otherwise to the persisted preferred device when that is
    enumerated (by id first, by label only if no id matches and one device
    alone carries the label) and differs from the current one. Exactly one
    ['devicefallback'] event carries the new device of a kind that moves;
    a kind that does not move keeps its device and has no such event. The
    persisted preferences are not rewritten. Two things are assumed: when
    the input selection is to move, the client has a microphone track and
    stream and the platform grants the new capture; and no preferred
    device that is another device than the current one carries the
    current one's label. *)
Theorem device_fallback_follows_policy
    (n : nat) (w : World) (ds : list MediaDeviceInfo)
    (later : list (option (list MediaDeviceInfo)))
    (Hpeer : peer (this w) ≠ None)
    (Henum : env_devices (browser w) = Some ds :: later)
    (Hmic : policy_target input (enumerated_world ds later w) ≠ None →
            reacquires input w)
    (Hlabels : ∀ ty, ¬ same_label_twin ty (enumerated_world ds later w)) :
  let w1 := enumerated_world ds later w in
  let o := updateDevices (S n) w in
  let notification ty :=
    match policy_target ty w1 with
    | Some d => [Emit "devicefallback" (Device d)]
    | None => []
    end in
  result_of o = Ok tt
  ∧ (∀ ty, current_of ty (this (world_of o))
           = match policy_target ty w1 with
             | Some d => Some d
             | None => current_of ty (this w)
             end)
  ∧ List.filter (is_emit "devicefallback") (effects_of o)
    = notification input ++ notification output
  ∧ localStorage (browser (world_of o)) = localStorage (browser w)
  ∧ audioDevices (this (world_of o)) = audioDevices (this w1)
  ∧ ∀ ty, result_of (getSelectedAudioDevice ty w1) = Ok (selected_device ty w1).
Proof.
  intros w1 o notification.
  assert (Hp1 : peer (this w1) ≠ None) by exact Hpeer.
  destruct (examine_kind n input w1 Hp1 Hmic (Hlabels input))
    as (w2 & e2 & H2 & C2 & F2 & K2).
  assert (Hio : output ≠ input) by discriminate.
  destruct (policy_target_keeps output input w1 w2 K2 Hio) as [T2 Tw2].
  assert (Hp2 : peer (this w2) ≠ None).
  { destruct K2 as (_ & Hp & _). by rewrite Hp. }
  destruct (examine_kind n output w2 Hp2 (fun _ => I)
              (fun H => Hlabels output (Tw2 H)))
    as (w3 & e3 & H3 & C3 & F3 & K3).
  rewrite T2 in C3, F3.
  assert (Ho : o = (Ok tt, w3,
                    [Log Debug "a/v device change detected"; EnumerateDevices]
                    ++ e2 ++ e3
                    ++ [Emit "devicechange" (Devices (audioDevices (this w3)))])).
  { unfold o. cbn [updateDevices]. unfold updateDevices_with, logDebug. run.
    fold (initAudio n). fold (setAudioInputDevice n).
    fold (handleAudioDeviceFallback n).
    erewrite try_catch_returns; [reflexivity|].
    unfold enumerateDevices. run. rewrite Henum. run.
    change (MkWorld _ _) with w1.
    change (currentAudioInputDevice (this w1)) with (current_of input (this w1)).
    rewrite (bind_Ok _ _ _ _ _ _ H2). run.
    change (currentAudioOutputDevice (this w2)) with (current_of output (this w2)).
    rewrite (bind_Ok _ _ _ _ _ _ H3). unfold emit. run.
    reflexivity. }
  rewrite Ho. cbn [result_of world_of effects_of fst snd].
  destruct K2 as (A2 & _ & L2 & O2). destruct K3 as (A3 & _ & L3 & O3).
  split; [done|]. split.
  { intros [].
    - rewrite (O3 input) by discriminate. exact C2.
    - rewrite C3. destruct (policy_target output w1); [done|].
      by rewrite (O2 output). }
  split.
  { rewrite !List.filter_app, F2, F3. cbn. by rewrite app_nil_r. }
  split; [by rewrite L3, L2|]. split; [by rewrite A3, A2|].
  intros ty. destruct (getSelectedAudioDevice_policy ty w1) as (t & Hs & _).
  by rewrite Hs.
Qed.

Lemma device_fallback_follows_policy_witness :
  (let o := updateDevices 1 mic_swap_granted_world in
   current_of input (this mic_swap_granted_world) = Some mic1
   ∧ current_of input (this (world_of o)) = Some mic2
   ∧ current_of output (this (world_of o)) = Some spk1
   ∧ List.filter (is_emit "devicefallback") (effects_of o)
     = [Emit "devicefallback" (Device mic2)])
  ∧ (let o := updateDevices 1 headset_world in
     current_of output (this headset_world) = Some spk2
     ∧ current_of output (this (world_of o)) = Some spk1
     ∧ List.filter (is_emit "devicefallback") (effects_of o)
       = [Emit "devicefallback" (Device spk1)])
  ∧ (let o := updateDevices 1 (world_of (updateDevices 1 headset_world)) in
     current_of output (this (world_of o)) = Some spk2
     ∧ List.filter (is_emit "devicefallback") (effects_of o)
       = [Emit "devicefallback" (Device spk2)]).
Proof.
  split; [|split].
  - destruct (device_fallback_follows_policy 0 mic_swap_granted_world
                [mic2; spk1] []) as (_ & Hc & He & _).
    + discriminate.
    + reflexivity.
    + intros _. repeat split; vm_compute; eauto.
    + intros ty (cd & sd & _ & _ & Hs & _).
      destruct ty; vm_compute in Hs; discriminate Hs.
    + split; [reflexivity|]. exact (conj (Hc input) (conj (Hc output) He)).
  - destruct (device_fallback_follows_policy 0 headset_world
                [mic1; spk1] [Some [mic1; spk1; spk2]]) as (_ & Hc & He & _).
    + discriminate.
    + reflexivity.
    + intros Hmove. exfalso. apply Hmove. vm_compute. reflexivity.
    + intros ty (cd & sd & Hcur & Hstay & Hs & _). destruct ty.
      * vm_compute in Hs. discriminate Hs.
      * vm_compute in Hcur. injection Hcur as <-. vm_compute in Hstay.
        exact Hstay.
    + split; [reflexivity|]. exact (conj (Hc output) He).
  - destruct (device_fallback_follows_policy 0
                (world_of (updateDevices 1 headset_world))
                [mic1; spk1; spk2] []) as (_ & Hc & He & _).
    + vm_compute. discriminate.
    + vm_compute. reflexivity.
    + intros Hmove. exfalso. apply Hmove. vm_compute. reflexivity.
    + intros ty (cd & sd & Hcur & _ & Hs & _ & Hl). destruct ty.
      * vm_compute in Hs. discriminate Hs.
      * vm_compute in Hcur. injection Hcur as <-.
        vm_compute in Hs. injection Hs as <-. discriminate Hl.
    + exact (conj (Hc output) He).
Defined.


(** The scenario of section 8 through [updateDevices]: the preferred
    headset disappears and the output falls back to the first enumerated
    device with one notification; it reappears and the output switches
    back with one more. *)
Lemma device_fallback_scenario :
  let o1 := updateDevices 1 headset_world in
  let o2 := updateDevices 1 (world_of o1) in
  current_of output (this headset_world) = Some spk2
  ∧ result_of o1 = Ok tt
  ∧ current_of output (this (world_of o1)) = Some spk1
  ∧ List.filter (is_emit "devicefallback") (effects_of o1)
    = [Emit "devicefallback" (Device spk1)]
  ∧ result_of o2 = Ok tt
  ∧ current_of output (this (world_of o2)) = Some spk2
  ∧ List.filter (is_emit "devicefallback") (effects_of o2)
    = [Emit "devicefallback" (Device spk2)].
Proof. repeat split; vm_compute; reflexivity. Qed.

(** C6, as first stated, fails on three paths of [updateDevices]. Without
    a peer connection the setters return at their guard: the re-enumeration
    that no longer has the current devices emits the notifications and
    leaves the selection where it was. When the platform refuses the
    capture on the microphone that is fallen back to, the setter throws
    and [updateDevices] catches: the input selection has moved with no
    notification, and the output kind, whose current device is gone as
    well, is never examined. On a client without microphone track the
    setter goes through [initAudio], which follows the persisted
    preference: the notification names the first enumerated microphone
    while the selection is the preferred one. *)
Lemma fallback_without_peer_capture_or_track :
  (let o := updateDevices 1 joining_world in
   current_of output (this joining_world) = Some spk1
   ∧ outputs (audioDevices (this (world_of o))) = [spk2]
   ∧ current_of output (this (world_of o)) = Some spk1
   ∧ List.filter (is_emit "devicefallback") (effects_of o)
     = [Emit "devicefallback" (Device mic2);
        Emit "devicefallback" (Device spk2)])
  ∧ (let o := updateDevices 1 both_unplugged_refused_world in
     peer (this both_unplugged_refused_world) = Some tt
     ∧ result_of o = Ok tt
     ∧ audioDevices (this (world_of o)) = MkAudioDevices [mic2] [spk1]
     ∧ current_of input (this both_unplugged_refused_world) = Some mic1
     ∧ current_of input (this (world_of o)) = Some mic2
     ∧ current_of output (this both_unplugged_refused_world) = Some spk2
     ∧ current_of output (this (world_of o)) = Some spk2
     ∧ List.filter (is_emit "devicefallback") (effects_of o) = [])
  ∧ (let o := updateDevices 2 no_track_preferred_world in
     peer (this no_track_preferred_world) = Some tt
     ∧ audioTrack (this no_track_preferred_world) = None
     ∧ result_of o = Ok tt
     ∧ inputs (audioDevices (this (world_of o))) = [mic2; mic3]
     ∧ current_of input (this no_track_preferred_world) = Some mic1
     ∧ current_of input (this (world_of o)) = Some mic3
     ∧ List.filter (is_emit "devicefallback") (effects_of o)
       = [Emit "devicefallback" (Device mic2)]).
Proof.
  split; [|split]; repeat split; vm_compute; reflexivity.
Qed.

(** The case the theorem leaves open. The comment in
    [handleAudioDeviceFallback] says that the stored device is switched to
    when it comes back; the test under it compares labels. A preferred
    device that is enumerated again, and is another device than the
    current one, is not switched to when both carry the same label. *)
Lemma same_label_preferred_device_is_not_switched_to :
  let o := updateDevices 1 twin_headset_world in
  same_label_twin output (enumerated_world [mic1; spk3; spk2] [] twin_headset_world)
  ∧ outputs (audioDevices (this (world_of o))) = [spk3; spk2]
  ∧ selected_device output (world_of o) = Some spk2
  ∧ current_of output (this twin_headset_world) = Some spk3
  ∧ spk2 ≠ spk3
  ∧ current_of output (this (world_of o)) = Some spk3
  ∧ List.filter (is_emit "devicefallback") (effects_of o) = [].
Proof.
  split.
  - exists spk3, spk2. repeat split; try (vm_compute; reflexivity). discriminate.
  - repeat split; try (vm_compute; reflexivity). discriminate.
Qed.

End ClientFacts.

(** * Further properties of the session registry *)

Module ServerLaws.
Import Server ServerFacts.

Section WithChannelFields.

Context {Extra : Type} (extra0 : Extra) (maxRetries : nat).

Implicit Types (p : Plugin Extra) (st : channelState Extra) (c : callState).
Implicit Types (cn : list (channelState Extra)).

Lemma kvSetAtomic_attempts_other n ch (cb : transform Extra) cn st p ch' :
  ch' ≠ ch →
  kv (fst (fst (kvSetAtomic_attempts n ch cb cn st p))) !! ch' = kv p !! ch'.
Proof.
  intros Hne. revert cn st p. induction n as [|n IH]; intros cn st p; [done|].
  simpl. destruct (cb (kv p !! ch) st) as [[[s|] [e|]] st']; try done.
  destruct cn as [|theirs rest].
  - simpl. by rewrite lookup_insert_ne.
  - rewrite IH. simpl. by rewrite lookup_insert_ne.
Qed.

(** X1. [removeUserSession] deletes the user's session from the registry
    before it touches the store, so the session is gone whatever the store
    does afterwards, under any concurrent writers and any retry bound. When
    the channel has no record, or its record has no call, the call fails
    with the matching error and the store keeps what it had. *)
Theorem remove_always_drops_session
    (p : Plugin Extra) (u ch : string) (cn : list (channelState Extra)) :
  let o := removeUserSession extra0 maxRetries u ch cn p in
  sessions (fst o) = delete u (sessions p)
  ∧ sessions (fst o) !! u = None
  ∧ (kv p !! ch = None →
     snd (snd o) = Some errChannelStateMissing ∧ kv (fst o) = kv p)
  ∧ (∀ st, kv p !! ch = Some st → Call st = None →
     snd (snd o) = Some errCallStateMissing ∧ kv (fst o) = kv p).
Proof.
  intros o.
  assert (Hs : sessions (fst o) = delete u (sessions p)).
  { unfold o, removeUserSession, kvSetAtomicChannelState.
    pose proof (kvSetAtomic_attempts_sessions (S maxRetries) ch
                  (removeUserSession_cb u) cn (zeroChannelState extra0)
                  (set_sessions (delete u)
                     (LogDebug (LogLine "removing session" u ch) p))) as H.
    destruct (kvSetAtomic_attempts _ _ _ _ _ _) as [[p' e] st']. exact H. }
  split; [done|]. split; [by rewrite Hs, lookup_delete_eq|]. split.
  - intros Hl. unfold o. by rewrite (removeUserSession_missing _ _ _ _ _ _ Hl).
  - intros st Hl Hc. unfold o.
    by rewrite (removeUserSession_no_call _ _ _ _ _ _ _ Hl Hc).
Qed.

(** X2. Round trip. On a channel whose record satisfies the invariant, a join
    by a user who is not in the call, followed by the leave of that user
    (both alone on the store), succeeds and gives back the record the
    channel had: the store is what it was, a call created by the join is
    closed again, and the registry has no session for the user. *)
Theorem join_then_leave_restores_store
    (p : Plugin Extra) (u ch : string) (s : session) (i : string) (t : Z)
    (st : channelState Extra)
    (Hrec : kv p !! ch = Some st)
    (Hinv : call_iff_members st)
    (Hnew : u ∉ members st) :
  let o1 := addUserSession extra0 maxRetries u ch s i t [] p in
  let o2 := removeUserSession extra0 maxRetries u ch [] (fst o1) in
  snd (snd o1) = None
  ∧ snd o2 = (st, None)
  ∧ kv (fst o2) = kv p
  ∧ sessions (fst o2) = delete u (sessions p).
Proof.
  intros o1 o2.
  unfold o2, o1. rewrite (addUserSession_record _ _ _ _ _ _ _ _ _ Hrec).
  cbn [fst snd].
  erewrite removeUserSession_record; [|simpl; by rewrite lookup_insert_eq].
  cbn [fst snd ID StartAt Users].
  destruct st as [call x]. unfold members, call_iff_members in *. simpl in *.
  assert (Hd : ∀ U : gset string, u ∉ U → ({[u]} ∪ U) ∖ {[u]} = U).
  { intros U HU. apply set_eq. intros y.
    rewrite elem_of_difference, elem_of_union, !elem_of_singleton.
    split; [intros [[->|Hy] Hn]; done|]. intros Hy. split; [by right|].
    intros ->. done. }
  assert (Hst : (if decide (({[u]} ∪ Users (default (CallState i t ∅) call)) ∖ {[u]} = ∅)
                 then ChannelState None x
                 else ChannelState
                        (Some (CallState (ID (default (CallState i t ∅) call))
                                 (StartAt (default (CallState i t ∅) call))
                                 (({[u]} ∪ Users (default (CallState i t ∅) call)) ∖ {[u]}))) x)
                = ChannelState call x).
  { destruct call as [c|]; simpl.
    - rewrite (Hd (Users c) Hnew).
      rewrite decide_False; [by destruct c|]. apply Hinv. eauto.
    - rewrite (Hd ∅) by apply not_elem_of_empty. by rewrite decide_True. }
  rewrite Hst. simpl. split; [done|]. split; [done|]. split.
  - rewrite insert_insert_eq. by apply insert_id.
  - apply map_eq. intros v. destruct (decide (v = u)) as [->|Hv].
    + by rewrite !lookup_delete_eq.
    + by rewrite !lookup_delete_ne, lookup_insert_ne.
Qed.

(** X3. Joining is idempotent on the call. A second [addUserSession] of the
    same user on the same channel returns the record of the first and
    leaves the store as the first left it: the call keeps its identifier
    and start time, however the second call's fresh identifier and clock
    read, and the member set does not grow. Only the registry changes: it
    holds the session of the second call. *)
Theorem join_twice_is_one_join
    (p : Plugin Extra) (u ch : string) (s1 s2 : session) (i1 i2 : string)
    (t1 t2 : Z) (st : channelState Extra)
    (Hrec : kv p !! ch = Some st) :
  let o1 := addUserSession extra0 maxRetries u ch s1 i1 t1 [] p in
  let o2 := addUserSession extra0 maxRetries u ch s2 i2 t2 [] (fst o1) in
  snd o2 = snd o1
  ∧ kv (fst o2) = kv (fst o1)
  ∧ sessions (fst o2) !! u = Some s2.
Proof.
  intros o1 o2. unfold o2, o1.
  rewrite (addUserSession_record _ _ _ _ _ _ _ _ _ Hrec). cbn [fst snd].
  erewrite addUserSession_record; [|simpl; by rewrite lookup_insert_eq].
  simpl.
  assert (Hu : ∀ U : gset string, {[u]} ∪ ({[u]} ∪ U) = {[u]} ∪ U).
  { intros U. by rewrite (assoc_L (∪)), (idemp_L (∪)). }
  rewrite Hu. split; [done|]. split.
  - by rewrite insert_insert_eq.
  - by rewrite lookup_insert_eq.
Qed.

(** X4. [removeUserSession] for a user who is not a member of the ongoing
    call succeeds, without any error, and returns and stores the record
    unchanged: the call and its members stay. *)
Theorem leave_of_a_non_member_changes_nothing
    (p : Plugin Extra) (u ch : string) (st : channelState Extra) (c : callState)
    (Hrec : kv p !! ch = Some st)
    (Hcall : Call st = Some c)
    (Hne : Users c ≠ ∅)
    (Hout : u ∉ Users c) :
  let o := removeUserSession extra0 maxRetries u ch [] p in
  snd o = (st, None) ∧ kv (fst o) = kv p.
Proof.
  intros o. unfold o. destruct st as [call x]. simpl in Hcall. subst call.
  rewrite (removeUserSession_record _ _ _ _ _ _ _ Hrec). cbn [fst snd].
  assert (Hd : Users c ∖ {[u]} = Users c).
  { apply set_eq. intros y. rewrite elem_of_difference, elem_of_singleton.
    split; [by intros [? _]|]. intros Hy. split; [done|]. by intros ->. }
  rewrite Hd, decide_False by done. destruct c. simpl.
  split; [done|]. by apply insert_id.
Qed.

(** X5. Frame. One [addUserSession] or [removeUserSession], under any
    concurrent writers on its channel, leaves the record of every other
    channel and the session of every other user as they were. *)
Theorem other_channels_and_users_untouched
    (p : Plugin Extra) (o : op Extra) (ch' v : string) :
  (ch' ≠ match o with Add _ ch _ _ _ _ => ch | Remove _ ch _ => ch end →
   kv (fst (step extra0 maxRetries o p)) !! ch' = kv p !! ch')
  ∧ (v ≠ match o with Add u _ _ _ _ _ => u | Remove u _ _ => u end →
     sessions (fst (step extra0 maxRetries o p)) !! v = sessions p !! v).
Proof.
  destruct o as [u ch s i t cn | u ch cn]; simpl.
  - unfold addUserSession, kvSetAtomicChannelState.
    pose proof (kvSetAtomic_attempts_sessions (S maxRetries) ch
                  (addUserSession_cb u i t) cn (zeroChannelState extra0)
                  (set_sessions (insert u s)
                     (LogDebug (LogLine "adding session" u ch) p))) as Hs.
    pose proof (fun H => kvSetAtomic_attempts_other (S maxRetries) ch
                  (addUserSession_cb u i t) cn (zeroChannelState extra0)
                  (set_sessions (insert u s)
                     (LogDebug (LogLine "adding session" u ch) p)) ch' H) as Hk.
    destruct (kvSetAtomic_attempts _ _ _ _ _ _) as [[p' e] st']. simpl in *.
    split; [done|]. intros Hv. by rewrite Hs, lookup_insert_ne.
  - unfold removeUserSession, kvSetAtomicChannelState.
    pose proof (kvSetAtomic_attempts_sessions (S maxRetries) ch
                  (removeUserSession_cb u) cn (zeroChannelState extra0)
                  (set_sessions (delete u)
                     (LogDebug (LogLine "removing session" u ch) p))) as Hs.
    pose proof (fun H => kvSetAtomic_attempts_other (S maxRetries) ch
                  (removeUserSession_cb u) cn (zeroChannelState extra0)
                  (set_sessions (delete u)
                     (LogDebug (LogLine "removing session" u ch) p)) ch' H) as Hk.
    destruct (kvSetAtomic_attempts _ _ _ _ _ _) as [[p' e] st']. simpl in *.
    split; [done|]. intros Hv. by rewrite Hs, lookup_delete_ne.
Qed.

End WithChannelFields.

Lemma remove_always_drops_session_witness :
  let o := removeUserSession false 2 "A" "general" [idle_record] general_plugin in
  sessions (fst o) !! "A" = None
  ∧ snd (snd o) = Some errCallStateMissing.
Proof.
  destruct (remove_always_drops_session false 2 general_plugin "A" "general"
              [idle_record]) as (_ & Hs & _ & Hc).
  split; [exact Hs|].
  apply (Hc (ChannelState None true)); reflexivity.
Defined.

Lemma join_then_leave_restores_store_witness :
  let o1 := addUserSession false 2 "A" "general" (newUserSession "A" "general")
              "call1" 1000 [] general_plugin in
  let o2 := removeUserSession false 2 "A" "general" [] (fst o1) in
  snd o2 = (ChannelState None true, None)
  ∧ kv (fst o2) = kv general_plugin.
Proof.
  destruct (join_then_leave_restores_store false 2 general_plugin "A" "general"
              (newUserSession "A" "general") "call1" 1000
              (ChannelState None true)) as (_ & H2 & H3 & _).
  - reflexivity.
  - unfold call_iff_members, members. simpl.
    split; [intros [? ?]; discriminate | done].
  - unfold members. simpl. apply not_elem_of_empty.
  - exact (conj H2 H3).
Defined.

Lemma join_twice_is_one_join_witness :
  let o1 := addUserSession false 2 "A" "general" (newUserSession "A" "general")
              "call1" 1000 [] general_plugin in
  let o2 := addUserSession false 2 "A" "general" (newUserSession "A" "general")
              "call2" 2000 [] (fst o1) in
  snd o2 = snd o1 ∧ kv (fst o2) = kv (fst o1).
Proof.
  destruct (join_twice_is_one_join false 2 general_plugin "A" "general"
              (newUserSession "A" "general") (newUserSession "A" "general")
              "call1" "call2" 1000 2000 (ChannelState None true))
    as (H1 & H2 & _).
  - reflexivity.
  - exact (conj H1 H2).
Defined.

Lemma leave_of_a_non_member_changes_nothing_witness :
  let o := removeUserSession false 2 "B" "general" [] busy_plugin in
  snd o = (ChannelState (Some (CallState "call1" 1000 {["A"]})) true, None)
  ∧ kv (fst o) = kv busy_plugin.
Proof.
  apply (leave_of_a_non_member_changes_nothing false 2 busy_plugin "B" "general"
           (ChannelState (Some (CallState "call1" 1000 {["A"]})) true)
           (CallState "call1" 1000 {["A"]})).
  - reflexivity.
  - reflexivity.
  - simpl. intros He. apply (not_elem_of_empty (C:=gset string) "A").
    rewrite <- He. by apply elem_of_singleton.
  - simpl. intros Hin%elem_of_singleton. discriminate Hin.
Defined.

Lemma other_channels_and_users_untouched_witness :
  kv (fst (step false 2 (Remove "A" "general" [idle_record]) busy_plugin))
    !! "town-square" = None.
Proof.
  destruct (other_channels_and_users_untouched false 2 busy_plugin
              (Remove "A" "general" [idle_record]) "town-square" "B") as [H _].
  rewrite H; [reflexivity | discriminate].
Defined.

End ServerLaws.

(** * Further properties of the client *)

Module ClientLaws.
Import Client ClientFacts.

(** ** Methods on a client without peer and socket *)

Lemma mute_no_peer w : peer (this w) = None → mute w = (Ok tt, w, []).
Proof. intros H. unfold mute. run. by rewrite H. Qed.

Lemma unmute_no_peer fuel w : peer (this w) = None → unmute fuel w = (Ok tt, w, []).
Proof. intros H. unfold unmute. run. by rewrite H. Qed.

Lemma setScreenStream_no_peer ss w :
  peer (this w) = None → setScreenStream ss w = (Ok tt, w, []).
Proof.
  intros H. unfold setScreenStream. run. rewrite H. by destruct (ws (this w)).
Qed.

Lemma unshareScreen_no_ws w : ws (this w) = None → unshareScreen w = (Ok tt, w, []).
Proof. intros H. unfold unshareScreen. run. by rewrite H. Qed.

Lemma shareScreen_no_peer cap w :
  peer (this w) = None → shareScreen cap w = (Ok None, w, []).
Proof.
  intros H. unfold shareScreen. run. rewrite H. by destruct (ws (this w)).
Qed.

Lemma raiseHand_no_ws w :
  ws (this w) = None → raiseHand w = (Ok tt, w, [Emit "raise_hand" NoPayload]).
Proof. intros H. unfold raiseHand, emit. run. by rewrite H. Qed.

Lemma unraiseHand_no_ws w :
  ws (this w) = None → unraiseHand w = (Ok tt, w, [Emit "lower_hand" NoPayload]).
Proof. intros H. unfold unraiseHand, emit. run. by rewrite H. Qed.

(** X6. After [disconnect] on an open client the public methods are inert:
    [mute], [unmute], [setScreenStream], [shareScreen], [unshareScreen],
    [setAudioInputDevice] and [setAudioOutputDevice] return at once,
    changing nothing and with no effect at all ([shareScreen] resolves to
    null without asking for a capture); [raiseHand] and [unraiseHand] still
    emit their local event but send nothing. The first five behave the
    same on a client that was constructed and never initialised. *)
Theorem inert_after_disconnect
    (w : World) (err : option jsError) (fuel : nat)
    (Hopen : closed (this w) = false) :
  let w1 := world_of (disconnect err w) in
  mute w1 = (Ok tt, w1, [])
  ∧ unmute fuel w1 = (Ok tt, w1, [])
  ∧ (∀ ss, setScreenStream ss w1 = (Ok tt, w1, []))
  ∧ (∀ cap, shareScreen cap w1 = (Ok None, w1, []))
  ∧ unshareScreen w1 = (Ok tt, w1, [])
  ∧ (∀ d st, setAudioInputDevice fuel d st w1 = (Ok tt, w1, []))
  ∧ (∀ d st, setAudioOutputDevice d st w1 = (Ok tt, w1, []))
  ∧ raiseHand w1 = (Ok tt, w1, [Emit "raise_hand" NoPayload])
  ∧ unraiseHand w1 = (Ok tt, w1, [Emit "lower_hand" NoPayload])
  ∧ ∀ cfg b,
      let w0 := MkWorld (new_CallsClient cfg) b in
      mute w0 = (Ok tt, w0, [])
      ∧ unmute fuel w0 = (Ok tt, w0, [])
      ∧ (∀ ss, setScreenStream ss w0 = (Ok tt, w0, []))
      ∧ (∀ cap, shareScreen cap w0 = (Ok None, w0, []))
      ∧ unshareScreen w0 = (Ok tt, w0, []).
Proof.
  intros w1.
  destruct (disconnect_open w err Hopen) as (w' & e & H & _ & _ & Hthis).
  assert (Hw : w1 = w') by (unfold w1; by rewrite H).
  assert (Hp : peer (this w1) = None) by (rewrite Hw, Hthis; reflexivity).
  assert (Hs : ws (this w1) = None) by (rewrite Hw, Hthis; reflexivity).
  split; [by apply mute_no_peer|]. split; [by apply unmute_no_peer|].
  split; [intros; by apply setScreenStream_no_peer|].
  split; [intros; by apply shareScreen_no_peer|].
  split; [by apply unshareScreen_no_ws|].
  split; [intros; by apply setAudioInputDevice_with_no_peer|].
  split; [intros; by apply setAudioOutputDevice_no_peer|].
  split; [by apply raiseHand_no_ws|]. split; [by apply unraiseHand_no_ws|].
  intros cfg b w0.
  split; [by apply mute_no_peer|]. split; [by apply unmute_no_peer|].
  split; [intros; by apply setScreenStream_no_peer|].
  split; [intros; by apply shareScreen_no_peer|].
  by apply unshareScreen_no_ws.
Qed.

Lemma inert_after_disconnect_witness :
  unmute 1 closed_world = (Ok tt, closed_world, [])
  ∧ raiseHand closed_world = (Ok tt, closed_world, [Emit "raise_hand" NoPayload]).
Proof.
  destruct (inert_after_disconnect connected_world None 1)
    as (_ & Hu & _ & _ & _ & _ & _ & Hr & _).
  - reflexivity.
  - exact (conj Hu Hr).
Defined.

(** X7. [shareScreen] while a screen is already shared: the new capture is
    returned to the caller although [setScreenStream] ignores it; nothing
    reaches the peer or the socket, no event is emitted and no handler is
    installed on the new capture. *)
Theorem shareScreen_while_sharing
    (w : World) (captured : StreamRef)
    (Hws : ws (this w) ≠ None) (Hpeer : peer (this w) ≠ None)
    (Hactive : localScreenTrack (this w) ≠ None) :
  shareScreen (Some captured) w = (Ok (Some captured), w, []).
Proof.
  unfold shareScreen. run.
  destruct (ws (this w)) eqn:Hw; [|done].
  destruct (peer (this w)) eqn:Hp; [|done].
  unfold setScreenStream. run. rewrite Hw, Hp.
  destruct (localScreenTrack (this w)); [|done]. run. reflexivity.
Qed.

Lemma shareScreen_while_sharing_witness :
  shareScreen (Some 3) sharing_world = (Ok (Some 3), sharing_world, []).
Proof.
  apply (shareScreen_while_sharing sharing_world 3);
    vm_compute; discriminate.
Defined.


(** ** The handlers of fatal events *)

Lemma disconnect_open_filter w err (f : effect → bool) :
  closed (this w) = false →
  (∀ x, track_level x = true → f x = false) →
  List.filter f (effects_of (disconnect err w))
  = List.filter f
      (Log Debug "disconnect"
       :: (if is_some (rtcMonitor (this w)) then [MonitorStop] else [])
       ++ (if is_some (peer (this w)) then [PeerGetStats; PeerDestroy] else [])
       ++ (if is_some (ws (this w)) then [WsSend "leave" None; WsClose] else [])
       ++ [Emit "close" (Error err)]).
Proof.
  intros Hc Hf.
  destruct (disconnect_open w err Hc) as (w1 & e & H & Hlvl & _ & _).
  rewrite H. cbn [effects_of snd].
  pose proof (filter_track_level f e Hf Hlvl) as He.
  destruct (rtcMonitor (this w)), (peer (this w)), (ws (this w));
    cbn [is_some];
    repeat (rewrite List.filter_app || rewrite filter_cons_if);
    rewrite He; simpl; rewrite <- ?app_assoc; reflexivity.
Qed.

Lemma disconnect_open_after w err :
  closed (this w) = false →
  result_of (disconnect err w) = Ok tt
  ∧ closed (this (world_of (disconnect err w))) = true
  ∧ peer (this (world_of (disconnect err w))) = None
  ∧ ws (this (world_of (disconnect err w))) = None.
Proof.
  intros Hc.
  destruct (disconnect_open w err Hc) as (w1 & e & H & _ & _ & Hthis).
  rewrite H. cbn [result_of world_of fst snd]. rewrite Hthis. done.
Qed.

(** On a closed client, whose socket is gone, every fatal event only logs. *)
Lemma fatal_step_closed ev w :
  closed (this w) = true → ws (this w) = None →
  ∃ t, fatal_step ev w = (Ok tt, w, t) ∧ forallb is_log t = true.
Proof.
  intros Hc Hw.
  destruct ev as [err | | ty msg | | err]; simpl.
  - unfold on_peer_error, logErr. run. rewrite Hc. simpl. by eexists.
  - unfold on_peer_close, logDebug. run. rewrite Hc. simpl. by eexists.
  - unfold on_ws_error, logErr. run.
    destruct ty; simpl; run; try (by eexists).
    + rewrite (set_ws_id _ Hw), world_eta, (disconnect_closed _ _ Hc). by eexists.
    + rewrite (disconnect_closed _ _ Hc). by eexists.
  - unfold onBeforeUnload, logDebug. run.
    rewrite (disconnect_closed _ _ Hc). by eexists.
  - rewrite (disconnect_closed _ _ Hc). by eexists.
Qed.

Lemma forEach_fatal_closed es w :
  closed (this w) = true → ws (this w) = None →
  ∃ t, forEach es fatal_step w = (Ok tt, w, t) ∧ forallb is_log t = true.
Proof.
  intros Hc Hw. induction es as [|ev es IH]; [by exists []|].
  destruct (fatal_step_closed ev w Hc Hw) as (t1 & H1 & L1).
  destruct IH as (t2 & H2 & L2).
  exists (t1 ++ t2). cbn [forEach]. rewrite (bind_Ok _ _ _ _ _ _ H1), H2.
  split; [done|]. by rewrite forallb_app, L1, L2.
Qed.

Lemma filter_logs (f : effect → bool) t :
  (∀ l m, f (Log l m) = false) →
  forallb is_log t = true → List.filter f t = [].
Proof.
  intros Hf. induction t as [|x t IH]; [done|]. simpl.
  intros [Hx Ht]%andb_true_iff. destruct x; try done. rewrite Hf. by apply IH.
Qed.

(** On an open client a fatal event logs and disconnects, after dropping
    the socket when the reconnection timed out. *)
Lemma fatal_step_open ev w c :
  closed (this w) = false → cause_of ev = Some c →
  ∃ pre w',
    fatal_step ev w
    = (result_of (disconnect c w'), world_of (disconnect c w'),
       pre ++ effects_of (disconnect c w'))
    ∧ forallb is_log pre = true
    ∧ closed (this w') = false
    ∧ rtcMonitor (this w') = rtcMonitor (this w)
    ∧ peer (this w') = peer (this w)
    ∧ (ws (this w') = ws (this w) ∨ ws (this w') = None).
Proof.
  intros Hc Hcause.
  destruct ev as [err | | ty msg | | err]; simpl in *.
  - injection Hcause as <-. unfold on_peer_error, logErr. run. rewrite Hc. simpl.
    exists [Log Err "peer error"], w. repeat split; try done. by left.
  - injection Hcause as <-. unfold on_peer_close, logDebug. run. rewrite Hc. simpl.
    exists [Log Debug "rtc closed"], w. repeat split; try done. by left.
  - unfold on_ws_error, logErr. run. destruct ty; try discriminate;
      injection Hcause as <-; run.
    + exists [Log Err "ws error"], (MkWorld (set_ws None (this w)) (browser w)).
      repeat split; try done. by right.
    + exists [Log Err "ws error"], w. repeat split; try done. by left.
  - injection Hcause as <-. unfold onBeforeUnload, logDebug. run.
    exists [Log Debug "unload"], w. repeat split; try done. by left.
  - injection Hcause as <-. exists [], w. repeat split; try done.
    + simpl. apply outcome_eta.
    + by left.
Qed.

Lemma fatal_step_not_fatal ev w :
  cause_of ev = None → fatal_step ev w = (Ok tt, w, [Log Err "ws error"]).
Proof.
  destruct ev as [err | | ty msg | | err]; try discriminate.
  destruct ty; try discriminate; intros _; reflexivity.
Qed.

Lemma count_le_one_disconnect (f : effect → bool) w c :
  closed (this w) = false →
  (∀ x, track_level x = true → f x = false) →
  f (Log Debug "disconnect") = false →
  f PeerGetStats = false →
  f (Emit "close" (Error c)) = false →
  (f MonitorStop && f PeerDestroy = false) →
  (f MonitorStop && f WsClose = false) →
  (f MonitorStop && f (WsSend "leave" None) = false) →
  (f PeerDestroy && f WsClose = false) →
  (f PeerDestroy && f (WsSend "leave" None) = false) →
  (f WsClose && f (WsSend "leave" None) = false) →
  (count f (effects_of (disconnect c w)) ≤ 1)%nat.
Proof.
  intros Hc Hf H1 H2 H3 H4 H5 H6 H7 H8 H9. unfold count.
  rewrite (disconnect_open_filter w c f Hc Hf).
  destruct (rtcMonitor (this w)), (peer (this w)), (ws (this w)); simpl;
    rewrite ?H1, ?H2, ?H3; simpl;
    destruct (f MonitorStop), (f PeerDestroy), (f WsClose),
      (f (WsSend "leave" None)); simpl in *; try discriminate; lia.
Qed.

(** X8. Any sequence of fatal events reaching an open client (peer errors,
    peer close, socket errors of any type, page unload, calls of
    [disconnect]) runs to completion and tears the call down at most once:
    the monitor is stopped, the peer destroyed, the leave message sent and
    the socket closed at most once each, and exactly one ['close'] event is
    emitted, carrying the error of the first event that is fatal; there is
    none, and the client stays open, when no event of the sequence is
    fatal (socket errors of type Native or of an unknown type). *)
Theorem one_teardown_over_fatal_events
    (w : World) (es : list fatalEvent)
    (Hopen : closed (this w) = false) :
  let o := forEach es fatal_step w in
  result_of o = Ok tt
  ∧ List.filter (is_emit "close") (effects_of o)
    = match first_cause es with
      | Some c => [Emit "close" (Error c)]
      | None => []
      end
  ∧ (count (is_effect MonitorStop) (effects_of o) ≤ 1)%nat
  ∧ (count (is_effect PeerDestroy) (effects_of o) ≤ 1)%nat
  ∧ (count (is_effect (WsSend "leave" None)) (effects_of o) ≤ 1)%nat
  ∧ (count (is_effect WsClose) (effects_of o) ≤ 1)%nat
  ∧ closed (this (world_of o)) = is_some (first_cause es).
Proof.
  revert w Hopen. induction es as [|ev es IH]; intros w Hopen o.
  - unfold o. cbn [forEach first_cause is_some].
    repeat split; try (unfold count; simpl; lia). exact Hopen.
  - unfold o. clear o. cbn [forEach first_cause].
    destruct (cause_of ev) as [c|] eqn:Hcause.
    + destruct (fatal_step_open ev w c Hopen Hcause)
        as (pre & w' & Hstep & Hpre & Hc' & _ & _ & _).
      destruct (disconnect_open_after w' c Hc') as (Hr & Hcl & Hp & Hs).
      rewrite Hr in Hstep.
      destruct (forEach_fatal_closed es (world_of (disconnect c w')) Hcl Hs)
        as (t2 & H2 & L2).
      rewrite (bind_Ok _ _ _ _ _ _ Hstep), H2.
      cbn [result_of world_of effects_of fst snd is_some].
      assert (Hl : ∀ f, (∀ l m, f (Log l m) = false) →
                List.filter f ((pre ++ effects_of (disconnect c w')) ++ t2)
                = List.filter f (effects_of (disconnect c w'))).
      { intros f Hf. rewrite !List.filter_app.
        rewrite (filter_logs f pre Hf Hpre), (filter_logs f t2 Hf L2).
        by rewrite app_nil_r. }
      split; [done|]. split.
      { rewrite Hl by done.
        rewrite (disconnect_open_filter w' c _ Hc') by (by intros []).
        by destruct (rtcMonitor (this w')), (peer (this w')), (ws (this w')). }
      unfold count at 1 2 3 4. rewrite !Hl by done.
      repeat split; try done;
        apply (count_le_one_disconnect _ w' c Hc'); try done; by intros [].
    + rewrite (bind_Ok _ _ _ _ _ _ (fatal_step_not_fatal ev w Hcause)).
      destruct (IH w Hopen) as (Hr & Hclose & H1 & H2 & H3 & H4 & H5).
      cbn [result_of world_of effects_of fst snd].
      unfold count in *. cbn [app List.filter is_emit is_effect].
      repeat match goal with
             | |- context [is_effect ?a (Log ?l ?m)] =>
                 change (is_effect a (Log l m)) with false
             end.
      done.
Qed.

Lemma one_teardown_over_fatal_events_witness :
  let o := forEach [WsError Native "net"; PeerClose; Unload; PeerError "late"]
             fatal_step connected_world in
  List.filter (is_emit "close") (effects_of o)
  = [Emit "close" (Error (Some rtcPeerCloseErr))]
  ∧ closed (this (world_of o)) = true.
Proof.
  destruct (one_teardown_over_fatal_events connected_world
              [WsError Native "net"; PeerClose; Unload; PeerError "late"])
    as (_ & Hc & _ & _ & _ & _ & Hcl).
  - reflexivity.
  - exact (conj Hc Hcl).
Defined.

(** X9. The socket error handler on an open client. An error of type Native,
    or of a type the handler does not know, is only logged. A reconnection
    timeout drops the socket first, so the teardown sends no leave message
    and does not close the socket; a failed join tears down with the
    socket still there, sending leave and closing it. Both emit one
    ['close'] event carrying the socket error. *)
Theorem ws_error_teardown
    (w : World) (msg : string)
    (Hopen : closed (this w) = false) :
  on_ws_error Native msg w = (Ok tt, w, [Log Err "ws error"])
  ∧ on_ws_error OtherType msg w = (Ok tt, w, [Log Err "ws error"])
  ∧ (let o := on_ws_error ReconnectTimeout msg w in
     result_of o = Ok tt
     ∧ List.filter is_socket_call (effects_of o) = []
     ∧ List.filter (is_emit "close") (effects_of o)
       = [Emit "close" (Error (Some (WebSocketError msg)))]
     ∧ closed (this (world_of o)) = true
     ∧ ws (this (world_of o)) = None)
  ∧ (let o := on_ws_error Join msg w in
     result_of o = Ok tt
     ∧ List.filter is_socket_call (effects_of o)
       = (if is_some (ws (this w)) then [WsSend "leave" None; WsClose] else [])
     ∧ List.filter (is_emit "close") (effects_of o)
       = [Emit "close" (Error (Some (WebSocketError msg)))]
     ∧ closed (this (world_of o)) = true
     ∧ ws (this (world_of o)) = None).
Proof.
  split; [reflexivity|]. split; [reflexivity|]. split.
  - intros o. unfold o, on_ws_error, logErr. run.
    set (w' := MkWorld (set_ws None (this w)) (browser w)).
    assert (Hc' : closed (this w') = false) by exact Hopen.
    destruct (disconnect_open_after w' (Some (WebSocketError msg)) Hc')
      as (Hr & Hcl & Hp & Hs).
    split; [done|]. split; [|split; [|done]].
    + cbn [List.filter is_socket_call].
      rewrite (disconnect_open_filter w' _ _ Hc') by (by intros []).
      unfold w'. simpl.
      by destruct (rtcMonitor (this w)), (peer (this w)).
    + cbn [List.filter is_emit].
      rewrite (disconnect_open_filter w' _ _ Hc') by (by intros []).
      unfold w'. simpl.
      by destruct (rtcMonitor (this w)), (peer (this w)).
  - intros o. unfold o, on_ws_error, logErr. run.
    destruct (disconnect_open_after w (Some (WebSocketError msg)) Hopen)
      as (Hr & Hcl & Hp & Hs).
    split; [done|]. split; [|split; [|done]].
    + cbn [List.filter is_socket_call].
      rewrite (disconnect_open_filter w _ _ Hopen) by (by intros []).
      by destruct (rtcMonitor (this w)), (peer (this w)), (ws (this w)).
    + cbn [List.filter is_emit].
      rewrite (disconnect_open_filter w _ _ Hopen) by (by intros []).
      by destruct (rtcMonitor (this w)), (peer (this w)), (ws (this w)).
Qed.

Lemma ws_error_teardown_witness :
  let o := on_ws_error ReconnectTimeout "timed out" connected_world in
  List.filter is_socket_call (effects_of o) = []
  ∧ closed (this (world_of o)) = true.
Proof.
  destruct (ws_error_teardown connected_world "timed out")
    as (_ & _ & (_ & Hs & _ & Hc & _) & _).
  - reflexivity.
  - exact (conj Hs Hc).
Defined.


(** ** Remote streams *)

Lemma forEach_logs {A} (l : list A) (msg : string) w :
  ∃ t, forEach l (fun _ => logDebug msg) w = (Ok tt, w, t)
     ∧ forallb is_log t = true.
Proof.
  induction l as [|x l IH]; [by exists []|].
  destruct IH as (t & H & L). exists (Log Debug msg :: t).
  cbn [forEach]. unfold logDebug at 1. run. by rewrite H.
Qed.

Lemma filter_incl_In {A} (f : A → bool) l x : In x (List.filter f l) → In x l.
Proof. intros H. by apply filter_In in H as [? _]. Qed.

(** X10. The handler of a remote stream keeps the stream in the list that the
    teardown stops, changes nothing in the browser heap, and classifies it
    audio first: a stream with an audio track adds all its audio tracks to
    the remote voice tracks and emits ['remoteVoiceStream'], even if it
    also has video; otherwise a stream with a video track replaces the
    remote screen track by its first video track and emits
    ['remoteScreenStream']; a stream with neither emits nothing. Every
    remote track the client holds afterwards belongs to a stream it
    holds. *)
Theorem remote_stream_is_registered
    (w : World) (remoteStream : StreamRef)
    (Hreg : remote_tracks_registered w) :
  let o := on_peer_stream remoteStream w in
  let audios := getAudioTracks (browser w) remoteStream in
  let videos := getVideoTracks (browser w) remoteStream in
  result_of o = Ok tt
  ∧ browser (world_of o) = browser w
  ∧ streams (this (world_of o)) = streams (this w) ++ [remoteStream]
  ∧ remoteVoiceTracks (this (world_of o)) = remoteVoiceTracks (this w) ++ audios
  ∧ remoteScreenTrack (this (world_of o))
    = match audios, videos with
      | [], v :: _ => Some v
      | _, _ => remoteScreenTrack (this w)
      end
  ∧ List.filter is_any_emit (effects_of o)
    = match audios, videos with
      | _ :: _, _ => [Emit "remoteVoiceStream" (Stream remoteStream)]
      | [], _ :: _ => [Emit "remoteScreenStream" (Stream remoteStream)]
      | [], [] => []
      end
  ∧ remote_tracks_registered (world_of o).
Proof.
  intros o audios videos.
  destruct (forEach_logs (getTracks (browser w) remoteStream) "remote track" w)
    as (t & Hlog & Ht).
  assert (Hf : List.filter is_any_emit t = []).
  { clear -Ht. induction t as [|x t IH]; [done|]. simpl in *.
    apply andb_true_iff in Ht as [Hx Ht]. destruct x; try done. by apply IH. }
  assert (Hrun :
    o = (Ok tt,
         MkWorld
           (match audios, videos with
            | _ :: _, _ =>
                set_remoteVoiceTracks (remoteVoiceTracks (this w) ++ audios)
                  (set_streams (streams (this w) ++ [remoteStream]) (this w))
            | [], v :: _ =>
                set_remoteScreenTrack (Some v)
                  (set_streams (streams (this w) ++ [remoteStream]) (this w))
            | [], [] => set_streams (streams (this w) ++ [remoteStream]) (this w)
            end) (browser w),
         Log Debug "new remote stream received" :: t
         ++ match audios, videos with
            | _ :: _, _ => [Emit "remoteVoiceStream" (Stream remoteStream)]
            | [], _ :: _ => [Emit "remoteScreenStream" (Stream remoteStream)]
            | [], [] => []
            end)).
  { unfold o, on_peer_stream, logDebug at 1. run.
    rewrite (bind_Ok _ _ _ _ _ _ Hlog). run. fold audios videos.
    destruct audios as [|a l]; [destruct videos as [|v l']|];
      unfold emit; run; unfold upd_this; simpl; rewrite ?app_nil_r; done. }
  rewrite Hrun. cbn [result_of world_of effects_of fst snd this browser].
  split; [done|]. split; [done|].
  split; [by destruct audios, videos|].
  split; [destruct audios, videos; simpl; by rewrite ?app_nil_r|].
  split; [by destruct audios, videos|].
  split.
  { cbn [List.filter is_any_emit]. rewrite List.filter_app, Hf.
    by destruct audios, videos. }
  intros tr Htr.
  assert (Hstreams : ∀ s, In s (streams (this w)) ∨ s = remoteStream →
            In s (streams (match audios, videos with
              | _ :: _, _ =>
                  set_remoteVoiceTracks (remoteVoiceTracks (this w) ++ audios)
                    (set_streams (streams (this w) ++ [remoteStream]) (this w))
              | [], v :: _ =>
                  set_remoteScreenTrack (Some v)
                    (set_streams (streams (this w) ++ [remoteStream]) (this w))
              | [], [] => set_streams (streams (this w) ++ [remoteStream]) (this w)
              end))).
  { intros s Hs. destruct audios, videos; simpl; apply in_or_app;
      (destruct Hs as [Hs| ->]; [by left|right; by left]). }
  cbn [this browser].
  assert (Hold : In tr (remoteVoiceTracks (this w))
                 ∨ remoteScreenTrack (this w) = Some tr →
                 ∃ s, In s (streams (match audios, videos with
              | _ :: _, _ =>
                  set_remoteVoiceTracks (remoteVoiceTracks (this w) ++ audios)
                    (set_streams (streams (this w) ++ [remoteStream]) (this w))
              | [], v :: _ =>
                  set_remoteScreenTrack (Some v)
                    (set_streams (streams (this w) ++ [remoteStream]) (this w))
              | [], [] => set_streams (streams (this w) ++ [remoteStream]) (this w)
              end)) ∧ In tr (getTracks (browser w) s)).
  { intros H. destruct (Hreg tr H) as (s & Hs & Hin). exists s. split; [|done].
    apply Hstreams. by left. }
  assert (Hnew : In tr audios ∨ In tr videos →
                 ∃ s, In s (streams (match audios, videos with
              | _ :: _, _ =>
                  set_remoteVoiceTracks (remoteVoiceTracks (this w) ++ audios)
                    (set_streams (streams (this w) ++ [remoteStream]) (this w))
              | [], v :: _ =>
                  set_remoteScreenTrack (Some v)
                    (set_streams (streams (this w) ++ [remoteStream]) (this w))
              | [], [] => set_streams (streams (this w) ++ [remoteStream]) (this w)
              end)) ∧ In tr (getTracks (browser w) s)).
  { intros H. exists remoteStream. split; [apply Hstreams; by right|].
    destruct H as [H|H]; by apply filter_incl_In in H. }
  cbn [this browser] in Htr.
  destruct audios as [|a l] eqn:Ha; [destruct videos as [|v l'] eqn:Hv|];
    simpl in Htr.
  - by apply Hold.
  - destruct Htr as [Htr|Htr]; [apply Hold; by left|].
    injection Htr as <-. apply Hnew. right. by left.
  - destruct Htr as [Htr|Htr]; [|apply Hold; by right].
    apply in_app_or in Htr as [Htr|Htr]; [apply Hold; by left|].
    apply Hnew. by left.
Qed.

Lemma remote_stream_is_registered_witness :
  let o := on_peer_stream 6 remote_world in
  streams (this (world_of o)) = [1; 6]
  ∧ remote_tracks_registered (world_of o).
Proof.
  destruct (remote_stream_is_registered remote_world 6)
    as (_ & _ & Hs & _ & _ & _ & Hr).
  - intros t Ht. vm_compute in Ht. destruct Ht as [[]|Ht]; discriminate Ht.
  - exact (conj Hs Hr).
Defined.


Lemma try_catch_logErr_no_throw (body : M unit) w e :
  result_of (try_catch body (fun err => logErr (error_message err)) w) ≠ Throw e.
Proof.
  unfold try_catch. destruct (body w) as [[[a|e'|] w1] t1]; done.
Qed.

Lemma bind_result_no_throw {A B} (m : M A) (k : A → M B) w :
  (∀ e, result_of (m w) ≠ Throw e) →
  (∀ a w' e, result_of (k a w') ≠ Throw e) →
  ∀ e, result_of (bind m k w) ≠ Throw e.
Proof.
  intros Hm Hk e. unfold bind.
  destruct (m w) as [[[a|e'|] w1] t1]; simpl in *.
  - specialize (Hk a w1 e). by destruct (k a w1) as [[r w2] t2].
  - by destruct (Hm e').
  - done.
Qed.

(** X11. [updateDevices], and so the device-change listener, never rejects:
    whatever fails under its [try] is logged. In particular when the
    platform cannot enumerate the devices the client is unchanged and the
    only effects are the enumeration and two log lines: no event is
    emitted. *)
Theorem updateDevices_never_throws (fuel : nat) (w : World) :
  (∀ e, result_of (updateDevices fuel w) ≠ Throw e)
  ∧ (∀ e, result_of (onDeviceChange fuel w) ≠ Throw e)
  ∧ (match env_devices (browser w) with Some _ :: _ => False | _ => True end →
     let o := updateDevices (S fuel) w in
     result_of o = Ok tt
     ∧ this (world_of o) = this w
     ∧ effects_of o
       = [Log Debug "a/v device change detected"; EnumerateDevices;
          Log Err "enumerateDevices failed"]).
Proof.
  assert (H : ∀ e, result_of (updateDevices fuel w) ≠ Throw e).
  { intros e. destruct fuel as [|n]; [done|].
    cbn [updateDevices]. unfold updateDevices_with.
    apply bind_result_no_throw; [done|].
    intros _ w' e'. apply try_catch_logErr_no_throw. }
  split; [exact H|]. split; [exact H|].
  intros Henv o. unfold o. cbn [updateDevices]. unfold updateDevices_with, logDebug.
  run. unfold try_catch, enumerateDevices. run.
  destruct (env_devices (browser w)) as [|[ds|] rest]; [|done|]; run; done.
Qed.

Lemma updateDevices_never_throws_witness :
  result_of (updateDevices 1 connected_world) = Ok tt
  ∧ this (world_of (updateDevices 1 connected_world)) = this connected_world.
Proof.
  destruct (updateDevices_never_throws 0 connected_world) as (_ & _ & H).
  destruct H as (Hr & Hw & _); [exact I|].
  exact (conj Hr Hw).
Defined.

(** X12. A device returned by [getSelectedAudioDevice] is one of the
    enumerated devices of the kind asked for, the stored preference has a
    non-empty identifier, and the device either has that identifier, or no
    enumerated device has it and the device is the only enumerated one
    with the stored label. *)
Theorem selected_device_is_enumerated
    (ty : deviceType) (w : World) (d : MediaDeviceInfo)
    (Hsel : result_of (getSelectedAudioDevice ty w) = Ok (Some d)) :
  let sel := read_pref (localStorage (browser w) !! storage_key ty) in
  In d (devices_of ty (this w))
  ∧ pref_deviceId sel ≠ ""
  ∧ (deviceId d = pref_deviceId sel
     ∨ Some (label d) = pref_label sel
       ∧ ∀ d', In d' (devices_of ty (this w)) →
               deviceId d' ≠ pref_deviceId sel
               ∧ (label d' = label d → d' = d)).
Proof.
  intros sel.
  destruct (getSelectedAudioDevice_policy ty w) as (t & Hrun & _).
  rewrite Hrun in Hsel. cbn in Hsel. injection Hsel as Hsel.
  unfold selected_device in Hsel. fold sel in Hsel.
  case_bool_decide as Hid; [done|].
  unfold preferred_by_policy in Hsel.
  destruct (List.find (matches_id sel) (devices_of ty (this w))) as [d0|] eqn:Hfind.
  - injection Hsel as ->. apply find_some in Hfind as [Hin Hm].
    unfold matches_id in Hm. apply bool_decide_eq_true in Hm. auto.
  - destruct (List.filter _ _) as [|d1 [|d2 l]] eqn:HF; [done| |done].
    injection Hsel as ->.
    assert (Hd : In d (List.filter
               (fun dev => bool_decide (Some (label dev) = pref_label sel))
               (devices_of ty (this w)))) by (rewrite HF; by left).
    apply filter_In in Hd as [Hin Hl]. apply bool_decide_eq_true in Hl.
    split; [done|]. split; [done|]. right. split; [done|].
    intros d' Hin'. split.
    + intros Heq. pose proof (find_none _ _ Hfind d' Hin') as Hn.
      unfold matches_id in Hn. by apply bool_decide_eq_false in Hn.
    + intros Hlab.
      assert (Hd' : In d' (List.filter
               (fun dev => bool_decide (Some (label dev) = pref_label sel))
               (devices_of ty (this w)))).
      { apply filter_In. split; [done|]. apply bool_decide_eq_true.
        by rewrite Hlab. }
      rewrite HF in Hd'. by destruct Hd' as [->|[]].
Qed.

Lemma selected_device_is_enumerated_witness :
  In spk3 (devices_of output (this twin_headset_world))
  ∧ deviceId spk3 ≠ deviceId spk2.
Proof.
  destruct (selected_device_is_enumerated output twin_headset_world spk3)
    as (Hin & _).
  - vm_compute. reflexivity.
  - split; [exact Hin | discriminate].
Defined.

Lemma filter_none {A} (f : A → bool) l :
  (∀ x, f x = false) → List.filter f l = [].
Proof.
  intros H. induction l as [|d l IH]; [done|]. cbn [List.filter].
  by rewrite H.
Qed.

(** X13. Backwards compatibility. When the stored preference is a bare
    identifier, as older versions wrote it, [getSelectedAudioDevice]
    matches by identifier alone and never by label: it returns the first
    enumerated device with that identifier, or null, and null for an empty
    string; it changes nothing. *)
Theorem legacy_preference_selects_by_id
    (ty : deviceType) (w : World) (s : string)
    (Hraw : localStorage (browser w) !! storage_key ty = Some (Raw s)) :
  result_of (getSelectedAudioDevice ty w)
  = Ok (if bool_decide (s = "") then None
        else List.find (fun dev => bool_decide (deviceId dev = s))
               (devices_of ty (this w)))
  ∧ world_of (getSelectedAudioDevice ty w) = w.
Proof.
  destruct (getSelectedAudioDevice_policy ty w) as (t & Hrun & _).
  rewrite Hrun. cbn. split; [|done]. f_equal.
  unfold selected_device. rewrite Hraw. cbn [read_pref pref_deviceId].
  case_bool_decide; [done|].
  unfold preferred_by_policy.
  rewrite filter_none by (intros; by apply bool_decide_eq_false_2).
  unfold matches_id. cbn [pref_deviceId].
  by destruct (List.find _ _).
Qed.

Lemma legacy_preference_selects_by_id_witness :
  result_of (getSelectedAudioDevice input legacy_world) = Ok (Some mic2).
Proof.
  destruct (legacy_preference_selects_by_id input legacy_world "mic-2")
    as [H _].
  - vm_compute. reflexivity.
  - exact H.
Defined.

(** X14. Round trip of the output preference. After [setAudioOutputDevice]
    with [store] set, on a client with a peer and for an enumerated device,
    the device is the current output device, the microphone preference is
    untouched, and [getSelectedAudioDevice] for outputs returns an
    enumerated device with the same identifier, the device itself when
    identifiers are unique among outputs. A device whose identifier is the
    empty string is stored but never selected. *)
Theorem stored_output_device_is_selected
    (w : World) (d : MediaDeviceInfo)
    (Hpeer : peer (this w) ≠ None)
    (Hin : In d (outputs (audioDevices (this w)))) :
  let w' := world_of (setAudioOutputDevice d true w) in
  currentAudioOutputDevice (this w') = Some d
  ∧ localStorage (browser w') !! STORAGE_CALLS_DEFAULT_AUDIO_INPUT_KEY
    = localStorage (browser w) !! STORAGE_CALLS_DEFAULT_AUDIO_INPUT_KEY
  ∧ (deviceId d = "" →
       result_of (getSelectedAudioDevice output w') = Ok None)
  ∧ (deviceId d ≠ "" →
       ∃ d', result_of (getSelectedAudioDevice output w') = Ok (Some d')
           ∧ In d' (outputs (audioDevices (this w)))
           ∧ deviceId d' = deviceId d
           ∧ ((∀ x, In x (outputs (audioDevices (this w))) →
                    deviceId x = deviceId d → x = d) → d' = d)).
Proof.
  intros w'.
  assert (Hw' : w' = MkWorld (set_currentAudioOutputDevice (Some d) (this w))
                  (set_localStorage
                     (insert STORAGE_CALLS_DEFAULT_AUDIO_OUTPUT_KEY (stringify_device d))
                     (browser w))).
  { unfold w', setAudioOutputDevice. run.
    destruct (peer (this w)); [|done]. cbn [is_some negb when].
    unfold emit. run. reflexivity. }
  rewrite Hw'. cbn [this browser].
  split; [done|]. split; [by simpl; rewrite lookup_insert_ne|].
  destruct (getSelectedAudioDevice_policy output
    (MkWorld (set_currentAudioOutputDevice (Some d) (this w))
       (set_localStorage
          (insert STORAGE_CALLS_DEFAULT_AUDIO_OUTPUT_KEY (stringify_device d))
          (browser w)))) as (t & Hrun & _).
  rewrite Hrun. cbn [result_of fst].
  unfold selected_device. cbn [this browser storage_key].
  replace (localStorage (set_localStorage
             (insert STORAGE_CALLS_DEFAULT_AUDIO_OUTPUT_KEY (stringify_device d))
             (browser w)) !! STORAGE_CALLS_DEFAULT_AUDIO_OUTPUT_KEY)
    with (Some (stringify_device d)) by (simpl; by rewrite lookup_insert_eq).
  cbn [read_pref stringify_device pref_deviceId].
  split.
  - intros Hid. by rewrite bool_decide_eq_true_2.
  - intros Hid. rewrite bool_decide_eq_false_2 by done.
    unfold preferred_by_policy.
    change (devices_of output (set_currentAudioOutputDevice (Some d) (this w)))
      with (outputs (audioDevices (this w))).
    destruct (List.find _ (outputs (audioDevices (this w)))) as [d'|] eqn:Hfind.
    + apply find_some in Hfind as [Hin' Hm].
      unfold matches_id in Hm. apply bool_decide_eq_true in Hm. simpl in Hm.
      exists d'. split; [done|]. split; [done|]. split; [done|].
      intros Huniq. by apply Huniq.
    + pose proof (find_none _ _ Hfind d Hin) as Hn.
      unfold matches_id in Hn. simpl in Hn.
      by apply bool_decide_eq_false in Hn.
Qed.

Lemma stored_output_device_is_selected_witness :
  let w' := world_of (setAudioOutputDevice spk1 true connected_world) in
  currentAudioOutputDevice (this w') = Some spk1
  ∧ ∃ d', result_of (getSelectedAudioDevice output w') = Ok (Some d')
        ∧ deviceId d' = "spk-1".
Proof.
  destruct (stored_output_device_is_selected connected_world spk1)
    as (Hc & _ & _ & Hs).
  - discriminate.
  - left. reflexivity.
  - split; [exact Hc|].
    destruct Hs as (d' & Hr & _ & Hid & _); [discriminate|].
    exists d'. exact (conj Hr Hid).
Defined.


Lemma filter_none_in {A} (f : A → bool) l :
  (∀ x, In x l → f x = false) → List.filter f l = [].
Proof.
  induction l as [|d l IH]; [done|]. intros H. cbn [List.filter].
  rewrite (H d) by (by left). apply IH. intros x Hx. apply H. by right.
Qed.

Lemma ends_only_refl w : ends_only w w.
Proof. repeat split; eauto. Qed.

Lemma ends_only_trans w1 w2 w3 :
  ends_only w1 w2 → ends_only w2 w3 → ends_only w1 w3.
Proof.
  intros (S1 & V1 & R1 & M1 & T1) (S2 & V2 & R2 & M2 & T2).
  repeat split; try congruence.
  intros t tr3 H3. destruct (T2 t tr3 H3) as (tr2 & H2 & E2).
  destruct (T1 t tr2 H2) as (tr1 & H1 & E1). eauto.
Qed.

Lemma ends_only_getTracks w w' s :
  ends_only w w' → getTracks (browser w') s = getTracks (browser w) s.
Proof. intros (_ & _ & _ & M & _). unfold getTracks. by rewrite M. Qed.

Lemma ends_only_stays w w' t tr' :
  ends_only w w' →
  (∀ tr, tracks (browser w) !! t = Some tr → ready tr = ended) →
  tracks (browser w') !! t = Some tr' → ready tr' = ended.
Proof.
  intros (_ & _ & _ & _ & T) H H'. destruct (T t tr' H') as (tr & Ht & E). eauto.
Qed.

(** Stopping a track: only that track changes, and it has ended. *)
Lemma stop_ends_only this0 b t :
  ends_only (MkWorld this0 b)
    (MkWorld this0 (set_tracks (alter (fun tr =>
       MkTrack (track_kind tr) (enabled tr) ended (onended tr)) t) b)).
Proof.
  repeat split. cbn. intros t' tr' H.
  destruct (decide (t' = t)) as [->|Hne].
  - rewrite lookup_alter_eq in H. destruct (tracks b !! t) as [tr|]; [|done].
    injection H as <-. eauto.
  - rewrite lookup_alter_ne in H by done. eauto.
Qed.

Lemma stop_ended b t tr' :
  tracks (set_tracks (alter (fun tr =>
       MkTrack (track_kind tr) (enabled tr) ended (onended tr)) t) b) !! t
  = Some tr' → ready tr' = ended.
Proof.
  cbn. rewrite lookup_alter_eq. destruct (tracks b !! t); [|done].
  by intros [= <-].
Qed.

Lemma run_onended_ends cl w :
  ∃ w' e, run_onended cl w = (Ok tt, w', e) ∧ ends_only w w'.
Proof.
  rewrite run_onended_run. eexists _, _. split; [reflexivity|].
  destruct w as [c b]. cbn [this browser].
  destruct (cl_screenAudioTrack cl) as [a|].
  - destruct (stop_ends_only c b a) as (_ & _ & _ & M & T).
    repeat split; try done.
  - repeat split; eauto.
Qed.

Lemma stop_dispatch_ends t w :
  ∃ w' e, (track_stop t >> dispatch_ended t) w = (Ok tt, w', e)
        ∧ ends_only w w'
        ∧ ∀ tr, tracks (browser w') !! t = Some tr → ready tr = ended.
Proof.
  rewrite track_stop_run.
  set (w1 := MkWorld (this w) (set_tracks (alter (fun tr =>
       MkTrack (track_kind tr) (enabled tr) ended (onended tr)) t) (browser w))).
  rewrite dispatch_ended_run.
  assert (E1 : ends_only w w1) by (destruct w; apply stop_ends_only).
  assert (F1 : ∀ tr, tracks (browser w1) !! t = Some tr → ready tr = ended).
  { intros tr. apply stop_ended. }
  destruct (tracks (browser w1) !! t) as [tr|] eqn:Htr;
    [destruct (onended tr) as [cl|]|].
  - destruct (run_onended_ends cl w1) as (w2 & e2 & H2 & E2). rewrite H2.
    eexists _, _. split; [reflexivity|]. cbn [world_of fst snd].
    split; [by eapply ends_only_trans|].
    intros tr2 Htr2. eapply (ends_only_stays w1 w2); [done| |done].
    intros tr1 Htr1. apply F1. rewrite <- Htr1. symmetry. exact Htr.
  - eexists _, _. split; [reflexivity|]. split; [done|].
    intros tr2 Htr2. apply F1. rewrite <- Htr2. symmetry. exact Htr.
  - eexists _, _. split; [reflexivity|]. split; [done|].
    intros tr2 Htr2. exfalso. assert (Hx : Some tr2 = None) by (rewrite <- Htr2; exact Htr). done.
Qed.

Lemma stop_all_ends ts w :
  ∃ w' e, forEach ts (fun track => track_stop track >> dispatch_ended track) w
          = (Ok tt, w', e)
        ∧ ends_only w w'
        ∧ ∀ t tr, In t ts → tracks (browser w') !! t = Some tr → ready tr = ended.
Proof.
  revert w. induction ts as [|t ts IH]; intros w.
  - exists w, []. split; [reflexivity|]. split; [apply ends_only_refl|].
    intros t tr [].
  - destruct (stop_dispatch_ends t w) as (w1 & e1 & H1 & E1 & F1).
    destruct (IH w1) as (w2 & e2 & H2 & E2 & F2).
    exists w2, (e1 ++ e2). cbn [forEach].
    rewrite (bind_Ok _ _ _ _ _ _ H1), H2.
    split; [reflexivity|]. split; [by eapply ends_only_trans|].
    intros t' tr [<-|Hin] Htr.
    + by eapply (ends_only_stays w1 w2).
    + by eapply F2.
Qed.

Lemma cleanup_loop_ends ss w :
  ∃ w' e,
    forEach ss (fun s =>
      let* b := get_browser in
      forEach (getTracks b s) (fun track =>
        track_stop track >> dispatch_ended track)) w
    = (Ok tt, w', e)
    ∧ ends_only w w'
    ∧ ∀ s t tr, In s ss → In t (getTracks (browser w) s) →
        tracks (browser w') !! t = Some tr → ready tr = ended.
Proof.
  revert w. induction ss as [|s ss IH]; intros w.
  - exists w, []. split; [reflexivity|]. split; [apply ends_only_refl|].
    intros s t tr [].
  - destruct (stop_all_ends (getTracks (browser w) s) w)
      as (w1 & e1 & H1 & E1 & F1).
    destruct (IH w1) as (w2 & e2 & H2 & E2 & F2).
    exists w2, (e1 ++ e2). cbn [forEach].
    assert (Hs : (let* b := get_browser in
                  forEach (getTracks b s) (fun track =>
                    track_stop track >> dispatch_ended track)) w
                 = (Ok tt, w1, e1)).
    { by rewrite bind_get_browser. }
    rewrite (bind_Ok _ _ _ _ _ _ Hs), H2.
    split; [reflexivity|]. split; [by eapply ends_only_trans|].
    intros s' t tr [<-|Hin] Ht Htr.
    + eapply (ends_only_stays w1 w2); [done| |done]. intros tr1. by apply F1.
    + eapply (F2 s'); [done| |done]. by rewrite (ends_only_getTracks w w1).
Qed.

Lemma cleanup_ends w :
  ∃ w' e, cleanup w = (Ok tt, w', e)
        ∧ ends_only w w' ∧ all_tracks_ended w'.
Proof.
  unfold cleanup. rewrite bind_get_this.
  destruct (cleanup_loop_ends (streams (this w)) w) as (w' & e & H & E & F).
  exists w', e. split; [done|]. split; [done|].
  intros s t tr Hs Ht Htr. eapply (F s t); [| |done].
  - destruct E as (S & _). by rewrite <- S.
  - by rewrite <- (ends_only_getTracks w w').
Qed.

Lemma disconnect_open_world w err :
  closed (this w) = false →
  ∃ w1, cleanup (MkWorld (set_peer None (set_closed true (this w))) (browser w))
        = (Ok tt, w1, effects_of (cleanup (MkWorld (set_peer None (set_closed true (this w))) (browser w))))
      ∧ world_of (disconnect err w) = MkWorld (set_ws None (this w1)) (browser w1).
Proof.
  intros Hc.
  set (w0 := MkWorld (set_peer None (set_closed true (this w))) (browser w)).
  destruct (cleanup_ends w0) as (w1 & e & Hcl & _).
  exists w1. rewrite Hcl. split; [done|].
  assert (Hafter :
    world_of ((cleanup >>
     let* c := get_this in
     when (is_some (ws c))
       (tell (WsSend "leave" None) >> tell WsClose >> upd_this (set_ws None)) >>
     emit "close" (Error err)) w0)
    = MkWorld (set_ws None (this w1)) (browser w1)).
  { rewrite (bind_Ok _ _ _ _ _ _ Hcl). run.
    destruct (ws (this w1)) eqn:Hw; cbn [is_some when]; unfold emit; run;
      unfold tell; simpl.
    - reflexivity.
    - by rewrite (set_ws_id _ Hw), world_eta. }
  unfold disconnect, logDebug. run. rewrite Hc.
  destruct (rtcMonitor (this w)); destruct (peer (this w)) eqn:Hp;
    cbn [is_some when]; run.
  - change (MkWorld (set_peer None (set_closed true (this w))) (browser w)) with w0.
    cbn [world_of fst snd]. exact Hafter.
  - replace (MkWorld (set_closed true (this w)) (browser w)) with w0.
    + exact Hafter.
    + unfold w0. f_equal. by apply set_peer_id.
  - change (MkWorld (set_peer None (set_closed true (this w))) (browser w)) with w0.
    exact Hafter.
  - replace (MkWorld (set_closed true (this w)) (browser w)) with w0.
    + exact Hafter.
    + unfold w0. f_equal. by apply set_peer_id.
Qed.

(** X15. After [disconnect] on an open client no media is left running: every
    track of every stream the client holds has ended, no track is live
    that was not, the client still holds the same streams with the same
    tracks, and, the remote tracks belonging to held streams,
    [getRemoteVoiceTracks] returns no track and [getRemoteScreenStream]
    returns null. *)
Theorem disconnect_ends_every_track
    (w : World) (err : option jsError)
    (Hopen : closed (this w) = false)
    (Hreg : remote_tracks_registered w) :
  let w' := world_of (disconnect err w) in
  all_tracks_ended w'
  ∧ streams (this w') = streams (this w)
  ∧ mstreams (browser w') = mstreams (browser w)
  ∧ (∀ t, is_live (browser w') t = true → is_live (browser w) t = true)
  ∧ getRemoteVoiceTracks w' = (Ok [], w', [])
  ∧ getRemoteScreenStream w' = (Ok None, w', []).
Proof.
  intros w'.
  destruct (disconnect_open_world w err Hopen) as (w1 & Hcl & Hw').
  fold w' in Hw'.
  set (w0 := MkWorld (set_peer None (set_closed true (this w))) (browser w)) in *.
  destruct (cleanup_ends w0) as (w1' & e & Hcl' & E & A).
  assert (w1' = w1) as -> by congruence.
  destruct E as (ES & EV & ER & EM & ET).
  assert (Hended : all_tracks_ended w').
  { rewrite Hw'. intros s t tr Hs Ht Htr. by apply (A s t tr). }
  assert (Hstreams : streams (this w') = streams (this w)).
  { rewrite Hw'. cbn. by rewrite ES. }
  assert (Hms : mstreams (browser w') = mstreams (browser w)).
  { rewrite Hw'. cbn. by rewrite EM. }
  assert (Hdead : ∀ t, In t (remoteVoiceTracks (this w))
                     ∨ remoteScreenTrack (this w) = Some t →
                     is_live (browser w') t = false).
  { intros t Ht. destruct (Hreg t Ht) as (s & Hs & Hin).
    unfold is_live. destruct (tracks (browser w') !! t) as [tr|] eqn:Htr; [|done].
    rewrite (Hended s t tr); [done| | |done].
    - by rewrite Hstreams.
    - unfold getTracks. rewrite Hms. exact Hin. }
  split; [done|]. split; [done|]. split; [done|].
  split.
  { intros t. unfold is_live. rewrite Hw'. cbn [browser].
    destruct (tracks (browser w1) !! t) as [tr'|] eqn:Htr'; [|done].
    destruct (ET t tr' Htr') as (tr & Htr & Hend). change (tracks (browser w) !! t = Some tr) in Htr. rewrite Htr.
    destruct (ready tr); [done|]. by rewrite Hend. }
  assert (HV : remoteVoiceTracks (this w') = remoteVoiceTracks (this w)).
  { rewrite Hw'. cbn. by rewrite EV. }
  assert (HR : remoteScreenTrack (this w') = remoteScreenTrack (this w)).
  { rewrite Hw'. cbn. by rewrite ER. }
  split.
  - unfold getRemoteVoiceTracks. run. rewrite HV.
    rewrite (filter_none_in (is_live (browser w'))); [done|].
    intros t Ht. apply Hdead. by left.
  - unfold getRemoteScreenStream. run. rewrite HR.
    destruct (remoteScreenTrack (this w)) as [t|] eqn:Ht; [|done].
    by rewrite Hdead by (by right).
Qed.

Lemma disconnect_ends_every_track_witness :
  let w' := world_of (disconnect None in_call_world) in
  result_of (getRemoteVoiceTracks in_call_world) = Ok [5]
  ∧ getRemoteVoiceTracks w' = (Ok [], w', [])
  ∧ getRemoteScreenStream w' = (Ok None, w', []).
Proof.
  destruct (disconnect_ends_every_track in_call_world None)
    as (_ & _ & _ & _ & Hv & Hs).
  - reflexivity.
  - intros t Ht. vm_compute in Ht.
    destruct Ht as [[<-|[]]|Ht].
    + exists 6. vm_compute. split; [right; left; reflexivity | left; reflexivity].
    + injection Ht as <-. exists 8. vm_compute.
      split; [right; right; left; reflexivity | left; reflexivity].
  - split; [vm_compute; reflexivity | exact (conj Hv Hs)].
Defined.


Lemma setScreenStream_streams w ss vt :
  ws (this w) ≠ None → peer (this w) ≠ None →
  localScreenTrack (this w) = None →
  head (getVideoTracks (browser w) ss) = Some vt →
  let w1 := world_of (setScreenStream (Some ss) w) in
  streams (this w1) = streams (this w) ++ [next_ref (browser w)]
  ∧ getTracks (browser w1) (next_ref (browser w))
    = vt :: match head (getAudioTracks (browser w) ss) with
            | Some a => [a]
            | None => []
            end.
Proof.
  intros Hws Hpeer Hnone Hvt w1. unfold w1, setScreenStream. clear w1. run.
  destruct (ws (this w)) eqn:Hw; [|done].
  destruct (peer (this w)) eqn:Hp; [|done].
  rewrite Hnone. run. rewrite Hvt.
  unfold new_MediaStream, track_set_onended, logDebug, emit. run.
  cbn [config av1Codec set_streams set_localScreenTrack].
  destruct (enableAV1 (config (this w)) && is_some (av1Codec (this w)));
    cbn [when]; run; unfold tell, getTracks; simpl;
    rewrite lookup_insert_eq; (split; [done|]); simpl;
    by destruct (head (getAudioTracks (browser w) ss)).
Qed.

Lemma is_live_stop b (a t : TrackRef) :
  is_live b t = false →
  is_live (set_tracks (alter (fun tr =>
     MkTrack (track_kind tr) (enabled tr) ended (onended tr)) a) b) t = false.
Proof.
  unfold is_live. cbn [tracks set_tracks].
  destruct (decide (t = a)) as [->|Hne].
  - rewrite lookup_alter_eq. by destruct (tracks b !! a).
  - by rewrite lookup_alter_ne.
Qed.

(** X16. Round trip of a screen share. On a client with socket and peer that
    shares nothing, [shareScreen] with a capture that has a video track
    returns the capture and makes that track the local screen track, so
    [getLocalScreenStream] returns a stream. [unshareScreen] then stops the
    track, and its handler stops the capture's audio track if any, removes
    the track from the peer and sends ['screen_off'], in this order. After
    it nothing is shared, the video track has ended, [getLocalScreenStream]
    returns null, and a second [unshareScreen] does nothing. The stream
    made for the share stays in the list of streams. *)
Theorem share_then_unshare
    (w : World) (ss : StreamRef) (vt : TrackRef)
    (Hws : ws (this w) ≠ None) (Hpeer : peer (this w) ≠ None)
    (Hnone : localScreenTrack (this w) = None)
    (Hvt : head (getVideoTracks (browser w) ss) = Some vt) :
  let o1 := shareScreen (Some ss) w in
  let w1 := world_of o1 in
  let o2 := unshareScreen w1 in
  let w2 := world_of o2 in
  result_of o1 = Ok (Some ss)
  ∧ localScreenTrack (this w1) = Some vt
  ∧ result_of (getLocalScreenStream w1) = Ok (Some (next_ref (browser w1)))
  ∧ result_of o2 = Ok tt
  ∧ effects_of o2
    = TrackStop vt :: DispatchEnded vt
      :: match head (getAudioTracks (browser w) ss) with
         | Some a => [TrackStop a]
         | None => []
         end
      ++ [PeerRemoveTrack vt; WsSend "screen_off" None]
  ∧ localScreenTrack (this w2) = None
  ∧ is_live (browser w2) vt = false
  ∧ streams (this w2) = streams (this w) ++ [next_ref (browser w)]
  ∧ getLocalScreenStream w2 = (Ok None, w2, [])
  ∧ unshareScreen w2 = (Ok tt, w2, []).
Proof.
  intros o1 w1 o2 w2.
  destruct (setScreenStream_installs w ss vt Hws Hpeer Hnone Hvt)
    as (R & L & W & P & tr & Htr & Hon).
  destruct (setScreenStream_streams w ss vt Hws Hpeer Hnone Hvt) as (S1 & _).
  assert (Ho1 : o1 = (Ok (Some ss), world_of (setScreenStream (Some ss) w),
                      effects_of (setScreenStream (Some ss) w))).
  { unfold o1, shareScreen. run.
    destruct (ws (this w)); [|done]. destruct (peer (this w)); [|done].
    destruct (setScreenStream (Some ss) w) as [[r w'] e] eqn:Hs.
    cbn in R. subst r. rewrite (bind_Ok _ _ _ _ _ _ Hs). run.
    by rewrite app_nil_r. }
  assert (Hw1 : w1 = world_of (setScreenStream (Some ss) w)).
  { unfold w1. by rewrite Ho1. }
  rewrite <- Hw1 in *. clear Hw1.
  assert (W1 : ws (this w1) ≠ None) by congruence.
  assert (P1 : peer (this w1) ≠ None) by congruence.
  set (b1 := set_tracks (alter (fun tr =>
       MkTrack (track_kind tr) (enabled tr) ended (onended tr)) vt) (browser w1)).
  assert (Hb1 : tracks b1 !! vt
                = Some (MkTrack (track_kind tr) (enabled tr) ended (onended tr))).
  { unfold b1. cbn. by rewrite lookup_alter_eq, Htr. }
  assert (Ho2 : o2 = (Ok tt,
      MkWorld (set_localScreenTrack None (this w1))
        match head (getAudioTracks (browser w) ss) with
        | Some a => set_tracks (alter (fun tr =>
             MkTrack (track_kind tr) (enabled tr) ended (onended tr)) a) b1
        | None => b1
        end,
      TrackStop vt :: DispatchEnded vt
      :: match head (getAudioTracks (browser w) ss) with
         | Some a => [TrackStop a]
         | None => []
         end
      ++ [PeerRemoveTrack vt; WsSend "screen_off" None])).
  { unfold o2, unshareScreen. run. rewrite L.
    destruct (ws (this w1)) eqn:Hw; [|done].
    destruct (peer (this w1)) eqn:Hp; [|done].
    rewrite track_stop_run. fold b1.
    assert (Hd : dispatch_ended vt (MkWorld (this w1) b1)
               = (Ok tt,
                  MkWorld (set_localScreenTrack None (this w1))
                    match head (getAudioTracks (browser w) ss) with
                    | Some a => set_tracks (alter (fun tr =>
                         MkTrack (track_kind tr) (enabled tr) ended (onended tr)) a) b1
                    | None => b1
                    end,
                  DispatchEnded vt
                  :: match head (getAudioTracks (browser w) ss) with
                     | Some a => [TrackStop a]
                     | None => []
                     end
                  ++ [PeerRemoveTrack vt; WsSend "screen_off" None])).
    { rewrite dispatch_ended_run. cbn [this browser]. rewrite Hb1.
      cbn [onended]. rewrite Hon, run_onended_run.
      cbn [this browser cl_screenAudioTrack cl_screenTrack world_of effects_of fst snd].
      by rewrite Hw, Hp. }
    rewrite (bind_Ok _ _ _ _ _ _ Hd). run. cbn [result_of world_of effects_of fst snd].
    rewrite app_nil_r. repeat f_equal. }
  assert (Hw2 : w2 = MkWorld (set_localScreenTrack None (this w1))
        match head (getAudioTracks (browser w) ss) with
        | Some a => set_tracks (alter (fun tr =>
             MkTrack (track_kind tr) (enabled tr) ended (onended tr)) a) b1
        | None => b1
        end).
  { unfold w2. by rewrite Ho2. }
  split; [by rewrite Ho1|]. split; [done|].
  split.
  { unfold getLocalScreenStream. run. rewrite L. unfold new_MediaStream. run.
    reflexivity. }
  split; [by rewrite Ho2|]. split; [by rewrite Ho2|].
  rewrite Hw2. cbn [this browser].
  split; [done|]. split.
  { assert (Hl1 : is_live b1 vt = false) by (unfold is_live; by rewrite Hb1).
    destruct (head (getAudioTracks (browser w) ss)) as [a|]; [|done].
    by apply is_live_stop. }
  split; [exact S1|].
  split.
  - unfold getLocalScreenStream. by run.
  - unfold unshareScreen. run. simpl.
    by destruct (ws (this w1)).
Qed.

Lemma share_then_unshare_witness :
  effects_of (unshareScreen (world_of (shareScreen (Some 3) connected_world)))
  = [TrackStop 2; DispatchEnded 2; PeerRemoveTrack 2; WsSend "screen_off" None].
Proof.
  destruct (share_then_unshare connected_world 3 2)
    as (_ & _ & _ & _ & He & _).
  - discriminate.
  - discriminate.
  - reflexivity.
  - vm_compute. reflexivity.
  - exact He.
Defined.


Lemma filter_not_log_logs t :
  forallb is_log t = true → List.filter not_log t = [].
Proof.
  induction t as [|x t IH]; [done|]. simpl.
  intros [Hx Ht]%andb_true_iff. unfold not_log at 1. rewrite Hx. simpl. by apply IH.
Qed.

Lemma getUserMedia_refused exact w :
  head (env_media (browser w)) ≠ Some true →
  ∃ b2, getUserMedia exact w = (Throw MediaError, MkWorld (this w) b2, [GetUserMedia exact])
      ∧ tracks b2 = tracks (browser w) ∧ mstreams b2 = mstreams (browser w)
      ∧ localStorage b2 = localStorage (browser w)
      ∧ env_devices b2 = env_devices (browser w).
Proof.
  intros Henv. unfold getUserMedia. run.
  destruct (env_media (browser w)) as [|[] rest]; [|done|].
  - exists (browser w). split; [|done]. unfold throw. by rewrite world_eta.
  - run. unfold throw. eexists. split; [reflexivity|]. done.
Qed.


Lemma initAudio_with_run upd arg w :
  ∃ t1 t2,
    forallb is_log t1 = true ∧ forallb is_log t2 = true
    ∧ initAudio_with upd arg w
      = (result_of (acquire_with upd (requested_device arg w) (prefs_world w)),
         world_of (acquire_with upd (requested_device arg w) (prefs_world w)),
         t1 ++ t2
         ++ effects_of (acquire_with upd (requested_device arg w) (prefs_world w))).
Proof.
  destruct (getSelectedAudioDevice_policy input w) as (t1 & H1 & L1).
  set (w1 := MkWorld
               (match selected_device input w with
                | Some d => set_currentAudioInputDevice (Some d)
                | None => fun c => c
                end (this w)) (browser w)).
  destruct (getSelectedAudioDevice_policy output w1) as (t2 & H2 & L2).
  assert (Hsame : selected_device output w1 = selected_device output w).
  { unfold selected_device, w1. cbn [this browser].
    by destruct (selected_device input w). }
  rewrite Hsame in H2.
  exists t1, t2. split; [done|]. split; [done|].
  unfold initAudio_with. rewrite (bind_Ok _ _ _ _ _ _ H1).
  assert (Hw : (when (is_some (selected_device input w))
                 (upd_this (set_currentAudioInputDevice (selected_device input w)))) w
               = (Ok tt, w1, [])).
  { unfold w1. destruct (selected_device input w); cbn [is_some when].
    - reflexivity.
    - unfold ret. by rewrite world_eta. }
  rewrite (bind_Ok _ _ _ _ _ _ Hw), (bind_Ok _ _ _ _ _ _ H2).
  assert (Hw2 : (when (is_some (selected_device output w))
                 (upd_this (set_currentAudioOutputDevice (selected_device output w)))) w1
               = (Ok tt, prefs_world w, [])).
  { unfold prefs_world. destruct (selected_device output w); cbn [is_some when].
    - reflexivity.
    - unfold ret. reflexivity. }
  rewrite (bind_Ok _ _ _ _ _ _ Hw2).
  cbn [result_of world_of effects_of fst snd app]. reflexivity.
Qed.

Lemma audio_error_prefs w : audio_error (prefs_world w) = audio_error w.
Proof.
  unfold audio_error, prefs_world. cbn [this].
  by destruct (selected_device output w), (selected_device input w).
Qed.

Lemma acquire_refused upd exact w :
  head (env_media (browser w)) ≠ Some true →
  ∃ b2, acquire_with upd exact w
        = (Throw (audio_error w), MkWorld (this w) b2,
           [GetUserMedia exact; Log Err "getUserMedia failed"])
      ∧ tracks b2 = tracks (browser w) ∧ mstreams b2 = mstreams (browser w)
      ∧ localStorage b2 = localStorage (browser w)
      ∧ env_devices b2 = env_devices (browser w).
Proof.
  intros Henv.
  destruct (getUserMedia_refused exact w Henv) as (b2 & Hg & Hb).
  exists b2. split; [|done].
  unfold acquire_with, try_catch. rewrite (bind_Throw _ _ _ _ _ _ Hg).
  unfold logErr. run. cbn [this audio_error error_message].
  unfold audio_error.
  destruct (inputs (audioDevices (this w))); reflexivity.
Qed.

(** X17. When the platform refuses the microphone, [initAudio] rejects with
    [AudioInputPermissionsError] if the client knows of any audio input,
    and with [AudioInputMissingError] if it knows of none. The platform
    was asked once, for the enumerated stored preference if there is one,
    whatever the argument, and otherwise for the argument if it is a
    non-empty string. Audio track, stream, list of streams and the tracks
    of the heap are untouched, and no event is emitted; the current input
    device has already moved to the stored preference. *)
Theorem initAudio_capture_refused
    (fuel : nat) (deviceId_arg : option string) (w : World)
    (Hrefused : head (env_media (browser w)) ≠ Some true) :
  let o := initAudio fuel deviceId_arg w in
  result_of o
  = Throw match inputs (audioDevices (this w)) with
          | [] => AudioInputMissingError
          | _ :: _ => AudioInputPermissionsError
          end
  ∧ List.filter (fun e => negb (is_log e)) (effects_of o)
    = [GetUserMedia
         match selected_device input w with
         | Some d => Some (deviceId d)
         | None =>
             match deviceId_arg with
             | Some d => if bool_decide (d = "") then None else Some d
             | None => None
             end
         end]
  ∧ audioTrack (this (world_of o)) = audioTrack (this w)
  ∧ stream (this (world_of o)) = stream (this w)
  ∧ streams (this (world_of o)) = streams (this w)
  ∧ tracks (browser (world_of o)) = tracks (browser w)
  ∧ currentAudioInputDevice (this (world_of o))
    = match selected_device input w with
      | Some d => Some d
      | None => currentAudioInputDevice (this w)
      end.
Proof.
  intros o.
  destruct (initAudio_with_run (updateDevices fuel) deviceId_arg w)
    as (t1 & t2 & L1 & L2 & Hrun).
  destruct (acquire_refused (updateDevices fuel)
              (requested_device deviceId_arg w) (prefs_world w) Hrefused)
    as (b2 & Hacq & Ht & _).
  rewrite Hacq in Hrun. unfold o, initAudio. rewrite Hrun.
  cbn [result_of world_of effects_of fst snd this browser].
  split; [by rewrite audio_error_prefs|].
  split.
  { rewrite !List.filter_app.
    fold not_log. rewrite (filter_not_log_logs t1 L1), (filter_not_log_logs t2 L2).
    reflexivity. }
  unfold prefs_world. cbn [this browser].
  by destruct (selected_device output w), (selected_device input w).
Qed.

Lemma initAudio_capture_refused_witness :
  result_of (initAudio 0 None no_mic_refused_world)
  = Throw AudioInputPermissionsError.
Proof.
  destruct (initAudio_capture_refused 0 None no_mic_refused_world) as (H & _).
  - vm_compute. discriminate.
  - exact H.
Defined.

(** X18. [unmute] on a client with a peer and no audio track, when the
    platform refuses the microphone: the promise resolves, one ['error']
    event carries the error of [initAudio], and nothing else happens: no
    ['unmute'] event, no call on the peer, nothing on the socket; the
    client still has no audio track. *)
Theorem unmute_without_microphone
    (fuel : nat) (w : World)
    (Hpeer : peer (this w) ≠ None)
    (Htrack : audioTrack (this w) = None)
    (Hrefused : head (env_media (browser w)) ≠ Some true) :
  let o := unmute fuel w in
  result_of o = Ok tt
  ∧ List.filter is_any_emit (effects_of o)
    = [Emit "error"
         (Error (Some match inputs (audioDevices (this w)) with
                      | [] => AudioInputMissingError
                      | _ :: _ => AudioInputPermissionsError
                      end))]
  ∧ List.filter is_peer_call (effects_of o) = []
  ∧ List.filter is_socket_call (effects_of o) = []
  ∧ audioTrack (this (world_of o)) = None
  ∧ voiceTrackAdded (this (world_of o)) = voiceTrackAdded (this w).
Proof.
  intros o.
  destruct (initAudio_with_run (updateDevices fuel) None w)
    as (t1 & t2 & L1 & L2 & Hrun).
  destruct (acquire_refused (updateDevices fuel)
              (requested_device None w) (prefs_world w) Hrefused)
    as (b2 & Hacq & _).
  rewrite Hacq in Hrun.
  cbn [result_of world_of effects_of fst snd this browser] in Hrun.
  assert (Ho : o = (Ok tt, MkWorld (this (prefs_world w)) b2,
                    (t1 ++ t2 ++ [GetUserMedia (requested_device None w);
                                  Log Err "getUserMedia failed"])
                    ++ [Emit "error" (Error (Some (audio_error w)))])).
  { unfold o, unmute. run. destruct (peer (this w)); [|done].
    cbn [is_some negb]. rewrite Htrack.
    assert (Htry : try_catch (initAudio fuel None >> ret true)
              (fun err => emit "error" (Error (Some err)) >> ret false) w
            = (Ok false, MkWorld (this (prefs_world w)) b2,
               (t1 ++ t2 ++ [GetUserMedia (requested_device None w);
                             Log Err "getUserMedia failed"])
               ++ [Emit "error" (Error (Some (audio_error w)))])).
    { unfold try_catch. unfold initAudio.
      rewrite (bind_Throw _ _ _ _ _ _ Hrun). unfold emit. run.
      by rewrite audio_error_prefs. }
    rewrite (bind_Ok _ _ _ _ _ _ Htry). cbn [negb]. unfold ret.
    cbn [result_of world_of effects_of fst snd]. by rewrite app_nil_r. }
  rewrite Ho. cbn [result_of world_of effects_of fst snd this browser].
  assert (F1 : ∀ f, (∀ l m, f (Log l m) = false) → ∀ t,
             forallb is_log t = true → List.filter f t = []).
  { intros f Hf t. induction t as [|x t IH]; [done|]. simpl.
    intros [Hx Ht]%andb_true_iff. destruct x; try done. rewrite Hf. by apply IH. }
  split; [done|].
  split; [rewrite !List.filter_app, (F1 is_any_emit), (F1 is_any_emit) by done; done|].
  split; [rewrite !List.filter_app, (F1 is_peer_call), (F1 is_peer_call) by done; done|].
  split; [rewrite !List.filter_app, (F1 is_socket_call), (F1 is_socket_call) by done; done|].
  unfold prefs_world. cbn [this].
  by destruct (selected_device output w), (selected_device input w).
Qed.

Lemma unmute_without_microphone_witness :
  List.filter is_any_emit (effects_of (unmute 0 no_mic_refused_world))
  = [Emit "error" (Error (Some AudioInputPermissionsError))].
Proof.
  destruct (unmute_without_microphone 0 no_mic_refused_world)
    as (_ & H & _).
  - discriminate.
  - reflexivity.
  - vm_compute. discriminate.
  - exact H.
Defined.


Lemma updateDevices_idle n w :
  currentAudioInputDevice (this w) = None →
  currentAudioOutputDevice (this w) = None →
  updateDevices (S n) w
  = match env_devices (browser w) with
    | Some ds :: rest =>
        let ad :=
          MkAudioDevices
            (List.filter (fun d => bool_decide (kind d = audioinput)) ds)
            (List.filter (fun d => bool_decide (kind d = audiooutput)) ds) in
        (Ok tt,
         MkWorld (set_audioDevices ad (this w))
           (set_env_devices rest (browser w)),
         [Log Debug "a/v device change detected"; EnumerateDevices;
          Emit "devicechange" (Devices ad)])
    | None :: rest =>
        (Ok tt, MkWorld (this w) (set_env_devices rest (browser w)),
         [Log Debug "a/v device change detected"; EnumerateDevices;
          Log Err "enumerateDevices failed"])
    | [] =>
        (Ok tt, w,
         [Log Debug "a/v device change detected"; EnumerateDevices;
          Log Err "enumerateDevices failed"])
    end.
Proof.
  intros Hin Hout. cbn [updateDevices]. unfold updateDevices_with, logDebug.
  run. unfold try_catch, enumerateDevices. run.
  destruct (env_devices (browser w)) as [|[ds|] rest]; run.
  - reflexivity.
  - cbn [this set_audioDevices currentAudioInputDevice currentAudioOutputDevice].
    rewrite Hin. cbn [is_some when]. run.
    cbn [this set_audioDevices currentAudioInputDevice currentAudioOutputDevice].
    rewrite Hout. cbn [is_some when]. unfold emit. run. reflexivity.
  - reflexivity.
Qed.


Lemma try_catch_Ok {A} (body : M A) h w a w1 t1 :
  body w = (Ok a, w1, t1) → try_catch body h w = (Ok a, w1, t1).
Proof. intros H. unfold try_catch. by rewrite H. Qed.

Lemma acquire_granted_idle n exact c b rest :
  currentAudioInputDevice c = None →
  currentAudioOutputDevice c = None →
  env_media b = true :: rest →
  let t : TrackRef := next_ref b in
  let s : StreamRef := S (next_ref b) in
  ∃ w' e,
    acquire_with (updateDevices (S n)) exact (MkWorld c b) = (Ok tt, w', e)
    ∧ List.filter is_any_emit e
      = devicechange_of b ++ [Emit "initaudio" NoPayload]
    ∧ List.filter is_peer_call e = []
    ∧ List.filter is_socket_call e = []
    ∧ audioTrack (this w') = Some t
    ∧ stream (this w') = Some s
    ∧ streams (this w') = streams c ++ [s]
    ∧ voiceTrackAdded (this w') = voiceTrackAdded c
    ∧ peer (this w') = peer c
    ∧ ws (this w') = ws c
    ∧ rtcMonitor (this w') = rtcMonitor c
    ∧ tracks (browser w') !! t = Some (MkTrack audio false live None)
    ∧ mstreams (browser w') !! s = Some (MkStream [t]).
Proof.
  intros Hin Hout Hmedia t s.
  set (b1 := set_next_ref (S (S t))
    (set_mstreams (insert (S t) (MkStream [t]))
       (set_env_media rest
          (set_next_ref (S t)
             (set_tracks (insert t (MkTrack audio true live None)) b))))).
  set (c1 := set_stream (Some (S t)) c).
  assert (Hgum : getUserMedia exact (MkWorld c b)
                 = (Ok (S t), MkWorld c b1, [GetUserMedia exact])).
  { unfold getUserMedia. run. cbn [this browser]. rewrite Hmedia.
    unfold new_MediaStream. run. reflexivity. }
  assert (Hms : mstreams b1 !! s = Some (MkStream [t]))
    by (unfold b1; simpl; apply lookup_insert_eq).
  assert (Htr : tracks b1 !! t = Some (MkTrack audio true live None))
    by (unfold b1; simpl; apply lookup_insert_eq).
  assert (Hud := updateDevices_idle n (MkWorld c1 b1) Hin Hout).
  cbn [this browser] in Hud.
  assert (Henv : env_devices b1 = env_devices b) by reflexivity.
  assert (Haudio : ∀ r, head (getAudioTracks (set_env_devices r b1) (S t)) = Some t).
  { intros r. unfold getAudioTracks, getTracks, has_kind.
    change (mstreams (set_env_devices r b1)) with (mstreams b1).
    change (tracks (set_env_devices r b1)) with (tracks b1).
    change (S t) with s. rewrite Hms. cbn [stream_tracks List.filter]. rewrite Htr.
    cbn [track_kind]. by rewrite bool_decide_eq_true_2. }
  assert (Haudio1 : head (getAudioTracks b1 (S t)) = Some t).
  { unfold getAudioTracks, getTracks, has_kind.
    change (S t) with s. rewrite Hms. cbn [stream_tracks List.filter]. rewrite Htr.
    cbn [track_kind]. by rewrite bool_decide_eq_true_2. }
  unfold devicechange_of, acquire_with.
  destruct (env_devices b) as [|[ds|] rest'] eqn:Hed; rewrite Henv in Hud;
    eexists _, _;
    (split;
     [apply try_catch_Ok;
      rewrite (bind_Ok _ _ _ _ _ _ Hgum); run;
      change (MkWorld (set_stream (Some (S t)) c) b1) with (MkWorld c1 b1);
      rewrite (bind_Ok _ _ _ _ _ _ Hud); run;
      cbn [this browser]; unfold c1;
      cbn [stream set_stream set_audioDevices]; rewrite ?Haudio, ?Haudio1;
      unfold track_set_enabled, emit; run; reflexivity|]);
    cbn [result_of world_of effects_of fst snd app this browser];
    (repeat (split; [done|]));
    (split; [|exact Hms]);
    cbn [world_of tell fst snd browser tracks set_tracks set_env_devices];
    by rewrite lookup_alter_eq, Htr.
Qed.

Lemma no_preference ty (w : World) :
  localStorage (browser w) !! storage_key ty = None →
  selected_device ty w = None.
Proof. intros H. unfold selected_device. by rewrite H. Qed.

(** X19. The microphone is acquired lazily and starts muted. On a client with
    a peer, no audio track, no current devices and no stored preference,
    when the platform grants the capture: [initAudio] leaves the new track
    disabled and does not touch the peer; [unmute] acquires the track,
    keeps its stream, adds the track to the peer exactly once, enables it,
    records that it was added, emits ['devicechange'] if the devices could
    be enumerated, then ['initaudio'] and ['unmute'], and sends ['unmute']
    on the socket if there is one. *)
Theorem first_unmute_acquires_microphone
    (n : nat) (w : World) (rest : list bool)
    (Hpeer : peer (this w) ≠ None)
    (Htrack : audioTrack (this w) = None)
    (Hadded : voiceTrackAdded (this w) = false)
    (Hin : currentAudioInputDevice (this w) = None)
    (Hout : currentAudioOutputDevice (this w) = None)
    (Hpin : localStorage (browser w) !! STORAGE_CALLS_DEFAULT_AUDIO_INPUT_KEY = None)
    (Hpout : localStorage (browser w) !! STORAGE_CALLS_DEFAULT_AUDIO_OUTPUT_KEY = None)
    (Hgranted : env_media (browser w) = true :: rest) :
  let t : TrackRef := next_ref (browser w) in
  let s : StreamRef := S (next_ref (browser w)) in
  let o1 := initAudio (S n) None w in
  let o := unmute (S n) w in
  (result_of o1 = Ok tt
   ∧ audioTrack (this (world_of o1)) = Some t
   ∧ track_enabled (browser (world_of o1)) t = false
   ∧ List.filter is_peer_call (effects_of o1) = [])
  ∧ result_of o = Ok tt
  ∧ audioTrack (this (world_of o)) = Some t
  ∧ stream (this (world_of o)) = Some s
  ∧ streams (this (world_of o)) = streams (this w) ++ [s]
  ∧ getTracks (browser (world_of o)) s = [t]
  ∧ track_enabled (browser (world_of o)) t = true
  ∧ is_live (browser (world_of o)) t = true
  ∧ voiceTrackAdded (this (world_of o)) = true
  ∧ List.filter is_peer_call (effects_of o) = [PeerAddTrack t s]
  ∧ List.filter is_any_emit (effects_of o)
    = match env_devices (browser w) with
      | Some ds :: _ =>
          [Emit "devicechange"
             (Devices
                (MkAudioDevices
                   (List.filter (fun d => bool_decide (kind d = audioinput)) ds)
                   (List.filter (fun d => bool_decide (kind d = audiooutput)) ds)))]
      | _ => []
      end
      ++ [Emit "initaudio" NoPayload; Emit "unmute" NoPayload]
  ∧ List.filter is_socket_call (effects_of o)
    = if is_some (ws (this w)) then [WsSend "unmute" None] else [].
Proof.
  intros t s o1 o.
  destruct (initAudio_with_run (updateDevices (S n)) None w)
    as (t1 & t2 & L1 & L2 & Hrun).
  assert (Hprefs : prefs_world w = w).
  { unfold prefs_world.
    rewrite (no_preference input w Hpin), (no_preference output w Hpout).
    by destruct w. }
  rewrite Hprefs in Hrun.
  destruct w as [c b]. cbn [this browser] in *.
  destruct (acquire_granted_idle n (requested_device None (MkWorld c b)) c b rest
              Hin Hout Hgranted)
    as (w' & e & Hacq & Eemit & Epeer & Esock & A & St & Ss & V & P & W & Mo & Tr & Ms).
  fold (requested_device None (MkWorld c b)) in Hacq.
  rewrite Hacq in Hrun.
  cbn [result_of world_of effects_of fst snd] in Hrun.
  change (audioTrack (this w') = Some t) in A.
  change (stream (this w') = Some s) in St.
  change (streams (this w') = streams c ++ [s]) in Ss.
  change (tracks (browser w') !! t = Some (MkTrack audio false live None)) in Tr.
  change (mstreams (browser w') !! s = Some (MkStream [t])) in Ms.
  assert (F1 : ∀ f, (∀ l m, f (Log l m) = false) → ∀ t,
             forallb is_log t = true → List.filter f t = []).
  { intros f Hf l. induction l as [|x l IH]; [done|]. simpl.
    intros [Hx Ht]%andb_true_iff. destruct x; try done. rewrite Hf. by apply IH. }
  assert (Ho1 : o1 = (Ok tt, w',
            t1 ++ t2 ++ e)) by exact Hrun.
  split.
  { rewrite Ho1. cbn [result_of world_of effects_of fst snd].
    split; [done|]. split; [done|].
    split; [unfold track_enabled; by rewrite Tr|].
    rewrite !List.filter_app, (F1 is_peer_call), (F1 is_peer_call), Epeer by done.
    done. }
  set (b2 := set_tracks (alter (fun tr =>
               MkTrack (track_kind tr) true (ready tr) (onended tr)) t) (browser w')).
  assert (Ho : o = (Ok tt,
               MkWorld (set_voiceTrackAdded true (this w')) b2,
               (t1 ++ t2 ++ e)
               ++ (if is_some (rtcMonitor c) then [MonitorClearCache] else [])
               ++ [Log Debug "adding track to peer"; PeerAddTrack t s;
                   Emit "unmute" NoPayload]
               ++ (if is_some (ws c) then [WsSend "unmute" None] else []))).
  { unfold o, unmute. run. cbn [this]. destruct (peer c) eqn:Hp; [|done].
    cbn [is_some negb]. rewrite Htrack.
    assert (Htry : try_catch (initAudio (S n) None >> ret true)
              (fun err => emit "error" (Error (Some err)) >> ret false) (MkWorld c b)
            = (Ok true, w',
               t1 ++ t2 ++ e)).
    { unfold try_catch. unfold initAudio.
      rewrite (bind_Ok _ _ _ _ _ _ Hrun). unfold ret.
      cbn [result_of world_of effects_of fst snd]. by rewrite app_nil_r. }
    rewrite (bind_Ok _ _ _ _ _ _ Htry). cbn [negb].
    assert (Hrest :
      (when (is_some (rtcMonitor c)) (tell MonitorClearCache) >>
       let* c0 := get_this in
       match audioTrack c0 with
       | Some t0 =>
           (if voiceTrackAdded c0 then
              logDebug "replacing track to peer" >>
              tell (PeerReplaceTrack t0 (Some t0))
            else
              match stream c0 with
              | Some st =>
                  logDebug "adding track to peer" >>
                  tell (PeerAddTrack t0 st) >>
                  upd_this (set_voiceTrackAdded true)
              | None => ret tt
              end) >>
           track_set_enabled t0 true
       | None => ret tt
       end >>
       emit "unmute" NoPayload >>
       let* c0 := get_this in
       when (is_some (ws c0)) (tell (WsSend "unmute" None))) w'
      = (Ok tt, MkWorld (set_voiceTrackAdded true (this w')) b2,
         (if is_some (rtcMonitor c) then [MonitorClearCache] else [])
         ++ [Log Debug "adding track to peer"; PeerAddTrack t s;
             Emit "unmute" NoPayload]
         ++ (if is_some (ws c) then [WsSend "unmute" None] else []))).
    { destruct (rtcMonitor c); cbn [is_some when]; run;
        rewrite A, V, Hadded, St; unfold logDebug, track_set_enabled, emit; run;
        cbn [this set_voiceTrackAdded ws]; rewrite W;
        destruct (ws c); cbn [is_some when]; run; reflexivity. }
    rewrite Hrest. reflexivity. }
  rewrite Ho. cbn [result_of world_of effects_of fst snd this browser].
  split; [done|]. split; [done|]. split; [done|]. split; [done|].
  split; [unfold getTracks, b2; cbn [mstreams set_tracks]; by rewrite Ms|].
  assert (Hb2 : tracks b2 !! t = Some (MkTrack audio true live None)).
  { unfold b2. cbn [tracks set_tracks]. by rewrite lookup_alter_eq, Tr. }
  split; [unfold track_enabled; by rewrite Hb2|].
  split; [unfold is_live; by rewrite Hb2|].
  split; [done|].
  split.
  { rewrite !List.filter_app, (F1 is_peer_call), (F1 is_peer_call), Epeer by done.
    by destruct (rtcMonitor c), (ws c). }
  split.
  { rewrite !List.filter_app, (F1 is_any_emit), (F1 is_any_emit), Eemit by done.
    unfold devicechange_of.
    destruct (rtcMonitor c), (ws c); cbn [is_some List.filter is_any_emit app];
      by rewrite <- ?app_assoc, ?app_nil_r. }
  rewrite !List.filter_app, (F1 is_socket_call), (F1 is_socket_call), Esock by done.
  by destruct (rtcMonitor c), (ws c).
Qed.

Lemma first_unmute_acquires_microphone_witness :
  List.filter is_peer_call (effects_of (unmute 1 no_mic_granted_world))
  = [PeerAddTrack 4 5]
  ∧ track_enabled (browser (world_of (unmute 1 no_mic_granted_world))) 4 = true.
Proof.
  destruct (first_unmute_acquires_microphone 0 no_mic_granted_world [])
    as (_ & _ & _ & _ & _ & _ & He & _ & _ & Hp & _).
  - discriminate.
  - reflexivity.
  - reflexivity.
  - reflexivity.
  - reflexivity.
  - vm_compute. reflexivity.
  - vm_compute. reflexivity.
  - reflexivity.
  - exact (conj Hp He).
Defined.


Lemma setAudioInputDevice_refused fuel d store w old st :
  peer (this w) ≠ None →
  audioTrack (this w) = Some old →
  stream (this w) = Some st →
  head (env_media (browser w)) ≠ Some true →
  ∃ b2,
    setAudioInputDevice fuel d store w
    = (Throw MediaError, MkWorld (this (chosen_world d store w)) b2,
       [Emit "devicechange" (Devices (audioDevices (this w)));
        TrackStop old; GetUserMedia (Some (deviceId d))])
    ∧ tracks b2 = tracks (stopped old (browser (chosen_world d store w)))
    ∧ mstreams b2 = mstreams (browser w)
    ∧ localStorage b2 = localStorage (browser (chosen_world d store w))
    ∧ env_devices b2 = env_devices (browser w).
Proof.
  intros Hp Hold Hst Hmedia.
  set (w1 := MkWorld (this (chosen_world d store w))
               (stopped old (browser (chosen_world d store w)))).
  assert (Hm1 : head (env_media (browser w1)) ≠ Some true).
  { unfold w1, chosen_world. by destruct store. }
  destruct (getUserMedia_refused (Some (deviceId d)) w1 Hm1)
    as (b2 & Hg & Ht & Hms & Hls & Hed).
  exists b2. split.
  - unfold setAudioInputDevice, setAudioInputDevice_with, emit. run.
    destruct (peer (this w)); [|done]. cbn [is_some negb].
    destruct store; cbn [when]; run;
      cbn [audioTrack stream set_currentAudioInputDevice this];
      rewrite Hold, Hst; run; rewrite track_stop_run;
      cbn [this browser];
      match goal with
      | |- context [bind (getUserMedia _) ?k ?w0] =>
          change w0 with w1; rewrite (bind_Throw _ k _ _ _ _ Hg)
      end; reflexivity.
  - rewrite Ht, Hms, Hls, Hed. unfold w1, chosen_world. by destruct store.
Qed.

(** X20. A switch of microphone that the platform refuses is not rolled back.
    [setAudioInputDevice] rejects with the platform's error after it has
    stored the preference (if asked), made the new device the current one,
    emitted ['devicechange'] and stopped the old track: the client is left
    with the new device as current and the old, ended track as its audio
    track; the peer was not called and the streams are as they were. *)
Theorem refused_microphone_switch_is_not_rolled_back
    (fuel : nat) (d : MediaDeviceInfo) (store : bool) (w : World)
    (old : TrackRef) (st : StreamRef)
    (Hpeer : peer (this w) ≠ None)
    (Htrack : audioTrack (this w) = Some old)
    (Hstream : stream (this w) = Some st)
    (Hrefused : head (env_media (browser w)) ≠ Some true) :
  let o := setAudioInputDevice fuel d store w in
  result_of o = Throw MediaError
  ∧ effects_of o
    = [Emit "devicechange" (Devices (audioDevices (this w)));
       TrackStop old; GetUserMedia (Some (deviceId d))]
  ∧ currentAudioInputDevice (this (world_of o)) = Some d
  ∧ audioTrack (this (world_of o)) = Some old
  ∧ is_live (browser (world_of o)) old = false
  ∧ streams (this (world_of o)) = streams (this w)
  ∧ getTracks (browser (world_of o)) st = getTracks (browser w) st
  ∧ localStorage (browser (world_of o)) !! STORAGE_CALLS_DEFAULT_AUDIO_INPUT_KEY
    = if store then Some (stringify_device d)
      else localStorage (browser w) !! STORAGE_CALLS_DEFAULT_AUDIO_INPUT_KEY.
Proof.
  intros o.
  destruct (setAudioInputDevice_refused fuel d store w old st
              Hpeer Htrack Hstream Hrefused) as (b2 & Ho & Ht & Hms & Hls & _).
  unfold o. rewrite Ho. cbn [result_of world_of effects_of fst snd this browser].
  split; [done|]. split; [done|]. split; [done|]. split; [done|].
  split.
  { unfold is_live. rewrite Ht. unfold stopped. cbn [tracks set_tracks].
    rewrite lookup_alter_eq. by destruct (tracks _ !! old). }
  split; [done|].
  split; [unfold getTracks; by rewrite Hms|].
  rewrite Hls. unfold chosen_world. cbn [browser].
  destruct store; [|done]. simpl. by rewrite lookup_insert_eq.
Qed.

Lemma refused_microphone_switch_is_not_rolled_back_witness :
  let o := setAudioInputDevice 0 mic2 true connected_world in
  result_of o = Throw MediaError
  ∧ currentAudioInputDevice (this (world_of o)) = Some mic2
  ∧ is_live (browser (world_of o)) 0 = false.
Proof.
  destruct (refused_microphone_switch_is_not_rolled_back 0 mic2 true
              connected_world 0 1) as (Hr & _ & Hc & _ & Hl & _).
  - discriminate.
  - reflexivity.
  - reflexivity.
  - vm_compute. discriminate.
  - exact (conj Hr (conj Hc Hl)).
Defined.


Lemma fresh_track (b : Browser) (t : TrackRef) :
  heap_fresh b → is_Some (tracks b !! t) → t ≠ next_ref b.
Proof.
  intros Hf [tr Ht] ->. destruct (Hf (next_ref b)) as [Hn _]; [lia|].
  assert (Hx : Some tr = None) by (rewrite <- Ht; exact Hn). done.
Qed.

Lemma fresh_stream (b : Browser) (s : StreamRef) :
  heap_fresh b → is_Some (mstreams b !! s) → s ≠ S (next_ref b).
Proof.
  intros Hf [ms Hs] ->. destruct (Hf (S (next_ref b))) as [_ Hn]; [lia|].
  assert (Hx : Some ms = None) by (rewrite <- Hs; exact Hn). done.
Qed.

Lemma mic_unplugged_heap_fresh : heap_fresh (browser mic_unplugged_world).
Proof.
  intros n Hn. simpl in Hn. split; simpl.
  - rewrite lookup_insert_ne by lia. apply lookup_singleton_ne. lia.
  - rewrite lookup_insert_ne by lia. apply lookup_singleton_ne. lia.
Qed.

(** X21. A granted switch of microphone. The old track is stopped, the new
    track takes its place in the client's stream and as audio track, and
    inherits whether the old one was enabled. If the old track was enabled
    the peer is told once: a track replacement if a voice track had been
    added, an addition otherwise. If it was disabled the peer is not told,
    the added flag is reset, and the next [unmute] adds the new track to
    the peer and enables it. One ['devicechange'] event is emitted. *)
Theorem microphone_switch_replaces_the_track
    (fuel : nat) (d : MediaDeviceInfo) (store : bool) (w : World)
    (old : TrackRef) (st : StreamRef) (rest : list bool)
    (Hpeer : peer (this w) ≠ None)
    (Htrack : audioTrack (this w) = Some old)
    (Hstream : stream (this w) = Some st)
    (Hheap : is_Some (tracks (browser w) !! old))
    (Hst : is_Some (mstreams (browser w) !! st))
    (Hfresh : heap_fresh (browser w))
    (Hgranted : env_media (browser w) = true :: rest) :
  let t : TrackRef := next_ref (browser w) in
  let o := setAudioInputDevice fuel d store w in
  let w' := world_of o in
  let was_on := track_enabled (browser w) old in
  result_of o = Ok tt
  ∧ audioTrack (this w') = Some t
  ∧ currentAudioInputDevice (this w') = Some d
  ∧ is_live (browser w') old = false
  ∧ is_live (browser w') t = true
  ∧ track_enabled (browser w') t = was_on
  ∧ (In t (getTracks (browser w') st) ∧ ¬ In old (getTracks (browser w') st))
  ∧ List.filter is_peer_call (effects_of o)
    = (if was_on then
         [if voiceTrackAdded (this w) then PeerReplaceTrack old (Some t)
          else PeerAddTrack t st]
       else [])
  ∧ voiceTrackAdded (this w') = was_on && voiceTrackAdded (this w)
  ∧ List.filter is_any_emit (effects_of o)
    = [Emit "devicechange" (Devices (audioDevices (this w)))]
  ∧ (was_on = false →
     List.filter is_peer_call (effects_of (unmute fuel w')) = [PeerAddTrack t st]
     ∧ track_enabled (browser (world_of (unmute fuel w'))) t = true).
Proof.
  intros t o w' was_on.
  pose proof (fresh_track _ _ Hfresh Hheap) as Hne.
  pose proof (fresh_stream _ _ Hfresh Hst) as Hnes.
  destruct Hheap as [tro Htro]. destruct Hst as [mst Hmst].
  set (b0 := browser (chosen_world d store w)).
  set (b1 := set_next_ref (S (S t))
    (set_mstreams (insert (S t) (MkStream [t]))
       (set_env_media rest
          (set_next_ref (S t)
             (set_tracks (insert t (MkTrack audio true live None))
                (stopped old b0)))))).
  set (c1 := set_currentAudioInputDevice (Some d) (this w)).
  assert (Hgum : getUserMedia (Some (deviceId d)) (MkWorld c1 (stopped old b0))
                 = (Ok (S t), MkWorld c1 b1, [GetUserMedia (Some (deviceId d))])).
  { unfold getUserMedia. run. cbn [this browser].
    replace (env_media (stopped old b0)) with (true :: rest)
      by (unfold b0, chosen_world; by destruct store).
    unfold new_MediaStream. run.
    replace (next_ref (stopped old b0)) with t
      by (unfold b0, chosen_world; by destruct store).
    reflexivity. }
  assert (Hgt : getTracks b1 (S t) = [t])
    by (unfold getTracks, b1; simpl; by rewrite lookup_insert_eq).
  assert (Hk : has_kind b1 audio t = true)
    by (unfold has_kind, b1; simpl; by rewrite lookup_insert_eq).
  assert (Haudio : head (getAudioTracks b1 (S t)) = Some t).
  { unfold getAudioTracks. rewrite Hgt. cbn [List.filter]. by rewrite Hk. }
  assert (Hen : track_enabled b0 old = was_on)
    by (unfold b0, chosen_world; by destruct store).
  set (b2 := set_tracks (alter (fun tr =>
                MkTrack (track_kind tr) was_on (ready tr) (onended tr)) t)
              (set_mstreams (alter (fun ms =>
                 MkStream (if existsb (Nat.eqb t) (stream_tracks ms)
                           then stream_tracks ms else stream_tracks ms ++ [t])) st)
                 (set_mstreams (alter (fun ms =>
                    MkStream (List.filter (fun t' => negb (Nat.eqb t' old))
                                (stream_tracks ms))) st) b1))).
  assert (Ho : o = (Ok tt,
    MkWorld
      (set_audioTrack (Some t)
         ((if was_on then fun c => c else set_voiceTrackAdded false)
            (set_streams (streams c1 ++ [S t]) c1)))
      b2,
    [Emit "devicechange" (Devices (audioDevices (this w)));
     TrackStop old; GetUserMedia (Some (deviceId d))]
    ++ (if was_on then
          if voiceTrackAdded (this w)
          then [Log Debug "replacing track to peer"; PeerReplaceTrack old (Some t)]
          else [Log Debug "adding track to peer"; PeerAddTrack t st]
        else []))).
  { unfold o, setAudioInputDevice, setAudioInputDevice_with, emit. run.
    destruct (peer (this w)); [|done]. cbn [is_some negb].
    assert (Hstore :
      (when store (upd_browser (set_localStorage
         (insert STORAGE_CALLS_DEFAULT_AUDIO_INPUT_KEY (stringify_device d))))) w
      = (Ok tt, MkWorld (this w) b0, [])).
    { unfold b0, chosen_world. destruct store; cbn [when browser].
      - reflexivity.
      - unfold ret. by rewrite world_eta. }
    rewrite (bind_Ok _ _ _ _ _ _ Hstore). run.
    cbn [audioTrack stream set_currentAudioInputDevice this browser].
    rewrite Htrack, Hstream. run. rewrite track_stop_run.
    cbn [this browser]. fold c1. fold (stopped old b0).
    rewrite (bind_Ok _ _ _ _ _ _ Hgum).
    unfold stream_removeTrack, stream_addTrack, track_set_enabled. run.
    cbn [this browser]. rewrite Haudio. run. rewrite Hen.
    destruct was_on.
    - run. cbn [this voiceTrackAdded set_streams].
      change (voiceTrackAdded c1) with (voiceTrackAdded (this w)).
      destruct (voiceTrackAdded (this w)); unfold logDebug; run; reflexivity.
    - run. reflexivity. }
  assert (Hw' : w' = MkWorld
      (set_audioTrack (Some t)
         ((if was_on then fun c => c else set_voiceTrackAdded false)
            (set_streams (streams c1 ++ [S t]) c1)))
      b2) by (unfold w'; by rewrite Ho).
  assert (Hb2t : tracks b2 !! t = Some (MkTrack audio was_on live None)).
  { unfold b2, b1. simpl. by rewrite lookup_alter_eq, lookup_insert_eq. }
  assert (Hb2o : is_live b2 old = false).
  { unfold is_live, b2, b1, stopped. simpl.
    rewrite lookup_alter_ne, lookup_insert_ne, lookup_alter_eq by done.
    by destruct (tracks b0 !! old). }
  assert (Hb2s : In t (getTracks b2 st) ∧ ¬ In old (getTracks b2 st)).
  { unfold getTracks, b2, b1, stopped. simpl.
    rewrite !lookup_alter_eq, lookup_insert_ne by done.
    replace (mstreams b0 !! st) with (Some mst)
      by (unfold b0, chosen_world; by destruct store).
    simpl.
    set (l := List.filter (fun t' => negb (Nat.eqb t' old)) (stream_tracks mst)).
    assert (Hl : ¬ In old l).
    { unfold l. intros [_ Hx]%filter_In. by rewrite Nat.eqb_refl in Hx. }
    destruct (existsb (Nat.eqb t) l) eqn:Hex.
    - split; [|done]. apply existsb_exists in Hex as (x & Hx & Heq).
      apply Nat.eqb_eq in Heq. by subst x.
    - split.
      + apply in_or_app. right. by left.
      + intros [Hx|[Hx|[]]]%in_app_or; [done|]. by apply Hne. }
  rewrite Hw'. rewrite Ho. cbn [result_of world_of effects_of fst snd this browser].
  split; [done|]. split; [done|].
  split; [by destruct was_on|].
  split; [done|].
  split; [unfold is_live; by rewrite Hb2t|].
  split; [unfold track_enabled; by rewrite Hb2t|].
  split; [done|].
  split; [by destruct was_on, (voiceTrackAdded (this w))|].
  split; [destruct was_on; simpl; done|].
  split; [by destruct was_on, (voiceTrackAdded (this w))|].
  intros Hoff. rewrite Hoff.
  set (c2 := set_audioTrack (Some t)
               (set_voiceTrackAdded false (set_streams (streams c1 ++ [S t]) c1))).
  assert (Hu : unmute fuel (MkWorld c2 b2)
    = (Ok tt,
       MkWorld (set_voiceTrackAdded true c2)
         (set_tracks (alter (fun tr =>
            MkTrack (track_kind tr) true (ready tr) (onended tr)) t) b2),
       (if is_some (rtcMonitor (this w)) then [MonitorClearCache] else [])
       ++ [Log Debug "adding track to peer"; PeerAddTrack t st;
           Emit "unmute" NoPayload]
       ++ (if is_some (ws (this w)) then [WsSend "unmute" None] else []))).
  { unfold unmute. run. cbn [this].
    replace (peer c2) with (peer (this w)) by reflexivity.
    destruct (peer (this w)); [|done]. cbn [is_some negb].
    replace (audioTrack c2) with (Some t) by reflexivity. run. cbn [negb].
    replace (rtcMonitor c2) with (rtcMonitor (this w)) by reflexivity.
    destruct (rtcMonitor (this w)); cbn [is_some when]; run;
      replace (audioTrack c2) with (Some t) by reflexivity;
      replace (voiceTrackAdded c2) with false by reflexivity;
      replace (stream c2) with (Some st) by (unfold c2, c1; simpl; by rewrite Hstream);
      unfold logDebug, track_set_enabled, emit; run;
      cbn [this set_voiceTrackAdded ws];
      replace (ws c2) with (ws (this w)) by reflexivity;
      destruct (ws (this w)); cbn [is_some when]; run; reflexivity. }
  rewrite Hu. cbn [result_of world_of effects_of fst snd this browser].
  split.
  - by destruct (rtcMonitor (this w)), (ws (this w)).
  - unfold track_enabled. cbn [tracks set_tracks].
    by rewrite lookup_alter_eq, Hb2t.
Qed.

Lemma microphone_switch_replaces_the_track_witness :
  let o := setAudioInputDevice 0 mic2 false mic_unplugged_world in
  List.filter is_peer_call (effects_of o) = [PeerReplaceTrack 0 (Some 4)]
  ∧ audioTrack (this (world_of o)) = Some 4.
Proof.
  destruct (microphone_switch_replaces_the_track 0 mic2 false
              mic_unplugged_world 0 1 [])
    as (_ & Ha & _ & _ & _ & _ & _ & Hp & _).
  - discriminate.
  - reflexivity.
  - reflexivity.
  - vm_compute. eauto.
  - vm_compute. eauto.
  - exact mic_unplugged_heap_fresh.
  - reflexivity.
  - exact (conj Hp Ha).
Defined.



(** X22. A failing fallback inside [updateDevices]. When the current
    microphone is no longer enumerated, another input is, and the platform
    refuses the capture on it, [updateDevices] still resolves: the error is
    logged; the new list of devices and the new current input device stay
    in place, the old track has ended and is still the audio track; no
    ['devicefallback'] event is emitted, the output device is not
    examined, and the only ['devicechange'] event is the one of the
    setter. *)
Theorem failed_microphone_fallback_is_swallowed
    (n : nat) (w : World) (ds : list MediaDeviceInfo)
    (later : list (option (list MediaDeviceInfo)))
    (cd d0 : MediaDeviceInfo) (old : TrackRef) (st : StreamRef)
    (Hpeer : peer (this w) ≠ None)
    (Hcur : currentAudioInputDevice (this w) = Some cd)
    (Htrack : audioTrack (this w) = Some old)
    (Hstream : stream (this w) = Some st)
    (Henum : env_devices (browser w) = Some ds :: later)
    (Hfirst : head (List.filter (fun d => bool_decide (kind d = audioinput)) ds)
              = Some d0)
    (Hgone : existsb (same_id_as (Some cd))
               (List.filter (fun d => bool_decide (kind d = audioinput)) ds)
             = false)
    (Hrefused : head (env_media (browser w)) ≠ Some true) :
  let o := updateDevices (S n) w in
  let ad :=
    MkAudioDevices
      (List.filter (fun d => bool_decide (kind d = audioinput)) ds)
      (List.filter (fun d => bool_decide (kind d = audiooutput)) ds) in
  result_of o = Ok tt
  ∧ List.filter (fun e => negb (is_log e)) (effects_of o)
    = [EnumerateDevices; Emit "devicechange" (Devices ad); TrackStop old;
       GetUserMedia (Some (deviceId d0))]
  ∧ audioDevices (this (world_of o)) = ad
  ∧ currentAudioInputDevice (this (world_of o)) = Some d0
  ∧ currentAudioOutputDevice (this (world_of o))
    = currentAudioOutputDevice (this w)
  ∧ audioTrack (this (world_of o)) = Some old
  ∧ is_live (browser (world_of o)) old = false.
Proof.
  intros o ad.
  set (w1 := MkWorld (set_audioDevices ad (this w))
               (set_env_devices later (browser w))).
  assert (Hp1 : peer (this w1) ≠ None) by exact Hpeer.
  assert (Hm1 : head (env_media (browser w1)) ≠ Some true) by exact Hrefused.
  destruct (setAudioInputDevice_refused n d0 false w1 old st Hp1 Htrack Hstream Hm1)
    as (b2 & Hset & Ht & _).
  assert (Hfb : handleAudioDeviceFallback n input w1
    = (Throw MediaError, MkWorld (this (chosen_world d0 false w1)) b2,
       Log Debug (with_type "selected audio " input
                    " device not available, falling back to system default")
       :: [Emit "devicechange" (Devices ad); TrackStop old;
           GetUserMedia (Some (deviceId d0))])).
  { unfold handleAudioDeviceFallback, handleAudioDeviceFallback_with. run.
    cbn [this current_of devices_of w1 set_audioDevices audioDevices inputs
         currentAudioInputDevice].
    rewrite Hcur. fold ad. cbn [inputs ad]. rewrite Hgone. cbn [negb].
    destruct (List.filter _ ds) as [|d0' l] eqn:Hf; [done|].
    cbn [head] in Hfirst. injection Hfirst as ->.
    unfold switch_device_with, set_device_with, logDebug. run.
    fold (setAudioInputDevice n).
    change (MkWorld (this w1) (browser w1)) with w1.
    replace (MkWorld (set_audioDevices ad (this w))
               (set_env_devices later (browser w))) with w1 by reflexivity.
    rewrite (bind_Throw _ _ _ _ _ _ Hset). reflexivity. }
  assert (Ho : o = (Ok tt, MkWorld (this (chosen_world d0 false w1)) b2,
    [Log Debug "a/v device change detected"; EnumerateDevices;
     Log Debug (with_type "selected audio " input
                  " device not available, falling back to system default");
     Emit "devicechange" (Devices ad); TrackStop old;
     GetUserMedia (Some (deviceId d0));
     Log Err "getUserMedia failed"])).
  { unfold o. cbn [updateDevices]. unfold updateDevices_with, logDebug. run.
    fold (initAudio n). fold (setAudioInputDevice n).
    fold (handleAudioDeviceFallback n).
    unfold try_catch, enumerateDevices. run. rewrite Henum. run.
    fold ad. fold w1. cbn [this set_audioDevices currentAudioInputDevice].
    rewrite Hcur. cbn [is_some when].
    rewrite (bind_Throw _ _ _ _ _ _ Hfb). reflexivity. }
  rewrite Ho. cbn [result_of world_of effects_of fst snd this browser].
  split; [done|]. split; [done|]. split; [done|]. split; [done|].
  split; [done|]. split; [done|].
  unfold is_live. rewrite Ht. unfold stopped. cbn [tracks set_tracks].
  rewrite lookup_alter_eq. by destruct (tracks _ !! old).
Qed.

Lemma failed_microphone_fallback_is_swallowed_witness :
  let o := updateDevices 1 mic_swap_refused_world in
  result_of o = Ok tt
  ∧ currentAudioInputDevice (this (world_of o)) = Some mic2
  ∧ currentAudioOutputDevice (this (world_of o)) = Some spk1.
Proof.
  destruct (failed_microphone_fallback_is_swallowed 0 mic_swap_refused_world
              [mic2; spk1] [] mic1 mic2 0 1)
    as (Hr & _ & _ & Hi & Ho & _).
  - discriminate.
  - reflexivity.
  - reflexivity.
  - reflexivity.
  - reflexivity.
  - vm_compute. reflexivity.
  - vm_compute. reflexivity.
  - vm_compute. discriminate.
  - exact (conj Hr (conj Hi Ho)).
Defined.


End ClientLaws.
